(** * libane: a shallow embedding of [src/libane/ane.c]

    The embedding comes first: machine integers, byte buffers and counted
    loops, the tiling transform, the device as user space sees it with the
    buffer-object manager, the channel set with its index macros, and the
    model loader.  The proofs follow in the same order. *)

From Stdlib Require Import ZArith List Bool Lia.
From Stdlib Require Import Strings.Byte.
From Stdlib Require Strings.String.
Import ListNotations.
Local Open Scope Z_scope.

(** ** Machine integers *)

Module Mach.

(** [uint64_t] and [uint32_t] arithmetic wraps modulo the word size. *)
Definition u64 (z : Z) : Z := z mod 2 ^ 64.
Definition u32 (z : Z) : Z := z mod 2 ^ 32.

Definition is_u64 (z : Z) : Prop := 0 <= z < 2 ^ 64.
Definition is_u32 (z : Z) : Prop := 0 <= z < 2 ^ 32.

(** [sizeof(uint16_t)], the element size of every tensor. *)
Definition sizeof_u16 : Z := 2.

End Mach.
Export Mach.

(** ** Byte buffers *)

Module Buf.

Definition buffer := list byte.

Definition zero_byte : byte := Byte.x00.

Definition len (b : buffer) : Z := Z.of_nat (length b).

(** The byte at offset [i] (a [Z], as every offset of the C code is). *)
Definition byte_at (b : buffer) (i : Z) : byte := nth (Z.to_nat i) b zero_byte.

(** [memcpy(dst + doff, src + soff, n)] between two distinct objects.  A copy
    that leaves either object is undefined in C; the model reports it as
    [None]. *)
Definition memcpy (dst : buffer) (doff : Z) (src : buffer) (soff n : Z)
  : option buffer :=
  if (0 <=? doff) && (0 <=? soff) && (0 <=? n)
     && (soff + n <=? len src) && (doff + n <=? len dst)
  then Some (firstn (Z.to_nat doff) dst
             ++ firstn (Z.to_nat n) (skipn (Z.to_nat soff) src)
             ++ skipn (Z.to_nat (doff + n)) dst)
  else None.

(** [memset(dst, 0, n)]. *)
Definition memset0 (dst : buffer) (n : Z) : option buffer :=
  if (0 <=? n) && (n <=? len dst)
  then Some (repeat zero_byte (Z.to_nat n) ++ skipn (Z.to_nat n) dst)
  else None.

End Buf.
Export Buf.

(** ** Counted loops *)

(** [for (uint64_t i = 0; i < bound; i++) body], threading the state [s]
    and stopping at the first fault of the body. *)
Fixpoint for_from {S : Type} (count : nat) (i : Z)
  (body : Z -> S -> option S) (s : S) : option S :=
  match count with
  | O => Some s
  | Datatypes.S k =>
      match body i s with
      | Some s' => for_from k (i + 1) body s'
      | None => None
      end
  end.

Definition for_u64 {S : Type} (bound : Z) (body : Z -> S -> option S) (s : S)
  : option S :=
  for_from (Z.to_nat bound) 0 body s.

(** ** The tiling transform *)

Module Tiling.

(** Byte offset of row [(n, c, h)] in a row-major block whose planes are
    [rows] by [cols] elements, exactly as the C expression computes it:
    [(n * (C * rows * cols) + c * (rows * cols) + h * cols) * sizeof(uint16_t)]
    in [uint64_t] arithmetic. *)
Definition row_offset (C rows cols n c h : Z) : Z :=
  u64 (u64 (u64 (u64 (n * u64 (u64 (C * rows) * cols))
                 + u64 (c * u64 (rows * cols)))
            + u64 (h * cols))
       * sizeof_u16).

(** [ane_tile(data, tile, N, C, H, W, P, R)]: the tile buffer after the
    call.  [data] and [tile] are distinct objects; the division [P / R] by
    zero and a copy that leaves either buffer are faults. *)
Definition ane_tile (data tile : buffer) (N C H W P R : Z) : option buffer :=
  if R =? 0 then None else
  let new_H := P / R in
  let new_W := R / sizeof_u16 in
  let stride := u64 (W * sizeof_u16) in
  for_u64 N (fun n tile =>
    for_u64 C (fun c tile =>
      for_u64 H (fun h tile =>
        let src := row_offset C H W n c h in
        let dst := row_offset C new_H new_W n c h in
        memcpy tile dst data src stride) tile) tile) tile.

(** The loop nest of [ane_untile], which runs on the destination once
    [memset] has cleared it. *)
Definition untile_rows (data tile : buffer) (N C H W new_H new_W stride : Z)
  : option buffer :=
  for_u64 N (fun n data =>
    for_u64 C (fun c data =>
      for_u64 H (fun h data =>
        let src := row_offset C new_H new_W n c h in
        let dst := row_offset C H W n c h in
        memcpy data dst tile src stride) data) data) data.

(** [ane_untile(data, tile, N, C, H, W, P, R)]: the dense buffer after the
    call. *)
Definition ane_untile (data tile : buffer) (N C H W P R : Z) : option buffer :=
  if R =? 0 then None else
  let new_H := P / R in
  let new_W := R / sizeof_u16 in
  let stride := u64 (W * sizeof_u16) in
  match memset0 data (u64 (u64 (u64 (u64 (N * C) * H) * W) * sizeof_u16)) with
  | None => None
  | Some data => untile_rows data tile N C H W new_H new_W stride
  end.

(** Rows of the dense tensor are numbered [k = (n * C + c) * H + h].  Row
    [k] starts at byte [k * (W * 2)] of the dense buffer and at byte
    [tile_row_pos k] of the tile, whose planes are [new_H] by [new_W]. *)
Definition tile_row_pos (H new_H new_W k : Z) : Z :=
  ((k / H) * new_H + k mod H) * new_W * 2.

(** Loop invariant of [ane_tile]: the first [k] rows of the dense tensor [X]
    sit at their places in the tile [t], whose length is [L]. *)
Definition tiled_upto (X : buffer) (H W new_H new_W L k : Z) (t : buffer)
  : Prop :=
  len t = L /\
  forall r w, 0 <= r < k -> 0 <= w < W * 2 ->
    byte_at t (tile_row_pos H new_H new_W r + w) = byte_at X (r * (W * 2) + w).

(** Loop invariant of [ane_untile]: the first [k] rows of the dense buffer
    [d] come from their places in the tile [T], every later byte up to
    [total] is still zero and the bytes from [total] on are those of [d0]. *)
Definition untiled_upto (T d0 : buffer) (H W new_H new_W total k : Z)
  (d : buffer) : Prop :=
  len d = len d0 /\
  (forall r w, 0 <= r < k -> 0 <= w < W * 2 ->
     byte_at d (r * (W * 2) + w)
     = byte_at T (tile_row_pos H new_H new_W r + w)) /\
  (forall i, k * (W * 2) <= i < total -> byte_at d i = zero_byte) /\
  (forall i, total <= i -> byte_at d i = byte_at d0 i).

End Tiling.

(** ** The kernel side, seen from user space *)

Module Dev.

Definition EINVAL : Z := 22.

(** Pointers are addresses; [NULL] is 0 and [MAP_FAILED] is [(void * )-1]. *)
Definition NULL : Z := 0.
Definition MAP_FAILED : Z := -1.

(** [struct ane_bo] of [ane.h], with the fields the code uses. *)
Record ane_bo : Type := mk_bo {
  map : Z;
  size : Z;
  handle : Z;
  offset : Z
}.

(** The state [ane_zmalloc] leaves a buffer object in. *)
Definition zero_bo : ane_bo := mk_bo NULL 0 0 0.

Definition set_map (bo : ane_bo) (m : Z) : ane_bo :=
  mk_bo m (size bo) (handle bo) (offset bo).
Definition set_size (bo : ane_bo) (sz : Z) : ane_bo :=
  mk_bo (map bo) sz (handle bo) (offset bo).
Definition set_handle_offset (bo : ane_bo) (h off : Z) : ane_bo :=
  mk_bo (map bo) (size bo) h off.

(** The requests user space makes of the kernel, with their answers. *)
Inductive event : Type :=
| BoInit (sz : Z) (answer : option (Z * Z))
| Mmap (sz off : Z) (answer : option Z)
| Munmap (addr sz : Z)
| BoFree (h : Z).

(** A mapping of [m_len] bytes shared with the device: its bytes by
    offset. *)
Record mapping : Type := mk_mapping {
  m_len : Z;
  m_byte : Z -> byte
}.

(** The device behind [ane->fd].  The kernel is not modelled: it answers the
    fallible requests from two scripts, one answer per request, [None] (or an
    exhausted script) being a refusal.  [DRM_IOCTL_ANE_BO_INIT] answers a
    handle and an offset, [mmap] a non-null address.  [mem] holds the live
    mappings by address, [trace] every request made so far. *)
Record device : Type := mk_device {
  bo_init_script : list (option (Z * Z));
  mmap_script : list (option positive);
  mem : Z -> option mapping;
  trace : list event
}.

Definition mem_set (m : Z -> option mapping) (a : Z) (v : option mapping)
  : Z -> option mapping :=
  fun x => if x =? a then v else m x.

Definition log (ane : device) (e : event) : device :=
  mk_device (bo_init_script ane) (mmap_script ane) (mem ane)
            (trace ane ++ [e]).

(** [ioctl(fd, DRM_IOCTL_ANE_BO_INIT, &args)]: the return value of the
    system call and the handle and offset left in [args], which
    [{ .size = bo->size }] has cleared. *)
Definition ioctl_bo_init (ane : device) (sz : Z) : Z * (Z * Z) * device :=
  let answer := match bo_init_script ane with
                | a :: _ => a
                | [] => None
                end in
  let ane' := log (mk_device (tl (bo_init_script ane)) (mmap_script ane)
                             (mem ane) (trace ane))
                  (BoInit sz answer) in
  match answer with
  | Some (h, off) => (0, (h, off), ane')
  | None => (-1, (0, 0), ane')
  end.

(** [ioctl(fd, DRM_IOCTL_ANE_BO_FREE, &args)]. *)
Definition ioctl_bo_free (ane : device) (h : Z) : Z * device :=
  (0, log ane (BoFree h)).

(** [mmap(0, size, PROT_READ | PROT_WRITE, MAP_SHARED, fd, offset)]; a fresh
    mapping reads as zero. *)
Definition sys_mmap (ane : device) (sz off : Z) : Z * device :=
  let answer := match mmap_script ane with
                | Some p :: _ => Some (Z.pos p)
                | _ => None
                end in
  let ane1 := mk_device (bo_init_script ane) (tl (mmap_script ane))
                        (mem ane) (trace ane) in
  match answer with
  | Some a =>
      (a, log (mk_device (bo_init_script ane1) (mmap_script ane1)
                         (mem_set (mem ane1) a
                                  (Some (mk_mapping sz (fun _ => zero_byte))))
                         (trace ane1))
              (Mmap sz off answer))
  | None => (MAP_FAILED, log ane1 (Mmap sz off None))
  end.

(** [munmap(addr, size)]. *)
Definition sys_munmap (ane : device) (addr sz : Z) : device :=
  log (mk_device (bo_init_script ane) (mmap_script ane)
                 (mem_set (mem ane) addr None) (trace ane))
      (Munmap addr sz).

(** *** The buffer-object manager *)

(** Each function returns its [int] result, the buffer object it was given
    a pointer to, and the device. *)
Definition bo_init (ane : device) (bo : ane_bo) : Z * ane_bo * device :=
  let '(err, (h, off), ane) := ioctl_bo_init ane (size bo) in
  (err, set_handle_offset bo h off, ane).

Definition bo_free (ane : device) (bo : ane_bo) : Z * device :=
  ioctl_bo_free ane (handle bo).

Definition bo_mmap (ane : device) (bo : ane_bo) : Z * ane_bo * device :=
  let '(m, ane) := sys_mmap ane (size bo) (offset bo) in
  let bo := set_map bo m in
  if map bo =? MAP_FAILED
  then (- EINVAL, set_map bo NULL, ane)
  else (0, bo, ane).

Definition ane_bo_init (ane : device) (bo : ane_bo) : Z * ane_bo * device :=
  if size bo =? 0 then (- EINVAL, bo, ane) else
  let '(err, bo, ane) := bo_init ane bo in
  if err <? 0 then
    (* error: *)
    (err, set_handle_offset bo 0 0, ane)
  else
  let '(err, bo, ane) := bo_mmap ane bo in
  if err <? 0 then
    let '(_, ane) := bo_free ane bo in
    (* error: *)
    (err, set_handle_offset bo 0 0, ane)
  else (0, bo, ane).

Definition ane_bo_free (ane : device) (bo : ane_bo) : ane_bo * device :=
  let ane :=
    if map bo =? NULL then ane
    else let ane := sys_munmap ane (map bo) (size bo) in
         snd (bo_free ane bo) in
  (set_map bo NULL, ane).

(** The events of an [ane_bo_init] of [sz] bytes that fails: no request at
    all for a zero size, a refused allocation, or an allocation that is
    freed again once the mapping is refused. *)
Definition failed_attempt (sz : Z) (evs : list event) : Prop :=
  (sz = 0 /\ evs = [])
  \/ evs = [BoInit sz None]
  \/ exists h off, evs = [BoInit sz (Some (h, off)); Mmap sz off None; BoFree h].

(** The events by which [ane_bo_free] releases a buffer object. *)
Definition release_events (bo : ane_bo) : list event :=
  if map bo =? NULL then []
  else [Munmap (map bo) (size bo); BoFree (handle bo)].

(** The events of a complete [ane_bo_init]. *)
Definition acquire_events (bo : ane_bo) : list event :=
  if map bo =? NULL then []
  else [BoInit (size bo) (Some (handle bo, offset bo));
        Mmap (size bo) (offset bo) (Some (map bo))].

End Dev.
Export Dev.

(** ** Model descriptor, model and channel set *)

Module Chan.

(** Modelled from the spec: [ane.h] is not among the sources; the channel
    array and the tile table have one entry per absolute channel index
    0..63. *)
Definition ANE_TILE_COUNT : nat := 64.

Definition TILE_SHIFT : Z := 0xE.
Definition TILE_SIZE : Z := 0x4000.

Definition tile_shift (x : Z) : Z := u64 (Z.shiftl (u64 x) TILE_SHIFT).
Definition tile_align (x : Z) : Z :=
  Z.land (u64 (u64 (u64 x + TILE_SIZE) - 1)) (u64 (- TILE_SIZE)).

(** Modelled from the spec: [struct anec] of [ane.h], the fixed header of a
    model file, with the fields the code reads. *)
Record anec_t : Type := mk_anec {
  anec_size : Z;
  td_size : Z;
  td_count : Z;
  tsk_size : Z;
  src_count : Z;
  dst_count : Z;
  tiles : list Z;
  nchw : list (list Z)
}.

(** [struct ane_model] of [ane.h]: the descriptor and the payload block
    [data] points to. *)
Record ane_model : Type := mk_model {
  anec : anec_t;
  data : buffer
}.

(** [struct ane_nn] of [ane.h]; the descriptor [ane.fd] is the [device]
    every function threads. *)
Record ane_nn : Type := mk_nn {
  model : ane_model;
  chans : list ane_bo;
  btsp_chan : ane_bo
}.

Definition to_anec (nn : ane_nn) : anec_t := anec (model nn).

Definition tile_of (a : anec_t) (bdx : nat) : Z := nth bdx (tiles a) 0.
Definition tile_size (nn : ane_nn) (bdx : nat) : Z :=
  tile_shift (tile_of (to_anec nn) bdx).

Definition chan (nn : ane_nn) (bdx : nat) : ane_bo := nth bdx (chans nn) zero_bo.

(** [l[i] = x] for [i] inside [l]. *)
Fixpoint upd {A : Type} (i : nat) (x : A) (l : list A) : list A :=
  match l, i with
  | [], _ => []
  | _ :: t, O => x :: t
  | h :: t, Datatypes.S j => h :: upd j x t
  end.

(** What [ane_zmalloc(sizeof(struct ane_nn))] and [nn->model = model] leave. *)
Definition nn_zero (m : ane_model) : ane_nn :=
  mk_nn m (repeat zero_bo ANE_TILE_COUNT) zero_bo.

(** *** Little-endian words *)

Definition byte_val (b : byte) : Z := Z.of_N (Byte.to_N b).
Definition byte_of (z : Z) : byte :=
  match Byte.of_N (Z.to_N (z mod 256)) with
  | Some b => b
  | None => zero_byte
  end.

(** The 32-bit word whose bytes, lowest first, are [b0 .. b3]. *)
Definition word_of (b0 b1 b2 b3 : byte) : Z :=
  byte_val b0 + Z.shiftl (byte_val b1) 8
  + Z.shiftl (byte_val b2) 16 + Z.shiftl (byte_val b3) 24.

(** The first word of a host buffer. *)
Definition first_word (b : buffer) : option Z :=
  match b with
  | b0 :: b1 :: b2 :: b3 :: _ => Some (word_of b0 b1 b2 b3)
  | _ => None
  end.

(** [*(uint32_t * )td] and [memcpy(td, &w, sizeof(uint32_t))] at the start
    of a mapping. *)
Definition load_u32 (td : mapping) : option Z :=
  if 4 <=? m_len td
  then Some (word_of (m_byte td 0) (m_byte td 1) (m_byte td 2) (m_byte td 3))
  else None.

Definition store_u32 (td : mapping) (w : Z) : option mapping :=
  if 4 <=? m_len td
  then Some (mk_mapping (m_len td)
               (fun i => if i =? 0 then byte_of w
                         else if i =? 1 then byte_of (Z.shiftr w 8)
                         else if i =? 2 then byte_of (Z.shiftr w 16)
                         else if i =? 3 then byte_of (Z.shiftr w 24)
                         else m_byte td i))
  else None.

(** The word [set_nid] writes back. *)
Definition nid_word (hdr0 nid : Z) : Z :=
  Z.lor (Z.land hdr0 0xf00ffff) (Z.shiftl (Z.land nid 0xff) 16).

Definition set_nid (td : mapping) (nid : Z) : option mapping :=
  match load_u32 td with
  | Some hdr0 => store_u32 td (nid_word hdr0 nid)
  | None => None
  end.

Section ChannelSet.

(** [ANE_FIFO_NID] comes from a header that is not among the sources. *)
Variable ANE_FIFO_NID : Z.

(** The copies leave the device untouched but for [mem]; a copy to an
    address that is not mapped, or beyond either object, is a fault. *)
Definition mem_write (ane : device) (a : Z) (b : mapping) : device :=
  mk_device (bo_init_script ane) (mmap_script ane)
            (mem_set (mem ane) a (Some b)) (trace ane).

(** [memcpy(dst, src, n)] into a mapping. *)
Definition map_write (dst : mapping) (src : buffer) (n : Z) : option mapping :=
  if (0 <=? n) && (n <=? len src) && (n <=? m_len dst)
  then Some (mk_mapping (m_len dst)
               (fun i => if (0 <=? i) && (i <? n) then byte_at src i
                         else m_byte dst i))
  else None.

Definition copy_to_map (ane : device) (a : Z) (src : buffer) (n : Z)
  : option device :=
  match mem ane a with
  | Some dst =>
      match map_write dst src n with
      | Some dst' => Some (mem_write ane a dst')
      | None => None
      end
  | None => None
  end.

Definition set_btsp_and_command (ane : device) (nn : ane_nn) : option device :=
  let anec := to_anec nn in
  let data := data (model nn) in
  match copy_to_map ane (map (chan nn 0)) data (anec_size anec) with
  | None => None
  | Some ane =>
      match copy_to_map ane (map (btsp_chan nn)) data (td_size anec) with
      | None => None
      | Some ane =>
          match mem ane (map (btsp_chan nn)) with
          | None => None
          | Some td =>
              match set_nid td ANE_FIFO_NID with
              | Some td' => Some (mem_write ane (map (btsp_chan nn)) td')
              | None => None
              end
          end
      end
  end.

(** [for (bdx = 0; bdx < ANE_TILE_COUNT; bdx++) ane_bo_free(ane, &nn->chans[bdx])]. *)
Fixpoint free_chans (count bdx : nat) (ane : device) (cs : list ane_bo)
  : list ane_bo * device :=
  match count with
  | O => (cs, ane)
  | Datatypes.S k =>
      let '(bo, ane) := ane_bo_free ane (nth bdx cs zero_bo) in
      free_chans k (Datatypes.S bdx) ane (upd bdx bo cs)
  end.

Definition ane_chan_free (ane : device) (nn : ane_nn) : ane_nn * device :=
  let '(btsp, ane) := ane_bo_free ane (btsp_chan nn) in
  let '(cs, ane) := free_chans ANE_TILE_COUNT 0 ane (chans nn) in
  (mk_nn (model nn) cs btsp, ane).

(** The first loop of [ane_chan_init]; it stops at the first error, which
    [goto error] then handles. *)
Fixpoint init_chans (count bdx : nat) (a : anec_t) (ane : device)
  (cs : list ane_bo) : Z * list ane_bo * device :=
  match count with
  | O => (0, cs, ane)
  | Datatypes.S k =>
      if tile_of a bdx =? 0 then init_chans k (Datatypes.S bdx) a ane cs
      else
        let bo := set_size (nth bdx cs zero_bo) (tile_shift (tile_of a bdx)) in
        let '(err, bo, ane) := ane_bo_init ane bo in
        let cs := upd bdx bo cs in
        if err <? 0 then (err, cs, ane)
        else init_chans k (Datatypes.S bdx) a ane cs
  end.

(** [ane_chan_init]: [None] when a copy of [set_btsp_and_command] faults. *)
Definition ane_chan_init (ane : device) (nn : ane_nn)
  : option (Z * ane_nn * device) :=
  let anec := to_anec nn in
  let '(err, cs, ane) := init_chans ANE_TILE_COUNT 0 anec ane (chans nn) in
  let nn := mk_nn (model nn) cs (btsp_chan nn) in
  if err <? 0 then
    (* error: *)
    let '(nn, ane) := ane_chan_free ane nn in Some (err, nn, ane)
  else
    let bo := set_size (btsp_chan nn) (tile_align (td_size anec)) in
    let '(err, bo, ane) := ane_bo_init ane bo in
    let nn := mk_nn (model nn) (chans nn) bo in
    if err <? 0 then
      (* error: *)
      let '(nn, ane) := ane_chan_free ane nn in Some (err, nn, ane)
    else
      match set_btsp_and_command ane nn with
      | Some ane => Some (0, nn, ane)
      | None => None
      end.

(** [__ane_init_from_model] once [ane_open] has answered the device [ane]
    and [ane_zmalloc] the cleared [struct ane_nn]: the result is the job
    instance, or [None] for the [NULL] the caller gets. *)
Definition ane_init_from_model (ane : device) (m : ane_model)
  : option (option ane_nn * device) :=
  match ane_chan_init ane (nn_zero m) with
  | None => None
  | Some (err, nn, ane) =>
      if err <? 0 then Some (None, ane) else Some (Some nn, ane)
  end.

End ChannelSet.

(** *** Index macros and raw transfers *)

(** [src_bdx] adds the [int] 4, the [uint32_t] count and the [int] index in
    unsigned 32-bit arithmetic; [dst_bdx] adds two [int]s. *)
Definition src_bdx (nn : ane_nn) (idx : Z) : Z :=
  u32 (u32 (4 + dst_count (to_anec nn)) + u32 idx).
Definition dst_bdx (idx : Z) : Z := 4 + idx.

(** [__ane_send]; [check] is [LIBANE_INDEX_CHECK].  An index outside the
    channel array is a fault. *)
Definition ane_send (check : bool) (ane : device) (nn : ane_nn)
  (from : buffer) (idx : Z) : option device :=
  if check && (src_count (to_anec nn) <=? u32 idx) then Some ane else
  let bdx := src_bdx nn idx in
  if Z.of_nat ANE_TILE_COUNT <=? bdx then None else
  copy_to_map ane (map (chan nn (Z.to_nat bdx))) from
              (tile_size nn (Z.to_nat bdx)).

(** A buffer object with no mapping. *)
Definition unmapped (bo : ane_bo) : Prop := map bo = NULL.

(** What the first loop of [ane_chan_init] makes of the buffer object [bo]
    of channel [bdx]: nothing when the channel is absent, a mapped object
    of the size of the tile when it is present. *)
Definition chan_ok (a : anec_t) (bdx : nat) (bo' bo : ane_bo) : Prop :=
  if tile_of a bdx =? 0 then bo' = bo
  else map bo' <> NULL /\ size bo' = tile_shift (tile_of a bdx).

(** The size of the attempt that fails after the channels before [k] are
    initialised: that of channel [k], or of the bootstrap buffer when every
    channel is. *)
Definition attempt_size (a : anec_t) (k : nat) : Z :=
  if (k <? ANE_TILE_COUNT)%nat then tile_shift (tile_of a k)
  else tile_align (td_size a).

End Chan.
Export Chan.

(** ** The model loader *)

Module Loader.

Definition ANEC_SIZE : Z := 0x1000.

(** A file of the host: its bytes, whether [fseek] works on it, and, when
    the medium fails, how many bytes one [fread] delivers before it does. *)
Record file : Type := mk_file {
  contents : buffer;
  seekable : bool;
  io_limit : option Z
}.

(** The host: the files by path, and the answers of the allocator, one per
    request ([false], or an exhausted script, being a refusal). *)
Record host : Type := mk_host {
  files : String.string -> option file;
  malloc_script : list bool
}.

(** An open [FILE *]. *)
Record stream : Type := mk_stream {
  st_file : file;
  st_pos : Z
}.

Definition fopen_rb (h : host) (fname : String.string) : option stream :=
  match files h fname with
  | Some f => Some (mk_stream f 0)
  | None => None
  end.

(** [fseek(fp, offset, SEEK_SET)]: the stream moved, or [None] for a
    non-zero return. *)
Definition fseek_set (st : stream) (off : Z) : option stream :=
  if seekable (st_file st) then Some (mk_stream (st_file st) off) else None.

(** How many bytes [fread(data, sizeof(char), size, fp)] transfers. *)
Definition fread_count (st : stream) (sz : Z) : Z :=
  let avail := Z.max 0 (len (contents (st_file st)) - st_pos st) in
  let n := Z.min sz avail in
  match io_limit (st_file st) with
  | Some l => Z.min n (Z.max 0 l)
  | None => n
  end.

(** [fread]: the count and the destination, of which only the first
    [count] bytes are written. *)
Definition fread (data : buffer) (sz : Z) (st : stream) : option (Z * buffer) :=
  let n := fread_count st sz in
  let chunk := firstn (Z.to_nat n)
                      (skipn (Z.to_nat (st_pos st)) (contents (st_file st))) in
  match memcpy data 0 chunk 0 n with
  | Some data' => Some (n, data')
  | None => None
  end.

(** [ane_fread] and [ane_pread]: the [int] result and the destination; a
    read longer than the destination is a fault. *)
Definition ane_fread (h : host) (fname : String.string) (data : buffer) (sz : Z)
  : option (Z * buffer) :=
  match fopen_rb h fname with
  | None => Some (- EINVAL, data)
  | Some fp =>
      match fread data sz fp with
      | None => None
      | Some (done, data) =>
          (* a count other than [sz] is reported and nothing else *)
          Some (0, data)
      end
  end.

Definition ane_pread (h : host) (fname : String.string) (data : buffer) (sz off : Z)
  : option (Z * buffer) :=
  match fopen_rb h fname with
  | None => Some (- EINVAL, data)
  | Some fp =>
      match fseek_set fp off with
      | None => Some (- EINVAL, data)
      | Some fp =>
          match fread data sz fp with
          | None => None
          | Some (done, data) => Some (0, data)
          end
      end
  end.

(** [ane_zmalloc] and [ane_zmemalign]: a cleared block, or [None] for
    [NULL]. *)
Definition ane_zmalloc (h : host) (sz : Z) : option buffer * host :=
  match malloc_script h with
  | true :: rest =>
      (Some (repeat zero_byte (Z.to_nat sz)), mk_host (files h) rest)
  | _ => (None, mk_host (files h) (tl (malloc_script h)))
  end.

Definition ane_zmemalign (h : host) (sz : Z) : option buffer * host :=
  ane_zmalloc h sz.

(** A loaded [struct ane_model]: the bytes of its [struct anec] and the
    payload block [data] points to. *)
Record raw_model : Type := mk_raw {
  anec_bytes : buffer;
  payload : buffer
}.

Section Load.

(** [sizeof(struct anec)] and the read of the field [anec->size] depend on
    the layout [ane.h] declares, which is not among the sources. *)
Variable sizeof_anec : Z.
Variable read_size : buffer -> Z.

(** [ane_model_init]: the model, or [None] inside for [NULL]; the blocks it
    frees on the way out are not tracked. *)
Definition ane_model_init (h : host) (path : String.string)
  : option (option raw_model * host) :=
  match ane_zmalloc h sizeof_anec with
  | (None, h) => Some (None, h)
  | (Some anec, h) =>
      match ane_fread h path anec sizeof_anec with
      | None => None
      | Some (err, anec) =>
          if err <? 0 then Some (None, h) else
          match ane_zmemalign h (read_size anec) with
          | (None, h) => Some (None, h)
          | (Some data, h) =>
              match ane_pread h path data (read_size anec) ANEC_SIZE with
              | None => None
              | Some (err, data) =>
                  if err <? 0 then Some (None, h)
                  else Some (Some (mk_raw anec data), h)
              end
          end
      end
  end.

End Load.

End Loader.
Export Loader.

(** ** Concrete inputs *)

Module Demo.

(** A tensor of shape [(1, 2, 2, 2)] in tiles whose planes are 3 rows of 4
    elements ([P = 24], [R = 8]); the tile buffer starts out as garbage. *)
Definition dense : buffer :=
  [x01; x02; x03; x04; x05; x06; x07; x08;
   x09; x0a; x0b; x0c; x0d; x0e; x0f; x10]%byte.
Definition garbage_tile : buffer := repeat xff%byte 48.
Definition stale_out : buffer := repeat xaa%byte 16.

(** A descriptor with the task channel 0, one destination (channel 4) and
    one source (channel 5); its task program starts with the word
    [0xF0000000]. *)
Definition tiles_demo : list Z := [1; 0; 0; 0; 1; 2] ++ repeat 0 58.
Definition anec_demo : anec_t := mk_anec 8 8 1 8 1 1 tiles_demo [].
Definition program : buffer :=
  [x00; x00; x00; xf0; x11; x22; x33; x44]%byte.
Definition model_demo : ane_model := mk_model anec_demo program.

(** A device that grants every request of the descriptor. *)
Definition device_ok : device :=
  mk_device [Some (1, 0); Some (2, 0x4000); Some (3, 0x8000); Some (4, 0x10000)]
            [Some 4096%positive; Some 32768%positive;
             Some 65536%positive; Some 131072%positive]
            (fun _ => None) [].

(** A device that refuses the mapping of the second present channel. *)
Definition device_map_fails : device :=
  mk_device [Some (1, 0); Some (2, 0x4000)]
            [Some 4096%positive; None]
            (fun _ => None) [].

Definition FIFO_NID : Z := 0x40.

Definition ok_run : option (Z * ane_nn * device) :=
  ane_chan_init FIFO_NID device_ok (nn_zero model_demo).
Definition ok_nn : ane_nn :=
  match ok_run with Some (_, nn, _) => nn | None => nn_zero model_demo end.
Definition ok_device : device :=
  match ok_run with Some (_, _, d) => d | None => device_ok end.

Definition failed_run : option (Z * ane_nn * device) :=
  ane_chan_init FIFO_NID device_map_fails (nn_zero model_demo).
Definition failed_err : Z :=
  match failed_run with Some (e, _, _) => e | None => 0 end.
Definition failed_nn : ane_nn :=
  match failed_run with Some (_, nn, _) => nn | None => nn_zero model_demo end.
Definition failed_device : device :=
  match failed_run with Some (_, _, d) => d | None => device_map_fails end.

(** The same channels with a task descriptor of two bytes: only the first
    two bytes of the program [11 22 33 44 ...] reach the bootstrap buffer. *)
Definition anec_short_td : anec_t := mk_anec 8 2 1 8 1 1 tiles_demo [].
Definition program_short_td : buffer :=
  [x11; x22; x33; x44; x55; x66; x77; x88]%byte.
Definition model_short_td : ane_model := mk_model anec_short_td program_short_td.
Definition short_td_run : option (Z * ane_nn * device) :=
  ane_chan_init FIFO_NID device_ok (nn_zero model_short_td).

(** The first word of the bootstrap mapping after a run. *)
Definition bootstrap_word (run : option (Z * ane_nn * device)) : option Z :=
  match run with
  | Some (_, nn, d) =>
      match mem d (map (btsp_chan nn)) with
      | Some td => load_u32 td
      | None => None
      end
  | None => None
  end.

(** A buffer object that is allocated and not mapped: the state between the
    two steps of [ane_bo_init]. *)
Definition device_one : device :=
  mk_device [Some (7, 0)] [] (fun _ => None) [].
Definition allocated_only : ane_bo * device :=
  let '(_, bo, d) := bo_init device_one (set_size zero_bo 0x4000) in (bo, d).

(** A model file of five bytes, shorter than the header: its size field
    (the first eight bytes, lowest first, in this layout of 16 bytes) reads
    3, and it has no payload at all. *)
Definition le64 (b : buffer) : Z :=
  byte_val (byte_at b 0) + 256 * byte_val (byte_at b 1)
  + 65536 * byte_val (byte_at b 2) + 16777216 * byte_val (byte_at b 3)
  + 4294967296 * byte_val (byte_at b 4)
  + 1099511627776 * byte_val (byte_at b 5)
  + 281474976710656 * byte_val (byte_at b 6)
  + 72057594037927936 * byte_val (byte_at b 7).
Definition short_file : file :=
  mk_file [x03; x00; x00; x00; x00]%byte true None.
Definition model_path : String.string :=
  String.string_of_list_byte
    ["m"; "o"; "d"; "e"; "l"; "."; "a"; "n"; "e"; "c"]%byte.
Definition host_demo : host :=
  mk_host (fun p => if String.eqb p model_path then Some short_file else None)
          [true; true].
Definition loaded_demo : raw_model :=
  match ane_model_init 16 le64 host_demo model_path with
  | Some (Some m, _) => m
  | _ => mk_raw [] []
  end.

End Demo.

(** ** The cells of a tile *)

Module TileCells.

(** Byte [i] of a tile is a cell when it is byte [w] of row [h < H] of a
    plane [(n, c)]: one of the bytes [ane_tile] writes and [ane_untile]
    reads.  Every other byte of the tile is padding. *)
Definition tile_cell (N C H W new_H new_W i : Z) : Prop :=
  exists n c h w,
    0 <= n < N /\ 0 <= c < C /\ 0 <= h < H /\ 0 <= w < W * 2
    /\ i = ((n * C + c) * new_H + h) * new_W * 2 + w.

End TileCells.
Export TileCells.

(** ** Channel accessors, tiled transfers and submission *)

Module Access.

(** [memcpy(dst, src, n)] out of a mapping: the [n] bytes copied. *)
Definition map_read (src : mapping) (n : Z) : option buffer :=
  if (0 <=? n) && (n <=? m_len src)
  then Some (List.map (fun k => m_byte src (Z.of_nat k)) (seq 0 (Z.to_nat n)))
  else None.

(** [__ane_read]; [check] is [LIBANE_INDEX_CHECK].  The result is the
    caller's buffer [to] after the call. *)
Definition ane_read (check : bool) (ane : device) (nn : ane_nn)
  (to : buffer) (idx : Z) : option buffer :=
  if check && (dst_count (to_anec nn) <=? u32 idx) then Some to else
  let bdx := dst_bdx idx in
  if (bdx <? 0) || (Z.of_nat ANE_TILE_COUNT <=? bdx) then None else
  match mem ane (map (chan nn (Z.to_nat bdx))) with
  | Some src =>
      match map_read src (tile_size nn (Z.to_nat bdx)) with
      | Some bytes => memcpy to 0 bytes 0 (tile_size nn (Z.to_nat bdx))
      | None => None
      end
  | None => None
  end.

(** [__ane_src_chan] and [__ane_dst_chan]: the pointer returned, [None] for
    an index outside the channel array. *)
Definition ane_src_chan (check : bool) (nn : ane_nn) (idx : Z) : option Z :=
  if check && (src_count (to_anec nn) <=? u32 idx) then Some NULL else
  let bdx := src_bdx nn idx in
  if Z.of_nat ANE_TILE_COUNT <=? bdx then None
  else Some (map (chan nn (Z.to_nat bdx))).

Definition ane_dst_chan (check : bool) (nn : ane_nn) (idx : Z) : option Z :=
  if check && (dst_count (to_anec nn) <=? u32 idx) then Some NULL else
  let bdx := dst_bdx idx in
  if (bdx <? 0) || (Z.of_nat ANE_TILE_COUNT <=? bdx) then None
  else Some (map (chan nn (Z.to_nat bdx))).

(** [__ane_src_size] and [__ane_dst_size]. *)
Definition ane_src_size (check : bool) (nn : ane_nn) (idx : Z) : option Z :=
  if check && (src_count (to_anec nn) <=? u32 idx) then Some 0 else
  let bdx := src_bdx nn idx in
  if Z.of_nat ANE_TILE_COUNT <=? bdx then None
  else Some (tile_size nn (Z.to_nat bdx)).

Definition ane_dst_size (check : bool) (nn : ane_nn) (idx : Z) : option Z :=
  if check && (dst_count (to_anec nn) <=? u32 idx) then Some 0 else
  let bdx := dst_bdx idx in
  if (bdx <? 0) || (Z.of_nat ANE_TILE_COUNT <=? bdx) then None
  else Some (tile_size nn (Z.to_nat bdx)).

(** [anec->nchw[bdx][k]]. *)
Definition nchw_of (a : anec_t) (bdx k : nat) : Z :=
  nth k (nth bdx (nchw a) []) 0.

(** [__ane_tile_send]: the tile is a cleared local array of the size of the
    channel, filled by [ane_tile] and copied whole into the mapping. *)
Definition ane_tile_send (ane : device) (nn : ane_nn) (from : buffer) (idx : Z)
  : option device :=
  let a := to_anec nn in
  let bdx := src_bdx nn idx in
  if Z.of_nat ANE_TILE_COUNT <=? bdx then None else
  let b := Z.to_nat bdx in
  let tile := repeat zero_byte (Z.to_nat (tile_size nn b)) in
  match Tiling.ane_tile from tile (nchw_of a b 0) (nchw_of a b 1)
          (nchw_of a b 2) (nchw_of a b 3) (nchw_of a b 4) (nchw_of a b 5) with
  | None => None
  | Some tile => copy_to_map ane (map (chan nn b)) tile (tile_size nn b)
  end.

(** [__ane_tile_read]: the tile is a local copy of the mapping, which
    [ane_untile] unpacks into the caller's buffer [to]. *)
Definition ane_tile_read (ane : device) (nn : ane_nn) (to : buffer) (idx : Z)
  : option buffer :=
  let a := to_anec nn in
  let bdx := dst_bdx idx in
  if (bdx <? 0) || (Z.of_nat ANE_TILE_COUNT <=? bdx) then None else
  let b := Z.to_nat bdx in
  match mem ane (map (chan nn b)) with
  | None => None
  | Some src =>
      match map_read src (tile_size nn b) with
      | None => None
      | Some tile =>
          Tiling.ane_untile to tile (nchw_of a b 0) (nchw_of a b 1)
            (nchw_of a b 2) (nchw_of a b 3) (nchw_of a b 4) (nchw_of a b 5)
      end
  end.

(** [struct drm_ane_submit] of [drm_ane.h], with the fields [ane_exec]
    sets; [memset] has cleared the rest. *)
Record drm_ane_submit : Type := mk_submit {
  sub_tsk_size : Z;
  sub_td_count : Z;
  sub_td_size : Z;
  sub_handles : list Z;
  sub_btsp_handle : Z
}.

(** The record [ane_exec] hands to [DRM_IOCTL_ANE_SUBMIT]. *)
Definition submit_args (nn : ane_nn) : drm_ane_submit :=
  let a := to_anec nn in
  mk_submit (tsk_size a) (td_count a) (td_size a)
    (List.map (fun bdx => if tile_of a bdx =? 0 then 0
                          else handle (chan nn bdx))
              (seq 0 ANE_TILE_COUNT))
    (handle (btsp_chan nn)).

(** [ane_exec]: the answer of the device to the submission. *)
Definition ane_exec (ioctl_submit : drm_ane_submit -> Z) (nn : ane_nn) : Z :=
  ioctl_submit (submit_args nn).

End Access.
Export Access.

(** ** Device discovery *)

Module Discovery.

Definition ENODEV : Z := 19.
Definition MAX_ANE_DEVICES : Z := 2.
Definition MAX_NODE_COUNT : nat := 64.

(** What lies behind [/dev/accel/accelN]: nothing that opens, a node whose
    [DRM_IOCTL_VERSION] fails, or a node whose driver reports a name. *)
Inductive node : Type :=
| NoNode
| NoVersion
| Driver (name : list byte).

(** The system as [ane_open] sees it: the nodes by number, the descriptors
    that are open with the node each refers to, and the next descriptor
    [open] answers. *)
Record sys : Type := mk_sys {
  nodes : nat -> node;
  opened : list (Z * nat);
  next_fd : Z
}.

Definition sys_open (s : sys) (i : nat) : Z * sys :=
  match nodes s i with
  | NoNode => (-1, s)
  | _ => (next_fd s,
          mk_sys (nodes s) ((next_fd s, i) :: opened s) (next_fd s + 1))
  end.

Definition sys_close (s : sys) (fd : Z) : sys :=
  mk_sys (nodes s) (filter (fun e => negb (fst e =? fd)) (opened s))
         (next_fd s).

Definition node_of_fd (s : sys) (fd : Z) : node :=
  match find (fun e => fst e =? fd) (opened s) with
  | Some (_, i) => nodes s i
  | None => NoNode
  end.

(** The C string at the start of a buffer: its bytes up to the first NUL. *)
Fixpoint cstr (b : list byte) : list byte :=
  match b with
  | [] => []
  | x :: t => if Byte.eqb x Byte.x00 then [] else x :: cstr t
  end.

Definition name_ane : list byte := ["a"; "n"; "e"]%byte.

Definition bytes_eqb (a b : list byte) : bool :=
  (length a =? length b)%nat
  && forallb (fun p => Byte.eqb (fst p) (snd p)) (combine a b).

(** [is_ane_device]: the first [DRM_IOCTL_VERSION] gives the length of the
    name, the second the name, which is closed by a NUL and compared with
    ["ane"].  The block [ane_malloc] returns for the name is taken as
    granted: the code does not test it. *)
Definition is_ane_device (s : sys) (fd : Z) : Z :=
  match node_of_fd s fd with
  | Driver name =>
      if (length name =? 0)%nat then - EINVAL
      else if bytes_eqb (cstr name) name_ane then 0 else - EINVAL
  | _ => - EINVAL
  end.

Definition open_fd (s : sys) (i : nat) : Z * sys :=
  let '(fd, s) := sys_open s i in
  if fd <? 0 then (- ENODEV, s)
  else if is_ane_device s fd <? 0 then (- EINVAL, sys_close s fd)
  else (fd, s).

(** The loop of [ane_open] from node [i] on, [found] devices seen so far. *)
Fixpoint open_scan (count i : nat) (found dev_id : Z) (s : sys) : Z * sys :=
  match count with
  | O => (- ENODEV, s)
  | Datatypes.S k =>
      let '(fd, s) := open_fd s i in
      if fd <? 0 then open_scan k (Datatypes.S i) found dev_id s
      else if dev_id =? found then (fd, s)
      else open_scan k (Datatypes.S i) (found + 1) dev_id (sys_close s fd)
  end.

Definition ane_open (s : sys) (dev_id : Z) : Z * sys :=
  if (dev_id <? 0) || (MAX_ANE_DEVICES <=? dev_id) then (- EINVAL, s)
  else open_scan MAX_NODE_COUNT 0 0 dev_id s.

Definition ane_close (s : sys) (fd : Z) : sys :=
  if fd <? 0 then s else sys_close s fd.

(** Node [i] is an accelerator when its driver is called ["ane"]. *)
Definition is_ane_node (s : sys) (i : nat) : bool :=
  match nodes s i with
  | Driver name => negb (length name =? 0)%nat && bytes_eqb (cstr name) name_ane
  | _ => false
  end.

(** Every open descriptor is below the next one [open] answers, and none is
    negative. *)
Definition fds_ok (s : sys) : Prop :=
  0 <= next_fd s /\ Forall (fun e => 0 <= fst e < next_fd s) (opened s).

End Discovery.
Export Discovery.

(** ** Failure injection *)

Module Inject.

(** The channels present among the first [k]. *)
Definition present_before (a : anec_t) (k : nat) : nat :=
  length (filter (fun j => negb (tile_of a j =? 0)) (seq 0 k)).

(** The device grants its next [n] allocations and its next [n] mappings. *)
Definition grants (ane : device) (n : nat) : Prop :=
  forall i, (i < n)%nat ->
    nth i (bo_init_script ane) None <> None
    /\ nth i (mmap_script ane) None <> None.

(** After [n] attempts the device refuses one: its allocation, or its
    mapping. *)
Definition refuses (ane : device) (n : nat) : Prop :=
  nth n (bo_init_script ane) None = None
  \/ nth n (mmap_script ane) None = None.

End Inject.
Export Inject.

(** ** More concrete inputs *)

Module Samples.

Import Demo.

(** The tile and the dense tensor the transforms of [Demo] produce. *)
Definition tiled_demo : buffer :=
  match Tiling.ane_tile dense garbage_tile 1 2 2 2 24 8 with
  | Some t => t
  | None => []
  end.
Definition untiled_demo : buffer :=
  match Tiling.ane_untile stale_out garbage_tile 1 2 2 2 24 8 with
  | Some d => d
  | None => []
  end.

(** A tile that agrees with [garbage_tile] on the cells of the shape
    [(1, 2, 2, 2)] and differs on all of the padding. *)
Definition plane_clean : buffer :=
  [xff; xff; xff; xff; x00; x00; x00; x00;
   xff; xff; xff; xff; x00; x00; x00; x00;
   x00; x00; x00; x00; x00; x00; x00; x00]%byte.
Definition clean_tile : buffer := plane_clean ++ plane_clean.

(** One buffer object of one tile on the device that grants. *)
Definition bo_run : Z * ane_bo * device :=
  ane_bo_init device_ok (set_size zero_bo 0x4000).

(** The descriptor of [Demo] with a task descriptor of size zero. *)
Definition model_zero_td : ane_model :=
  mk_model (mk_anec 8 0 1 8 1 1 tiles_demo []) program.

(** A task descriptor of 16 bytes and two stamps of it. *)
Definition td_demo : mapping := mk_mapping 16 (fun _ => xff%byte).
Definition td_stamped (td : mapping) (nid : Z) : mapping :=
  match set_nid td nid with
  | Some t => t
  | None => td
  end.

(** The descriptor of [Demo] with the shapes of its destination and its
    source: tensors of shape [(1, 2, 2, 2)] in planes of 3 rows of 4
    elements. *)
Definition nchw_demo : list (list Z) :=
  [[]; []; []; []; [1; 2; 2; 2; 24; 8]; [1; 2; 2; 2; 24; 8]].
Definition model_shaped : ane_model :=
  mk_model (mk_anec 8 8 1 8 1 1 tiles_demo nchw_demo) program.
Definition shaped_run : option (Z * ane_nn * device) :=
  ane_chan_init FIFO_NID device_ok (nn_zero model_shaped).
Definition shaped_nn : ane_nn :=
  match shaped_run with Some (_, nn, _) => nn | None => nn_zero model_shaped end.
Definition shaped_device : device :=
  match shaped_run with Some (_, _, d) => d | None => device_ok end.
Definition mapping_at (d : device) (a : Z) : mapping :=
  match mem d a with
  | Some m => m
  | None => mk_mapping 0 (fun _ => zero_byte)
  end.

(** A whole model file: a header of 16 bytes whose size field reads 2, and
    a payload of two bytes at offset [0x1000]. *)
Definition whole_file : file :=
  mk_file ([x02; x00; x00; x00; x00; x00; x00; x00;
            x10; x20; x30; x40; x50; x60; x70; x80]%byte
           ++ repeat x00%byte 4080 ++ [xab; xcd]%byte) true None.
Definition host_whole : host :=
  mk_host (fun p => if String.eqb p model_path then Some whole_file else None)
          [true; true].
Definition loaded_whole : raw_model :=
  match ane_model_init 16 le64 host_whole model_path with
  | Some (Some m, _) => m
  | _ => mk_raw [] []
  end.

(** A system with five accel nodes: another driver at 0, the accelerator at
    1 and at 5, a node without a version at 3; descriptor 2 is open on
    node 0. *)
Definition name_other : list byte := ["a"; "m"; "d"; "x"; "d"; "n"; "a"]%byte.
Definition sys_demo : sys :=
  mk_sys (fun i => match i with
                   | 0%nat => Driver name_other
                   | 1%nat => Driver name_ane
                   | 3%nat => NoVersion
                   | 5%nat => Driver (name_ane ++ [x00; "x"]%byte)
                   | _ => NoNode
                   end)
         [(2, 0%nat)] 3.

(** The descriptor of [Demo] with [2^32 - 1] destinations and two sources,
    on the device that grants, and a caller's buffer of one tile. *)
Definition model_wrap : ane_model :=
  mk_model (mk_anec 8 8 1 8 2 4294967295 tiles_demo []) program.
Definition wrap_run : option (Z * ane_nn * device) :=
  ane_chan_init FIFO_NID device_ok (nn_zero model_wrap).
Definition wrap_nn : ane_nn :=
  match wrap_run with Some (_, nn, _) => nn | None => nn_zero model_wrap end.
Definition wrap_device : device :=
  match wrap_run with Some (_, _, d) => d | None => device_ok end.
Definition tile_5a : buffer := repeat x5a%byte (Z.to_nat 16384).

End Samples.

(** * Proofs *)

(** ** Buffers, pointwise *)

Section BufferFacts.

Lemma memcpy_some dst doff src soff n :
  0 <= doff -> 0 <= soff -> 0 <= n ->
  soff + n <= len src -> doff + n <= len dst ->
  exists d, memcpy dst doff src soff n = Some d.
Proof.
  intros. unfold memcpy.
  replace (0 <=? doff) with true by (symmetry; apply Z.leb_le; lia).
  replace (0 <=? soff) with true by (symmetry; apply Z.leb_le; lia).
  replace (0 <=? n) with true by (symmetry; apply Z.leb_le; lia).
  replace (soff + n <=? len src) with true by (symmetry; apply Z.leb_le; lia).
  replace (doff + n <=? len dst) with true by (symmetry; apply Z.leb_le; lia).
  simpl. eauto.
Qed.

Lemma memcpy_inv dst doff src soff n d :
  memcpy dst doff src soff n = Some d ->
  (0 <= doff /\ 0 <= soff /\ 0 <= n /\ soff + n <= len src /\ doff + n <= len dst)
  /\ d = firstn (Z.to_nat doff) dst
         ++ firstn (Z.to_nat n) (skipn (Z.to_nat soff) src)
         ++ skipn (Z.to_nat (doff + n)) dst.
Proof.
  unfold memcpy. intros E.
  destruct (0 <=? doff) eqn:E1; simpl in E; try discriminate.
  destruct (0 <=? soff) eqn:E2; simpl in E; try discriminate.
  destruct (0 <=? n) eqn:E3; simpl in E; try discriminate.
  destruct (soff + n <=? len src) eqn:E4; simpl in E; try discriminate.
  destruct (doff + n <=? len dst) eqn:E5; simpl in E; try discriminate.
  apply Z.leb_le in E1, E2, E3, E4, E5.
  inversion E; subst. repeat split; assumption.
Qed.

Lemma memcpy_len dst doff src soff n d :
  memcpy dst doff src soff n = Some d -> len d = len dst.
Proof.
  intros E. apply memcpy_inv in E. destruct E as [(?&?&?&?&?) ->].
  unfold len in *. rewrite !length_app, !length_firstn, !length_skipn. lia.
Qed.

Lemma memcpy_inside dst doff src soff n d i :
  memcpy dst doff src soff n = Some d ->
  doff <= i < doff + n ->
  byte_at d i = byte_at src (soff + (i - doff)).
Proof.
  intros E Hi. apply memcpy_inv in E. destruct E as [(?&?&?&?&?) ->].
  unfold byte_at, len in *.
  rewrite app_nth2 by (rewrite length_firstn; lia).
  rewrite length_firstn.
  rewrite app_nth1 by (rewrite length_firstn, length_skipn; lia).
  rewrite nth_firstn.
  replace (Z.to_nat i - Nat.min (Z.to_nat doff) (length dst) <? Z.to_nat n)%nat
    with true by (symmetry; apply Nat.ltb_lt; lia).
  rewrite nth_skipn. f_equal. lia.
Qed.

Lemma memcpy_outside dst doff src soff n d i :
  memcpy dst doff src soff n = Some d ->
  0 <= i -> i < doff \/ doff + n <= i ->
  byte_at d i = byte_at dst i.
Proof.
  intros E Hi0 Hi. apply memcpy_inv in E. destruct E as [(?&?&?&?&?) ->].
  unfold byte_at, len in *. destruct Hi as [Hi | Hi].
  - rewrite app_nth1 by (rewrite length_firstn; lia).
    rewrite nth_firstn.
    replace (Z.to_nat i <? Z.to_nat doff)%nat
      with true by (symmetry; apply Nat.ltb_lt; lia).
    reflexivity.
  - rewrite app_nth2 by (rewrite length_firstn; lia).
    rewrite app_nth2 by (rewrite !length_firstn, length_skipn; lia).
    rewrite nth_skipn, !length_firstn, length_skipn. f_equal. lia.
Qed.

Lemma memset0_some dst n :
  0 <= n <= len dst -> exists d, memset0 dst n = Some d.
Proof.
  intros. unfold memset0.
  replace (0 <=? n) with true by (symmetry; apply Z.leb_le; lia).
  replace (n <=? len dst) with true by (symmetry; apply Z.leb_le; lia).
  simpl; eauto.
Qed.

Lemma memset0_inv dst n d :
  memset0 dst n = Some d ->
  0 <= n <= len dst
  /\ d = repeat zero_byte (Z.to_nat n) ++ skipn (Z.to_nat n) dst.
Proof.
  unfold memset0. intros E.
  destruct (0 <=? n) eqn:E1; simpl in E; try discriminate.
  destruct (n <=? len dst) eqn:E2; simpl in E; try discriminate.
  apply Z.leb_le in E1, E2. inversion E; subst. split; [lia | reflexivity].
Qed.

Lemma memset0_len dst n d : memset0 dst n = Some d -> len d = len dst.
Proof.
  intros E. apply memset0_inv in E. destruct E as [? ->].
  unfold len in *. rewrite length_app, repeat_length, length_skipn. lia.
Qed.

Lemma memset0_inside dst n d i :
  memset0 dst n = Some d -> 0 <= i < n -> byte_at d i = zero_byte.
Proof.
  intros E Hi. apply memset0_inv in E. destruct E as [? ->].
  unfold byte_at. rewrite app_nth1 by (rewrite repeat_length; lia).
  apply nth_repeat.
Qed.

Lemma memset0_outside dst n d i :
  memset0 dst n = Some d -> n <= i -> byte_at d i = byte_at dst i.
Proof.
  intros E Hi. apply memset0_inv in E. destruct E as [? ->].
  unfold byte_at. rewrite app_nth2 by (rewrite repeat_length; lia).
  rewrite nth_skipn, repeat_length. f_equal. lia.
Qed.

(** Two buffers of one length that agree at every offset are equal. *)
Lemma buffer_ext (a b : buffer) :
  len a = len b ->
  (forall i, 0 <= i < len a -> byte_at a i = byte_at b i) ->
  a = b.
Proof.
  unfold len, byte_at. intros Hl Hp.
  apply nth_ext with (d := zero_byte) (d' := zero_byte); [lia |].
  intros k Hk. specialize (Hp (Z.of_nat k)).
  rewrite Nat2Z.id in Hp. apply Hp. lia.
Qed.

End BufferFacts.

(** ** Loops *)

Section LoopFacts.

Context {S : Type}.

(** The invariant rule of a counted loop: the loop runs to its end and
    establishes the invariant at the bound. *)
Lemma for_from_inv (P : Z -> S -> Prop) (body : Z -> S -> option S) :
  forall (count : nat) (i : Z) (s : S),
    P i s ->
    (forall j t, i <= j < i + Z.of_nat count -> P j t ->
                 exists t', body j t = Some t' /\ P (j + 1) t') ->
    exists s', for_from count i body s = Some s' /\ P (i + Z.of_nat count) s'.
Proof.
  induction count as [| k IH]; intros i s HP Hstep.
  - exists s. simpl. rewrite Z.add_0_r. auto.
  - destruct (Hstep i s ltac:(lia) HP) as (t' & Hb & HP').
    cbn [for_from]. rewrite Hb.
    destruct (IH (i + 1) t' HP') as (s' & Hl & HPs).
    + intros j t Hj. apply Hstep. lia.
    + exists s'. split; [exact Hl |].
      replace (i + Z.of_nat (Datatypes.S k)) with (i + 1 + Z.of_nat k) by lia.
      exact HPs.
Qed.

Lemma for_u64_inv (P : Z -> S -> Prop) (body : Z -> S -> option S) bound s :
  0 <= bound ->
  P 0 s ->
  (forall j t, 0 <= j < bound -> P j t ->
               exists t', body j t = Some t' /\ P (j + 1) t') ->
  exists s', for_u64 bound body s = Some s' /\ P bound s'.
Proof.
  intros Hb HP Hstep. unfold for_u64.
  destruct (for_from_inv P body (Z.to_nat bound) 0 s HP) as (s' & Hl & HPs).
  - intros j t Hj. apply Hstep. lia.
  - exists s'. split; [exact Hl |].
    replace bound with (0 + Z.of_nat (Z.to_nat bound)) at 1 by lia. exact HPs.
Qed.

End LoopFacts.

(** ** Wrap-around *)

Section WrapFacts.

Lemma u64_small z : 0 <= z < 2 ^ 64 -> u64 z = z.
Proof. intros; unfold u64; apply Z.mod_small; assumption. Qed.

Lemma u64_mul_l a b : u64 (u64 a * b) = u64 (a * b).
Proof. unfold u64. apply Zmult_mod_idemp_l. Qed.

Lemma u64_mul_r a b : u64 (a * u64 b) = u64 (a * b).
Proof. unfold u64. apply Zmult_mod_idemp_r. Qed.

Lemma u64_add_l a b : u64 (u64 a + b) = u64 (a + b).
Proof. unfold u64. apply Zplus_mod_idemp_l. Qed.

Lemma u64_add_r a b : u64 (a + u64 b) = u64 (a + b).
Proof. unfold u64. apply Zplus_mod_idemp_r. Qed.

End WrapFacts.

(** ** Tiling *)

Section TilingFacts.

Import Tiling.

(** The offset of a row is the plain polynomial as soon as the block it
    indexes fits the address space. *)
Lemma row_offset_exact C rows cols n c h :
  0 <= ((n * C + c) * rows + h) * cols * 2 < 2 ^ 64 ->
  row_offset C rows cols n c h = ((n * C + c) * rows + h) * cols * 2.
Proof.
  intros Hb. unfold row_offset, sizeof_u16.
  (* inner wrap-arounds are absorbed by the outer ones, innermost first *)
  rewrite (u64_mul_l (C * rows) cols).
  rewrite (u64_mul_r n), (u64_mul_r c).
  rewrite (u64_add_l (n * _)), (u64_add_r (n * _)).
  rewrite (u64_add_l (_ + _) (u64 _)), (u64_add_r (_ + _) (h * _)).
  rewrite u64_mul_l.
  replace ((n * (C * rows * cols) + c * (rows * cols) + h * cols) * 2)
    with (((n * C + c) * rows + h) * cols * 2) by ring.
  apply u64_small; assumption.
Qed.

Variables N C H W P R : Z.
Hypothesis HN : is_u64 N.
Hypothesis HC : is_u64 C.
Hypothesis HH : is_u64 H.
Hypothesis HW : is_u64 W.
Hypothesis HP : is_u64 P.
Hypothesis HR : is_u64 R.
Hypothesis HR0 : R <> 0.

Let new_H := P / R.
Let new_W := R / 2.

Hypothesis HHle : H <= new_H.
Hypothesis HWle : W <= new_W.

Let tpos := tile_row_pos H new_H new_W.

Let rows := N * C * H.
Let tile_bytes := N * C * new_H * new_W * 2.

Hypothesis Hfit : tile_bytes < 2 ^ 64.

Local Set Default Proof Using "HN HC HH HW HP HR HR0 HHle HWle Hfit".

Lemma new_W_nonneg : 0 <= new_W.
Proof. subst new_W. apply Z.div_pos; unfold is_u64 in *; lia. Qed.

Lemma row_split k :
  0 <= k < rows -> 0 < H /\ 0 <= k / H < N * C /\ 0 <= k mod H < H.
Proof.
  intros Hk. subst rows. unfold is_u64 in *.
  assert (0 < H) by nia.
  split; [assumption |]. split.
  - split; [apply Z.div_pos; lia |].
    apply Z.div_lt_upper_bound; nia.
  - apply Z.mod_pos_bound; assumption.
Qed.

Lemma row_join n c h :
  0 <= n < N -> 0 <= c < C -> 0 <= h < H ->
  let k := (n * C + c) * H + h in
  0 <= k < rows /\ k / H = n * C + c /\ k mod H = h.
Proof.
  intros Hn Hc Hh k. subst k rows. split.
  { assert (0 <= n * C) by nia.
    assert (n * C + c + 1 <= N * C) by nia.
    remember (n * C + c) as p. remember (N * C) as q.
    assert ((p + 1) * H <= q * H) by nia.
    assert (0 <= p * H) by nia.
    lia. }
  split.
  - rewrite Z.div_add_l by lia. rewrite Z.div_small by lia. lia.
  - rewrite Z.add_comm, Z.mod_add by lia. apply Z.mod_small; lia.
Qed.

Lemma tpos_nonneg k : 0 <= k < rows -> 0 <= tpos k.
Proof.
  intros Hk. destruct (row_split k Hk) as (? & ? & ?).
  pose proof new_W_nonneg. unfold tpos, tile_row_pos. unfold is_u64 in *.
  assert (0 <= k / H * new_H) by (apply Z.mul_nonneg_nonneg; lia).
  apply Z.mul_nonneg_nonneg; [apply Z.mul_nonneg_nonneg |]; lia.
Qed.

Lemma tpos_bound k : 0 <= k < rows -> tpos k + new_W * 2 <= tile_bytes.
Proof.
  intros Hk. destruct (row_split k Hk) as (? & ? & ?).
  pose proof new_W_nonneg. unfold tpos, tile_row_pos. subst tile_bytes.
  assert (k / H * new_H + k mod H + 1 <= N * C * new_H) by nia.
  nia.
Qed.

Lemma tpos_mono r k :
  0 <= r < k -> k < rows -> tpos r + new_W * 2 <= tpos k.
Proof.
  intros Hr Hk.
  destruct (row_split k ltac:(lia)) as (HposH & Hkq & Hkm).
  destruct (row_split r ltac:(lia)) as (_ & Hrq & Hrm).
  pose proof new_W_nonneg. unfold tpos, tile_row_pos.
  assert (Hle : r / H <= k / H) by (apply Z.div_le_mono; lia).
  pose proof (Z.div_mod r H ltac:(lia)).
  pose proof (Z.div_mod k H ltac:(lia)).
  assert (r / H * new_H + r mod H + 1 <= k / H * new_H + k mod H).
  { destruct (Z.eq_dec (r / H) (k / H)) as [E | NE].
    - rewrite E in *. nia.
    - assert (r / H + 1 <= k / H) by lia. nia. }
  nia.
Qed.

Lemma dense_bytes_le : rows * (W * 2) <= tile_bytes.
Proof.
  pose proof new_W_nonneg. subst rows tile_bytes. unfold is_u64 in *.
  assert (0 <= N * C) by (apply Z.mul_nonneg_nonneg; lia).
  assert (N * C * H <= N * C * new_H)
    by (apply Z.mul_le_mono_nonneg_l; lia).
  assert (0 <= N * C * H) by (apply Z.mul_nonneg_nonneg; lia).
  replace (N * C * new_H * new_W * 2) with (N * C * new_H * (new_W * 2))
    by ring.
  apply Z.mul_le_mono_nonneg; lia.
Qed.

Lemma tile_offset n c h :
  0 <= n < N -> 0 <= c < C -> 0 <= h < H ->
  row_offset C new_H new_W n c h = tpos ((n * C + c) * H + h).
Proof.
  intros Hn Hc Hh.
  destruct (row_join n c h Hn Hc Hh) as (Hk & Hq & Hm).
  pose proof (tpos_bound _ Hk). pose proof (tpos_nonneg _ Hk).
  pose proof new_W_nonneg.
  unfold tpos, tile_row_pos in *. rewrite Hq, Hm in *.
  apply row_offset_exact. lia.
Qed.

Lemma dense_offset n c h :
  0 <= n < N -> 0 <= c < C -> 0 <= h < H ->
  row_offset C H W n c h = ((n * C + c) * H + h) * (W * 2).
Proof.
  intros Hn Hc Hh.
  destruct (row_join n c h Hn Hc Hh) as (Hk & Hq & Hm).
  pose proof dense_bytes_le. unfold is_u64 in *.
  rewrite row_offset_exact; [ring |].
  assert (((n * C + c) * H + h + 1) * (W * 2) <= rows * (W * 2)) by nia.
  nia.
Qed.

Lemma stride_exact : u64 (W * sizeof_u16) = W * 2.
Proof.
  unfold sizeof_u16. apply u64_small.
  pose proof (Z.mul_div_le R 2 ltac:(lia)). subst new_W.
  unfold is_u64 in *. lia.
Qed.

(** *** [ane_tile] *)

Variable X : buffer.
Hypothesis HX : len X = rows * (W * 2).

Let TInv := tiled_upto X H W new_H new_W.

Lemma tile_row_step L k t :
  tile_bytes <= L -> 0 <= k < rows -> TInv L k t ->
  exists t', memcpy t (tpos k) X (k * (W * 2)) (W * 2) = Some t'
             /\ TInv L (k + 1) t'.
Proof using HN HC HH HW HP HR HR0 HHle HWle Hfit X HX.
  intros HL Hk [Hlen Hrows].
  pose proof (tpos_nonneg k Hk). pose proof (tpos_bound k Hk).
  pose proof new_W_nonneg.
  assert (HW0 : 0 <= W) by (unfold is_u64 in *; lia).
  assert (Hsrc : (k + 1) * (W * 2) <= rows * (W * 2))
    by (apply Z.mul_le_mono_nonneg_r; lia).
  assert (Hk0 : 0 <= k * (W * 2)) by (apply Z.mul_nonneg_nonneg; lia).
  assert (Hex : exists t', memcpy t (tpos k) X (k * (W * 2)) (W * 2) = Some t')
    by (apply memcpy_some; lia).
  destruct Hex as [t' Ht'].
  exists t'. split; [exact Ht' |]. split.
  - rewrite (memcpy_len _ _ _ _ _ _ Ht'). exact Hlen.
  - intros r w Hr Hw.
    change (tile_row_pos H new_H new_W) with tpos in Hrows |- *.
    destruct (Z.eq_dec r k) as [-> | Hne].
    + rewrite (memcpy_inside _ _ _ _ _ _ (tpos k + w) Ht') by lia.
      f_equal. lia.
    + assert (Hrk : 0 <= r < k) by lia.
      pose proof (tpos_mono r k Hrk ltac:(lia)).
      pose proof (tpos_nonneg r ltac:(lia)).
      rewrite (memcpy_outside _ _ _ _ _ _ (tpos r + w) Ht') by lia.
      apply Hrows; assumption.
Qed.

Lemma tile_rows_run L t0 :
  tile_bytes <= L -> len t0 = L ->
  exists t,
    for_u64 N (fun n tile =>
      for_u64 C (fun c tile =>
        for_u64 H (fun h tile =>
          memcpy tile (row_offset C new_H new_W n c h)
                 X (row_offset C H W n c h) (u64 (W * sizeof_u16)))
          tile) tile) t0 = Some t
    /\ TInv L rows t.
Proof using HN HC HH HW HP HR HR0 HHle HWle Hfit X HX.
  intros HL Hlen. rewrite stride_exact.
  destruct (for_u64_inv (fun n t => TInv L (n * C * H) t)) with
    (bound := N) (s := t0)
    (body := fun n tile =>
      for_u64 C (fun c tile =>
        for_u64 H (fun h tile =>
          memcpy tile (row_offset C new_H new_W n c h)
                 X (row_offset C H W n c h) (W * 2)) tile) tile)
    as (t & Hrun & Hinv).
  - unfold is_u64 in *; lia.
  - split; [exact Hlen |]. intros r w Hr. lia.
  - intros n t Hn Hinv.
    destruct (for_u64_inv (fun c t => TInv L ((n * C + c) * H) t)) with
      (bound := C) (s := t)
      (body := fun c tile =>
        for_u64 H (fun h tile =>
          memcpy tile (row_offset C new_H new_W n c h)
                 X (row_offset C H W n c h) (W * 2)) tile)
      as (t1 & Hrun1 & Hinv1).
    + unfold is_u64 in *; lia.
    + replace ((n * C + 0) * H) with (n * C * H) by ring. exact Hinv.
    + intros c t1 Hc Hinv1.
      destruct (for_u64_inv (fun h t => TInv L ((n * C + c) * H + h) t)) with
        (bound := H) (s := t1)
        (body := fun h tile =>
          memcpy tile (row_offset C new_H new_W n c h)
                 X (row_offset C H W n c h) (W * 2))
        as (t2 & Hrun2 & Hinv2).
      * unfold is_u64 in *; lia.
      * rewrite Z.add_0_r. exact Hinv1.
      * intros h t2 Hh Hinv2.
        rewrite tile_offset, dense_offset by assumption.
        destruct (row_join n c h Hn Hc Hh) as (Hk & _ & _).
        destruct (tile_row_step L _ t2 HL Hk Hinv2) as (t3 & E & I).
        exists t3. split; [exact E |].
        replace ((n * C + c) * H + (h + 1)) with ((n * C + c) * H + h + 1)
          by ring.
        exact I.
      * exists t2. split; [exact Hrun2 |].
        replace ((n * C + (c + 1)) * H) with ((n * C + c) * H + H) by ring.
        exact Hinv2.
    + exists t1. split; [exact Hrun1 |].
      replace ((n + 1) * C * H) with ((n * C + C) * H) by ring.
      exact Hinv1.
  - exists t. split; [exact Hrun | exact Hinv].
Qed.

(** *** [ane_untile] *)

Variables T d0 : buffer.
Let total := rows * (W * 2).
Hypothesis HT : tile_bytes <= len T.
Hypothesis Hd0 : total <= len d0.

Let UInv := untiled_upto T d0 H W new_H new_W total.

Lemma memset_size_exact :
  u64 (u64 (u64 (u64 (N * C) * H) * W) * sizeof_u16) = total.
Proof using HN HC HH HW HP HR HR0 HHle HWle Hfit.
  unfold sizeof_u16.
  rewrite (u64_mul_l (N * C) H), (u64_mul_l (N * C * H) W), u64_mul_l.
  pose proof dense_bytes_le.
  assert (0 <= N * C) by (unfold is_u64 in *; apply Z.mul_nonneg_nonneg; lia).
  assert (0 <= rows)
    by (unfold rows, is_u64 in *; apply Z.mul_nonneg_nonneg; lia).
  assert (0 <= rows * (W * 2))
    by (unfold is_u64 in *; apply Z.mul_nonneg_nonneg; lia).
  replace (N * C * H * W * 2) with (rows * (W * 2)) by (unfold rows; ring).
  apply u64_small. lia.
Qed.

Lemma untile_row_step k d :
  0 <= k < rows -> UInv k d ->
  exists d', memcpy d (k * (W * 2)) T (tpos k) (W * 2) = Some d'
             /\ UInv (k + 1) d'.
Proof using HN HC HH HW HP HR HR0 HHle HWle Hfit HT Hd0.
  intros Hk (Hlen & Hrows & Hzero & Hrest).
  pose proof (tpos_nonneg k Hk). pose proof (tpos_bound k Hk).
  pose proof new_W_nonneg.
  assert (HW0 : 0 <= W) by (unfold is_u64 in *; lia).
  assert (Hdst : (k + 1) * (W * 2) <= total)
    by (apply Z.mul_le_mono_nonneg_r; lia).
  assert (Hk0 : 0 <= k * (W * 2)) by (apply Z.mul_nonneg_nonneg; lia).
  assert (Hex : exists d', memcpy d (k * (W * 2)) T (tpos k) (W * 2) = Some d')
    by (apply memcpy_some; lia).
  destruct Hex as [d' Hd'].
  exists d'. split; [exact Hd' |]. split; [| split; [| split]].
  - rewrite (memcpy_len _ _ _ _ _ _ Hd'). exact Hlen.
  - intros r w Hr Hw.
    change (tile_row_pos H new_H new_W) with tpos in Hrows |- *.
    destruct (Z.eq_dec r k) as [-> | Hne].
    + rewrite (memcpy_inside _ _ _ _ _ _ (k * (W * 2) + w) Hd') by lia.
      f_equal. lia.
    + assert (Hrk : 0 <= r < k) by lia.
      assert ((r + 1) * (W * 2) <= k * (W * 2))
        by (apply Z.mul_le_mono_nonneg_r; lia).
      assert (0 <= r * (W * 2)) by (apply Z.mul_nonneg_nonneg; lia).
      rewrite (memcpy_outside _ _ _ _ _ _ (r * (W * 2) + w) Hd') by lia.
      apply Hrows; assumption.
  - intros i Hi.
    rewrite (memcpy_outside _ _ _ _ _ _ i Hd') by lia.
    apply Hzero. lia.
  - intros i Hi.
    rewrite (memcpy_outside _ _ _ _ _ _ i Hd') by lia.
    apply Hrest. exact Hi.
Qed.

Lemma untile_rows_run z :
  UInv 0 z ->
  exists d,
    untile_rows z T N C H W new_H new_W (u64 (W * sizeof_u16)) = Some d
    /\ UInv rows d.
Proof using HN HC HH HW HP HR HR0 HHle HWle Hfit HT Hd0.
  intros Hz. rewrite stride_exact. unfold untile_rows.
  destruct (for_u64_inv (fun n d => UInv (n * C * H) d)) with
    (bound := N) (s := z)
    (body := fun n data =>
      for_u64 C (fun c data =>
        for_u64 H (fun h data =>
          memcpy data (row_offset C H W n c h)
                 T (row_offset C new_H new_W n c h) (W * 2)) data) data)
    as (d & Hrun & Hinv).
  - unfold is_u64 in *; lia.
  - exact Hz.
  - intros n d Hn Hinv.
    destruct (for_u64_inv (fun c d => UInv ((n * C + c) * H) d)) with
      (bound := C) (s := d)
      (body := fun c data =>
        for_u64 H (fun h data =>
          memcpy data (row_offset C H W n c h)
                 T (row_offset C new_H new_W n c h) (W * 2)) data)
      as (d1 & Hrun1 & Hinv1).
    + unfold is_u64 in *; lia.
    + replace ((n * C + 0) * H) with (n * C * H) by ring. exact Hinv.
    + intros c d1 Hc Hinv1.
      destruct (for_u64_inv (fun h d => UInv ((n * C + c) * H + h) d)) with
        (bound := H) (s := d1)
        (body := fun h data =>
          memcpy data (row_offset C H W n c h)
                 T (row_offset C new_H new_W n c h) (W * 2))
        as (d2 & Hrun2 & Hinv2).
      * unfold is_u64 in *; lia.
      * rewrite Z.add_0_r. exact Hinv1.
      * intros h d2 Hh Hinv2.
        rewrite tile_offset, dense_offset by assumption.
        destruct (row_join n c h Hn Hc Hh) as (Hk & _ & _).
        destruct (untile_row_step _ d2 Hk Hinv2) as (d3 & E & I).
        exists d3. split; [exact E |].
        replace ((n * C + c) * H + (h + 1)) with ((n * C + c) * H + h + 1)
          by ring.
        exact I.
      * exists d2. split; [exact Hrun2 |].
        replace ((n * C + (c + 1)) * H) with ((n * C + c) * H + H) by ring.
        exact Hinv2.
    + exists d1. split; [exact Hrun1 |].
      replace ((n + 1) * C * H) with ((n * C + C) * H) by ring.
      exact Hinv1.
  - exists d. split; [exact Hrun | exact Hinv].
Qed.

(** What [ane_untile] computes: it returns, its result has the length of the
    destination, row [r] of the result is row [r] of the tile, and the bytes
    after the tensor are those of the destination. *)
Lemma ane_untile_run :
  exists d, ane_untile d0 T N C H W P R = Some d /\ UInv rows d.
Proof using HN HC HH HW HP HR HR0 HHle HWle Hfit HT Hd0.
  unfold ane_untile.
  destruct (R =? 0) eqn:ER; [apply Z.eqb_eq in ER; contradiction |].
  rewrite memset_size_exact.
  assert (H0 : 0 <= total).
  { unfold total, rows, is_u64 in *.
    repeat apply Z.mul_nonneg_nonneg; lia. }
  destruct (memset0_some d0 total ltac:(lia)) as [z Hz]. rewrite Hz.
  apply untile_rows_run. split; [| split; [| split]].
  - apply (memset0_len _ _ _ Hz).
  - intros r w Hr. lia.
  - intros i Hi. apply (memset0_inside _ _ _ _ Hz). lia.
  - intros i Hi. apply (memset0_outside _ _ _ _ Hz). exact Hi.
Qed.

(** Every byte offset of the dense tensor lies in exactly one row copy. *)
Lemma dense_split i :
  0 <= i < total ->
  exists r w, 0 <= r < rows /\ 0 <= w < W * 2 /\ i = r * (W * 2) + w.
Proof using HN HC HH HW HP HR HR0 HHle HWle Hfit.
  intros Hi.
  assert (HW0 : 0 <= W) by (unfold is_u64 in *; lia).
  assert (Hr0 : 0 <= rows).
  { unfold rows, is_u64 in *. repeat apply Z.mul_nonneg_nonneg; lia. }
  assert (HWpos : 0 < W * 2).
  { destruct (Z.eq_dec W 0) as [E | NE]; [| lia].
    unfold total in Hi. rewrite E in Hi. lia. }
  exists (i / (W * 2)), (i mod (W * 2)).
  pose proof (Z.div_mod i (W * 2) ltac:(lia)).
  pose proof (Z.mod_pos_bound i (W * 2) HWpos).
  split; [| split; [assumption | lia]].
  split; [apply Z.div_pos; lia |].
  apply Z.div_lt_upper_bound; [assumption |].
  unfold total in Hi. lia.
Qed.

End TilingFacts.

(** ** The tiling claims *)

Section TilingClaims.

Import Tiling.

(** C1.  For every shape [(N, C, H, W, P, R)] with [R] a non-zero multiple
    of the element size, [P] a non-zero multiple of [R], [H <= P / R] and
    [W <= R / 2], and every dense tensor [X] of that shape: [ane_tile] of
    [X] into a tile buffer that holds the padded tensor returns a tile [t],
    and [ane_untile] of [t] into any destination of the size of [X] returns
    exactly [X]. *)
Theorem tile_untile_roundtrip (N C H W P R : Z) (X tile out : buffer) :
  is_u64 N -> is_u64 C -> is_u64 H -> is_u64 W -> is_u64 P -> is_u64 R ->
  R <> 0 -> R mod sizeof_u16 = 0 ->
  P <> 0 -> P mod R = 0 ->
  H <= P / R -> W <= R / sizeof_u16 ->
  len X = N * C * H * W * sizeof_u16 ->
  len out = len X ->
  N * C * (P / R) * (R / sizeof_u16) * sizeof_u16 <= len tile < 2 ^ 64 ->
  exists t,
    ane_tile X tile N C H W P R = Some t
    /\ ane_untile out t N C H W P R = Some X.
Proof.
  unfold sizeof_u16.
  intros HN HC HH HW HP HR HR0 _ _ _ HHle HWle HX Hout [Htile Hfit].
  assert (HX' : len X = N * C * H * (W * 2)) by (rewrite HX; ring).
  destruct (tile_rows_run N C H W P R HN HC HH HW HP HR HR0 HHle HWle
              ltac:(lia) X HX' (len tile) tile Htile eq_refl)
    as (t & Ht & Hlen & Hrows).
  exists t. split.
  { unfold ane_tile.
    destruct (R =? 0) eqn:ER; [apply Z.eqb_eq in ER; contradiction |].
    exact Ht. }
  destruct (ane_untile_run N C H W P R HN HC HH HW HP HR HR0 HHle HWle
              ltac:(lia) t out ltac:(lia) ltac:(lia))
    as (d & Hd & Hdl & Hdrows & _ & _).
  rewrite Hd. f_equal. apply buffer_ext; [lia |].
  intros i Hi.
  destruct (dense_split N C H W P R HN HC HH HW HP HR HR0 HHle HWle
              ltac:(lia) i ltac:(lia))
    as (r & w & Hr & Hw & ->).
  rewrite Hdrows by assumption. apply Hrows; assumption.
Qed.

(** C9.  [ane_untile] first clears the [N * C * H * W] elements of the
    destination and then runs the row copies on the cleared buffer.  Every
    byte of the dense result is the byte [w < W * 2] of a row [h < H] of a
    plane [(n, c)] of the tile, taken at the padded strides: no byte of the
    tile beyond row byte [W * 2] or beyond row [H] reaches the result.  The
    destination keeps its length and its bytes after the tensor. *)
Theorem untile_no_padding_leak (N C H W P R : Z) (T d0 : buffer) :
  is_u64 N -> is_u64 C -> is_u64 H -> is_u64 W -> is_u64 P -> is_u64 R ->
  R <> 0 ->
  H <= P / R -> W <= R / sizeof_u16 ->
  N * C * (P / R) * (R / sizeof_u16) * sizeof_u16 <= len T < 2 ^ 64 ->
  N * C * H * W * sizeof_u16 <= len d0 ->
  exists z d,
    memset0 d0 (N * C * H * W * sizeof_u16) = Some z
    /\ (forall i, 0 <= i < N * C * H * W * sizeof_u16 ->
                  byte_at z i = zero_byte)
    /\ untile_rows z T N C H W (P / R) (R / sizeof_u16) (W * sizeof_u16)
       = Some d
    /\ ane_untile d0 T N C H W P R = Some d
    /\ len d = len d0
    /\ (forall i, 0 <= i < N * C * H * W * sizeof_u16 ->
         exists n c h w,
           0 <= n < N /\ 0 <= c < C /\ 0 <= h < H
           /\ 0 <= w < W * sizeof_u16
           /\ i = ((n * C + c) * H + h) * (W * sizeof_u16) + w
           /\ byte_at d i
              = byte_at T (((n * C + c) * (P / R) + h) * (R / sizeof_u16)
                           * sizeof_u16 + w))
    /\ (forall i, N * C * H * W * sizeof_u16 <= i ->
                  byte_at d i = byte_at d0 i).
Proof.
  unfold sizeof_u16.
  intros HN HC HH HW HP HR HR0 HHle HWle [HT Hfit] Hd0.
  assert (Etot : N * C * H * W * 2 = N * C * H * (W * 2)) by ring.
  destruct (ane_untile_run N C H W P R HN HC HH HW HP HR HR0 HHle HWle
              ltac:(lia) T d0 HT ltac:(lia))
    as (d & Hd & Hdl & Hdrows & _ & Hrest).
  pose proof Hd as Hd'. unfold ane_untile in Hd'.
  destruct (R =? 0) eqn:ER; [discriminate |].
  rewrite (memset_size_exact N C H W P R) in Hd' by (assumption || lia).
  rewrite <- Etot in Hd'.
  destruct (memset0 d0 (N * C * H * W * 2)) as [z |] eqn:Hz; [| discriminate].
  rewrite (stride_exact N C H W P R) in Hd' by (assumption || lia).
  exists z, d. split; [reflexivity |]. split.
  { intros i Hi. apply (memset0_inside _ _ _ _ Hz). exact Hi. }
  split; [exact Hd' |]. split; [exact Hd |]. split; [exact Hdl |]. split.
  - intros i Hi.
    destruct (dense_split N C H W P R HN HC HH HW HP HR HR0 HHle HWle
                ltac:(lia) i ltac:(lia))
      as (r & w & Hr & Hw & ->).
    destruct (row_split N C H W P R HN HC HH HW HP HR HR0 HHle HWle
                ltac:(lia) r Hr) as (HposH & Hq & Hm).
    assert (HposC : 0 < C) by (unfold is_u64 in *; nia).
    exists (r / H / C), (r / H mod C), (r mod H), w.
    pose proof (Z.div_mod (r / H) C ltac:(lia)).
    pose proof (Z.div_mod r H ltac:(lia)).
    pose proof (Z.mod_pos_bound (r / H) C HposC).
    assert (r / H / C * C + r / H mod C = r / H) by lia.
    split.
    { split; [apply Z.div_pos; lia |].
      apply Z.div_lt_upper_bound; [assumption | lia]. }
    split; [assumption |]. split; [assumption |]. split; [assumption |].
    split.
    { f_equal. replace (r / H / C * C + r / H mod C) with (r / H) by lia.
      lia. }
    rewrite (Hdrows r w Hr Hw). unfold tile_row_pos.
    replace (r / H / C * C + r / H mod C) with (r / H) by lia.
    reflexivity.
  - intros i Hi. apply Hrest. lia.
Qed.

End TilingClaims.

(** ** The buffer-object manager *)

Section BoFacts.

Lemma set_map_same bo : set_map bo (map bo) = bo.
Proof. destruct bo; reflexivity. Qed.

(** The three ways [ane_bo_init] ends. *)
Lemma ane_bo_init_cases ane bo err bo' ane' :
  ane_bo_init ane bo = (err, bo', ane') ->
  size bo' = size bo /\
  ((err = 0 /\ map bo' <> NULL
    /\ trace ane' = trace ane ++ acquire_events bo')
   \/ (err < 0 /\ (map bo' = map bo \/ map bo' = NULL)
       /\ (size bo <> 0 -> handle bo' = 0 /\ offset bo' = 0)
       /\ (forall a, mem ane' a = mem ane a)
       /\ exists evs, failed_attempt (size bo) evs
                      /\ trace ane' = trace ane ++ evs)).
Proof.
  unfold ane_bo_init. destruct (size bo =? 0) eqn:Esz.
  { intros E; inversion E; subst. split; [reflexivity |]. right.
    apply Z.eqb_eq in Esz.
    split; [unfold EINVAL; lia |]. split; [left; reflexivity |].
    split; [intros; contradiction |]. split; [reflexivity |].
    exists []. split; [left; auto | rewrite app_nil_r; reflexivity]. }
  unfold bo_init, ioctl_bo_init.
  destruct (bo_init_script ane) as [| [[h off] |] rest] eqn:Escript;
    cbn [fst snd tl].
  - (* script exhausted: the allocation is refused *)
    cbn. intros E; inversion E; subst; cbn. split; [reflexivity |]. right.
    split; [lia |]. split; [left; reflexivity |]. split; [auto |].
    split; [reflexivity |].
    exists [BoInit (size bo) None]. split; [right; left; reflexivity |].
    reflexivity.
  - (* allocated *)
    cbn. unfold bo_mmap, sys_mmap; cbn.
    destruct (mmap_script ane) as [| [p |] mrest] eqn:Emap; cbn.
    + intros E; inversion E; subst; cbn. split; [reflexivity |]. right.
      split; [unfold EINVAL; lia |]. split; [right; reflexivity |]. split; [auto |].
      split; [reflexivity |].
      exists [BoInit (size bo) (Some (h, off)); Mmap (size bo) off None;
              BoFree h].
      split; [right; right; eauto |].
      rewrite <- !app_assoc. reflexivity.
    + intros E; inversion E; subst; cbn. split; [reflexivity |]. left.
      split; [reflexivity |]. split; [unfold NULL; lia |].
      unfold acquire_events; cbn. rewrite <- !app_assoc. reflexivity.
    + intros E; inversion E; subst; cbn. split; [reflexivity |]. right.
      split; [unfold EINVAL; lia |]. split; [right; reflexivity |]. split; [auto |].
      split; [reflexivity |].
      exists [BoInit (size bo) (Some (h, off)); Mmap (size bo) off None;
              BoFree h].
      split; [right; right; eauto |].
      rewrite <- !app_assoc. reflexivity.
  - (* the allocation is refused *)
    cbn. intros E; inversion E; subst; cbn. split; [reflexivity |]. right.
    split; [lia |]. split; [left; reflexivity |]. split; [auto |].
    split; [reflexivity |].
    exists [BoInit (size bo) None]. split; [right; left; reflexivity |].
    reflexivity.
Qed.

Lemma ane_bo_free_spec ane bo :
  ane_bo_free ane bo
  = (set_map bo NULL,
     if map bo =? NULL then ane
     else mk_device (bo_init_script ane) (mmap_script ane)
                    (mem_set (mem ane) (map bo) None)
                    (trace ane ++ release_events bo)).
Proof.
  unfold ane_bo_free, release_events.
  destruct (map bo =? NULL); [reflexivity |].
  unfold bo_free, ioctl_bo_free, sys_munmap, log; cbn.
  rewrite <- app_assoc. reflexivity.
Qed.

Lemma ane_bo_free_trace ane bo :
  trace (snd (ane_bo_free ane bo)) = trace ane ++ release_events bo.
Proof.
  rewrite ane_bo_free_spec. unfold release_events.
  destruct (map bo =? NULL); cbn; [rewrite app_nil_r |]; reflexivity.
Qed.

End BoFacts.

Section BoClaims.

(** C8.  When the allocation of a buffer object succeeds and its mapping
    fails, [ane_bo_init] frees the allocation (with the handle the device
    gave), returns [-EINVAL], and leaves the object with handle 0, offset 0
    and no mapping; the memory of the device is as before.  A request of
    size zero returns [-EINVAL] and makes no request of the device. *)
Theorem bo_init_map_failure_frees (ane : device) (bo : ane_bo) :
  (size bo <> 0 ->
   forall e1 bo1 ane1 e2 bo2 ane2,
     bo_init ane bo = (e1, bo1, ane1) -> 0 <= e1 ->
     bo_mmap ane1 bo1 = (e2, bo2, ane2) -> e2 < 0 ->
     exists bo' ane',
       ane_bo_init ane bo = (- EINVAL, bo', ane')
       /\ handle bo' = 0 /\ offset bo' = 0 /\ map bo' = NULL
       /\ trace ane'
          = trace ane ++ [BoInit (size bo) (Some (handle bo1, offset bo1));
                          Mmap (size bo) (offset bo1) None;
                          BoFree (handle bo1)]
       /\ (forall a, mem ane' a = mem ane a))
  /\ (size bo = 0 -> ane_bo_init ane bo = (- EINVAL, bo, ane)).
Proof.
  split.
  - intros Hsz e1 bo1 ane1 e2 bo2 ane2 E1 He1 E2 He2.
    apply Z.eqb_neq in Hsz.
    unfold ane_bo_init. rewrite Hsz, E1.
    replace (e1 <? 0) with false by (symmetry; apply Z.ltb_ge; lia).
    rewrite E2.
    replace (e2 <? 0) with true by (symmetry; apply Z.ltb_lt; lia).
    unfold bo_init, ioctl_bo_init in E1.
    destruct (bo_init_script ane) as [| [[h off] |] rest] eqn:Escript;
      cbn in E1; inversion E1; subst; try lia.
    unfold bo_mmap, sys_mmap in E2. cbn in E2.
    destruct (mmap_script ane) as [| [p |] mrest] eqn:Emap;
      cbn in E2; inversion E2; subst; try lia; cbn;
      (eexists; eexists; split; [reflexivity |]; cbn;
       repeat split; rewrite <- !app_assoc; reflexivity).
  - intros Hsz. unfold ane_bo_init. rewrite Hsz. reflexivity.
Qed.

(** C6, as the code has it.  [ane_bo_free] on a mapped buffer object unmaps
    it and then frees the device-side allocation; on a buffer object with no
    mapping it makes no request of the device at all, whatever its handle;
    in every case it leaves the object unmapped, and a second release
    changes nothing. *)
Theorem bo_free_releases_mapped_only (ane : device) (bo : ane_bo) :
  (map bo <> NULL ->
   exists ane',
     ane_bo_free ane bo = (set_map bo NULL, ane')
     /\ trace ane' = trace ane ++ [Munmap (map bo) (size bo);
                                   BoFree (handle bo)]
     /\ mem ane' (map bo) = None)
  /\ (map bo = NULL -> ane_bo_free ane bo = (bo, ane))
  /\ (let r := ane_bo_free ane bo in ane_bo_free (snd r) (fst r) = r).
Proof.
  rewrite ane_bo_free_spec. split; [| split].
  - intros Hm. apply Z.eqb_neq in Hm. rewrite Hm.
    eexists. split; [reflexivity |]. cbn. unfold release_events.
    rewrite Hm. split; [reflexivity |].
    unfold mem_set. rewrite Z.eqb_refl. reflexivity.
  - intros Hm. rewrite Hm. cbn. rewrite <- Hm. rewrite set_map_same.
    reflexivity.
  - cbn. rewrite ane_bo_free_spec. cbn.
    destruct (map bo =? NULL); reflexivity.
Qed.

End BoClaims.

(** ** The channel set *)

Section ChanFacts.

Lemma nth_app_len {A} (l1 : list A) x t d : nth (length l1) (l1 ++ x :: t) d = x.
Proof. rewrite app_nth2 by lia. rewrite Nat.sub_diag. reflexivity. Qed.

Lemma upd_app_len {A} (l1 : list A) x y t :
  upd (length l1) y (l1 ++ x :: t) = l1 ++ y :: t.
Proof. induction l1 as [| h l1 IH]; cbn; [| rewrite IH]; reflexivity. Qed.

Lemma app_cons_assoc {A} (l1 : list A) x t : l1 ++ x :: t = (l1 ++ [x]) ++ t.
Proof. rewrite <- app_assoc. reflexivity. Qed.

Lemma length_snoc {A} (l1 : list A) x : length (l1 ++ [x]) = Datatypes.S (length l1).
Proof. rewrite length_app. cbn. lia. Qed.

Lemma release_unmapped l : Forall unmapped l -> flat_map release_events l = [].
Proof.
  induction 1 as [| bo l Hbo _ IH]; cbn; [reflexivity |].
  unfold release_events at 1. rewrite Hbo, IH. reflexivity.
Qed.

(** [free_chans] releases the buffer objects it walks, in order. *)
Lemma free_chans_app :
  forall l2 l1 ane,
  exists ane',
    free_chans (length l2) (length l1) ane (l1 ++ l2)
    = (l1 ++ List.map (fun bo => set_map bo NULL) l2, ane')
    /\ trace ane' = trace ane ++ flat_map release_events l2.
Proof.
  induction l2 as [| x t IH]; intros l1 ane.
  - exists ane. cbn. rewrite !app_nil_r. auto.
  - cbn [length free_chans]. rewrite nth_app_len.
    pose proof (ane_bo_free_trace ane x) as Ht.
    rewrite ane_bo_free_spec in Ht |- *. cbn [snd] in Ht. cbv beta iota.
    rewrite upd_app_len, (app_cons_assoc l1 (set_map x NULL) t).
    rewrite <- (length_snoc l1 (set_map x NULL)).
    match goal with
    | |- context [free_chans _ _ ?d _] =>
        destruct (IH (l1 ++ [set_map x NULL]) d) as (ane' & Hrun & Htr)
    end.
    exists ane'. split.
    + rewrite Hrun. rewrite <- app_assoc. reflexivity.
    + rewrite Htr, Ht. cbn [flat_map]. rewrite app_assoc. reflexivity.
Qed.

Lemma init_chans_app (a : anec_t) :
  forall l2 l1 ane err cs' ane',
    Forall unmapped l2 ->
    init_chans (length l2) (length l1) a ane (l1 ++ l2) = (err, cs', ane') ->
    (err = 0 /\
     exists l2',
       cs' = l1 ++ l2' /\ length l2' = length l2
       /\ trace ane' = trace ane ++ flat_map acquire_events l2'
       /\ (forall j, (j < length l2)%nat ->
             chan_ok a (length l1 + j) (nth j l2' zero_bo) (nth j l2 zero_bo)))
    \/
    (err < 0 /\
     exists l2a bo l2b evs,
       cs' = l1 ++ l2a ++ bo :: l2b
       /\ length (l2a ++ bo :: l2b) = length l2
       /\ Forall unmapped (bo :: l2b)
       /\ tile_of a (length l1 + length l2a) <> 0
       /\ failed_attempt (tile_shift (tile_of a (length l1 + length l2a))) evs
       /\ trace ane' = trace ane ++ flat_map acquire_events l2a ++ evs
       /\ (forall j, (j < length l2a)%nat ->
             chan_ok a (length l1 + j) (nth j l2a zero_bo) (nth j l2 zero_bo))).
Proof.
  induction l2 as [| x t IH]; intros l1 ane err cs' ane' Hun Hrun.
  - cbn in Hrun. inversion Hrun; subst. left. split; [reflexivity |].
    exists []. cbn. rewrite !app_nil_r.
    repeat split; try reflexivity. intros j Hj. lia.
  - inversion Hun as [| ? ? Hx Ht]; subst.
    cbn [length init_chans] in Hrun. rewrite nth_app_len in Hrun.
    destruct (tile_of a (length l1) =? 0) eqn:Etile.
    + (* absent channel *)
      rewrite app_cons_assoc, <- (length_snoc l1 x) in Hrun.
      destruct (IH _ _ _ _ _ Ht Hrun) as
        [(He & l2' & Hcs & Hlen & Htr & Hok)
        | (He & l2a & bo & l2b & evs & Hcs & Hlen & Hun' & Hp & Hf & Htr & Hok)].
      * left. split; [exact He |]. exists (x :: l2').
        split; [rewrite Hcs, <- app_assoc; reflexivity |].
        split; [cbn; lia |]. split.
        { cbn [flat_map]. unfold acquire_events at 1. rewrite Hx. exact Htr. }
        intros [| j] Hj; cbn [nth].
        { unfold chan_ok. rewrite Nat.add_0_r, Etile. reflexivity. }
        specialize (Hok j ltac:(cbn in Hj; lia)).
        rewrite length_snoc in Hok.
        replace (length l1 + Datatypes.S j)%nat
          with (Datatypes.S (length l1) + j)%nat by lia.
        exact Hok.
      * right. split; [exact He |]. exists (x :: l2a), bo, l2b, evs.
        rewrite length_snoc in Hp, Hf, Hok.
        split; [rewrite Hcs, <- app_assoc; reflexivity |].
        split; [cbn in *; lia |]. split; [exact Hun' |].
        cbn [length].
        replace (length l1 + Datatypes.S (length l2a))%nat
          with (Datatypes.S (length l1) + length l2a)%nat by lia.
        split; [exact Hp |]. split; [exact Hf |]. split.
        { cbn [flat_map]. unfold acquire_events at 1. rewrite Hx. exact Htr. }
        intros [| j] Hj; cbn [nth].
        { unfold chan_ok. rewrite Nat.add_0_r, Etile. reflexivity. }
        specialize (Hok j ltac:(lia)).
        replace (length l1 + Datatypes.S j)%nat
          with (Datatypes.S (length l1) + j)%nat by lia.
        exact Hok.
    + (* present channel *)
      apply Z.eqb_neq in Etile.
      destruct (ane_bo_init ane (set_size x (tile_shift (tile_of a (length l1)))))
        as [[e bo'] ane1] eqn:Einit.
      rewrite upd_app_len in Hrun.
      destruct (ane_bo_init_cases _ _ _ _ _ Einit) as
        [Hsz [(He & Hmap & Htr1)
             | (He & Hmap & _ & _ & evs & Hf & Htr1)]];
        cbn [size set_size map] in *.
      * (* initialised *)
        subst e. cbn [Z.ltb Z.compare] in Hrun.
        rewrite app_cons_assoc, <- (length_snoc l1 bo') in Hrun.
        destruct (IH _ _ _ _ _ Ht Hrun) as
          [(He & l2' & Hcs & Hlen & Htr & Hok)
          | (He & l2a & bo & l2b & evs & Hcs & Hlen & Hun' & Hp & Hf & Htr
             & Hok)].
        -- left. split; [exact He |]. exists (bo' :: l2').
           split; [rewrite Hcs, <- app_assoc; reflexivity |].
           split; [cbn; lia |]. split.
           { cbn [flat_map]. rewrite Htr, Htr1, <- app_assoc. reflexivity. }
           intros [| j] Hj; cbn [nth].
           { unfold chan_ok. rewrite Nat.add_0_r.
             apply Z.eqb_neq in Etile. rewrite Etile. auto. }
           specialize (Hok j ltac:(cbn in Hj; lia)).
           rewrite length_snoc in Hok.
           replace (length l1 + Datatypes.S j)%nat
             with (Datatypes.S (length l1) + j)%nat by lia.
           exact Hok.
        -- right. split; [exact He |]. exists (bo' :: l2a), bo, l2b, evs.
           rewrite length_snoc in Hp, Hf, Hok.
           split; [rewrite Hcs, <- app_assoc; reflexivity |].
           split; [cbn in *; lia |]. split; [exact Hun' |].
           cbn [length].
           replace (length l1 + Datatypes.S (length l2a))%nat
             with (Datatypes.S (length l1) + length l2a)%nat by lia.
           split; [exact Hp |]. split; [exact Hf |]. split.
           { cbn [flat_map]. rewrite Htr, Htr1, <- !app_assoc. reflexivity. }
           intros [| j] Hj; cbn [nth].
           { unfold chan_ok. rewrite Nat.add_0_r.
             apply Z.eqb_neq in Etile. rewrite Etile. auto. }
           specialize (Hok j ltac:(lia)).
           replace (length l1 + Datatypes.S j)%nat
             with (Datatypes.S (length l1) + j)%nat by lia.
           exact Hok.
      * (* the attempt fails here *)
        replace (e <? 0) with true in Hrun by (symmetry; apply Z.ltb_lt; lia).
        inversion Hrun; subst. right. split; [exact He |].
        exists [], bo', t, evs. cbn [app length flat_map].
        rewrite Nat.add_0_r.
        split; [reflexivity |]. split; [reflexivity |]. split.
        { constructor; [| exact Ht]. unfold unmapped.
          destruct Hmap as [-> | ->]; [exact Hx | reflexivity]. }
        split; [exact Etile |]. split; [exact Hf |].
        split; [exact Htr1 |]. intros j Hj. lia.
Qed.

Lemma Forall_unmapped_map l :
  Forall unmapped (List.map (fun bo => set_map bo NULL) l).
Proof. induction l; cbn; constructor; auto. reflexivity. Qed.

Lemma Forall_unmapped_repeat n : Forall unmapped (repeat zero_bo n).
Proof. induction n; cbn; constructor; auto. reflexivity. Qed.

(** [ane_chan_free] on a channel set whose bootstrap buffer is unmapped. *)
Lemma ane_chan_free_trace ane m cs btsp :
  unmapped btsp -> length cs = ANE_TILE_COUNT ->
  exists nn' ane',
    ane_chan_free ane (mk_nn m cs btsp) = (nn', ane')
    /\ Forall unmapped (chans nn') /\ length (chans nn') = ANE_TILE_COUNT
    /\ unmapped (btsp_chan nn')
    /\ trace ane' = trace ane ++ flat_map release_events cs.
Proof.
  intros Hb Hlen. unfold ane_chan_free. cbn [btsp_chan chans model].
  rewrite ane_bo_free_spec. rewrite Hb. cbn [Z.eqb NULL]. cbv beta iota.
  rewrite <- Hlen.
  destruct (free_chans_app cs [] ane) as (ane' & Hrun & Htr).
  cbn [length app] in Hrun. change (0 =? 0) with true. cbv iota.
  rewrite Hrun. eexists; eexists. split; [reflexivity |].
  cbn [chans btsp_chan]. split; [apply Forall_unmapped_map |].
  split; [apply length_map |]. split; [reflexivity | exact Htr].
Qed.

Lemma copy_to_map_trace ane a src n ane' :
  copy_to_map ane a src n = Some ane' -> trace ane' = trace ane.
Proof.
  unfold copy_to_map. destruct (mem ane a); [| discriminate].
  destruct (map_write _ _ _); [| discriminate].
  intros E; inversion E; reflexivity.
Qed.

Lemma set_btsp_and_command_trace nid ane nn ane' :
  set_btsp_and_command nid ane nn = Some ane' -> trace ane' = trace ane.
Proof.
  unfold set_btsp_and_command.
  destruct (copy_to_map ane _ _ _) as [ane1 |] eqn:E1; [| discriminate].
  destruct (copy_to_map ane1 _ _ _) as [ane2 |] eqn:E2; [| discriminate].
  destruct (mem ane2 _); [| discriminate].
  destruct (set_nid _ _); [| discriminate].
  intros E; inversion E; cbn.
  rewrite (copy_to_map_trace _ _ _ _ _ E2), (copy_to_map_trace _ _ _ _ _ E1).
  reflexivity.
Qed.

(** The two ways [ane_chan_init] ends on a cleared [struct ane_nn]: a
    rollback after the channels [live] before the failing attempt, or the
    copies of [set_btsp_and_command] on a fully initialised set. *)
Lemma ane_chan_init_cases nid ane m :
  (exists err nn' ane' live evs,
     ane_chan_init nid ane (nn_zero m) = Some (err, nn', ane')
     /\ err < 0
     /\ Forall unmapped (chans nn') /\ length (chans nn') = ANE_TILE_COUNT
     /\ unmapped (btsp_chan nn')
     /\ (length live <= ANE_TILE_COUNT)%nat
     /\ (forall j, (j < length live)%nat ->
            chan_ok (anec m) j (nth j live zero_bo) zero_bo)
     /\ ((length live < ANE_TILE_COUNT)%nat ->
         tile_of (anec m) (length live) <> 0)
     /\ failed_attempt (attempt_size (anec m) (length live)) evs
     /\ trace ane' = trace ane ++ flat_map acquire_events live ++ evs
                               ++ flat_map release_events live)
  \/
  (exists cs btsp ane1,
     length cs = ANE_TILE_COUNT
     /\ (forall j, (j < ANE_TILE_COUNT)%nat ->
            chan_ok (anec m) j (nth j cs zero_bo) zero_bo)
     /\ map btsp <> NULL /\ size btsp = tile_align (td_size (anec m))
     /\ trace ane1 = trace ane ++ flat_map acquire_events cs
                               ++ acquire_events btsp
     /\ ane_chan_init nid ane (nn_zero m)
        = match set_btsp_and_command nid ane1 (mk_nn m cs btsp) with
          | Some ane2 => Some (0, mk_nn m cs btsp, ane2)
          | None => None
          end).
Proof.
  unfold ane_chan_init, nn_zero, to_anec.
  cbn [model chans btsp_chan anec].
  destruct (init_chans ANE_TILE_COUNT 0 (anec m) ane
                       (repeat zero_bo ANE_TILE_COUNT))
    as [[err cs'] ane1] eqn:Erun.
  pose proof Erun as Erun'.
  rewrite <- (repeat_length zero_bo ANE_TILE_COUNT) in Erun' at 1.
  change 0%nat with (length (@nil ane_bo)) in Erun'.
  change (repeat zero_bo ANE_TILE_COUNT)
    with ([] ++ repeat zero_bo ANE_TILE_COUNT) in Erun' at 2.
  destruct (init_chans_app _ _ _ _ _ _ _
              (Forall_unmapped_repeat ANE_TILE_COUNT) Erun') as
    [(He & l2' & Hcs & Hlen & Htr & Hok)
    | (He & l2a & bo & l2b & evs & Hcs & Hlen & Hun & Hp & Hf & Htr & Hok)];
    cbn [app length Nat.add] in *; rewrite repeat_length in *.
  - (* every channel is initialised *)
    subst err cs'. cbn [Z.ltb Z.compare].
    assert (Hok' : forall j, (j < ANE_TILE_COUNT)%nat ->
                             chan_ok (anec m) j (nth j l2' zero_bo) zero_bo).
    { intros j Hj. specialize (Hok j Hj).
      rewrite nth_repeat in Hok. exact Hok. }
    destruct (ane_bo_init ane1 (set_size zero_bo (tile_align (td_size (anec m)))))
      as [[e bo'] ane2] eqn:Einit.
    destruct (ane_bo_init_cases _ _ _ _ _ Einit) as
      [Hsz [(He & Hmap & Htr1)
           | (He & Hmap & _ & _ & evs & Hf & Htr1)]];
      cbn [size set_size map zero_bo] in *.
    + right. subst e. cbn [Z.ltb Z.compare].
      exists l2', bo', ane2.
      split; [exact Hlen |]. split; [exact Hok' |]. split; [exact Hmap |].
      split; [exact Hsz |]. split; [| reflexivity].
      rewrite Htr1, Htr, <- app_assoc. reflexivity.
    + left.
      replace (e <? 0) with true by (symmetry; apply Z.ltb_lt; lia).
      assert (Hb : unmapped bo')
        by (unfold unmapped; destruct Hmap as [Hm | Hm]; exact Hm).
      destruct (ane_chan_free_trace ane2 m l2' bo' Hb Hlen)
        as (nn' & ane' & Hfree & Hun & Hlen' & Hb' & Htr2).
      rewrite Hfree.
      exists e, nn', ane', l2', evs.
      split; [reflexivity |]. split; [exact He |]. split; [exact Hun |].
      split; [exact Hlen' |]. split; [exact Hb' |]. split; [lia |].
      split; [intros j Hj; apply Hok'; lia |]. split; [lia |]. split.
      { unfold attempt_size. rewrite Hlen, Nat.ltb_irrefl. exact Hf. }
      rewrite Htr2, Htr1, Htr, <- !app_assoc. reflexivity.
  - (* the attempt on channel [length l2a] fails *)
    left.
    replace (err <? 0) with true by (symmetry; apply Z.ltb_lt; lia).
    assert (Hlen0 : length cs' = ANE_TILE_COUNT) by (rewrite Hcs; exact Hlen).
    destruct (ane_chan_free_trace ane1 m cs' zero_bo eq_refl Hlen0)
      as (nn' & ane' & Hfree & Hun' & Hlen' & Hb' & Htr2).
    rewrite Hfree.
    rewrite length_app in Hlen. cbn [length] in Hlen.
    exists err, nn', ane', l2a, evs.
    split; [reflexivity |]. split; [exact He |]. split; [exact Hun' |].
    split; [exact Hlen' |]. split; [exact Hb' |]. split; [lia |].
    split.
    { intros j Hj. specialize (Hok j Hj).
      rewrite nth_repeat in Hok. exact Hok. }
    split; [intros _; exact Hp |]. split.
    { unfold attempt_size.
      replace (length l2a <? ANE_TILE_COUNT)%nat with true
        by (symmetry; apply Nat.ltb_lt; lia).
      exact Hf. }
    rewrite Htr2, Htr, Hcs, flat_map_app, (release_unmapped _ Hun).
    rewrite app_nil_r, <- !app_assoc. reflexivity.
Qed.

End ChanFacts.

(** *** Granted and refused attempts *)

Section RollbackFacts.

Lemma nth_tl {A} (l : list A) i d : nth i (tl l) d = nth (Datatypes.S i) l d.
Proof. destruct l; [destruct i |]; reflexivity. Qed.

Lemma skipn_tl {A} (l : list A) n : skipn n (tl l) = skipn (Datatypes.S n) l.
Proof. destruct l; [rewrite skipn_nil |]; reflexivity. Qed.

(** An attempt the device grants. *)
Lemma ane_bo_init_granted ane bo :
  size bo <> 0 ->
  nth 0 (bo_init_script ane) None <> None ->
  nth 0 (mmap_script ane) None <> None ->
  exists bo' ane1,
    ane_bo_init ane bo = (0, bo', ane1)
    /\ bo_init_script ane1 = tl (bo_init_script ane)
    /\ mmap_script ane1 = tl (mmap_script ane).
Proof.
  intros Hsz Hb Hm. unfold ane_bo_init.
  replace (size bo =? 0) with false by (symmetry; apply Z.eqb_neq; exact Hsz).
  unfold bo_init, ioctl_bo_init.
  destruct (bo_init_script ane) as [| [[h off] |] rest] eqn:Escript;
    cbn [nth] in Hb; try congruence.
  cbn [fst snd tl]. cbn. unfold bo_mmap, sys_mmap; cbn.
  destruct (mmap_script ane) as [| [p |] mrest] eqn:Emap;
    cbn [nth] in Hm; try congruence.
  cbn. eexists _, _. split; [reflexivity |]. cbn. split; reflexivity.
Qed.

(** An attempt that fails: the size is zero, or the device refuses. *)
Lemma ane_bo_init_refused ane bo :
  size bo = 0 \/ refuses ane 0 ->
  exists e bo' ane1, ane_bo_init ane bo = (e, bo', ane1) /\ e < 0.
Proof.
  intros Hfail. unfold ane_bo_init.
  destruct (size bo =? 0) eqn:Esz.
  { eexists _, _, _. split; [reflexivity | unfold EINVAL; lia]. }
  apply Z.eqb_neq in Esz.
  destruct Hfail as [Hz | Hfail]; [contradiction |].
  unfold refuses in Hfail. unfold bo_init, ioctl_bo_init.
  destruct (bo_init_script ane) as [| [[h off] |] rest] eqn:Escript;
    cbn [fst snd tl]; cbn.
  - eexists _, _, _. split; [reflexivity | lia].
  - unfold bo_mmap, sys_mmap; cbn.
    destruct (mmap_script ane) as [| [p |] mrest] eqn:Emap; cbn.
    + eexists _, _, _. split; [reflexivity | unfold EINVAL; lia].
    + cbn [nth] in Hfail. destruct Hfail; discriminate.
    + eexists _, _, _. split; [reflexivity | unfold EINVAL; lia].
  - eexists _, _, _. split; [reflexivity | lia].
Qed.

Lemma grants_tl ane ane1 p :
  grants ane (Datatypes.S p) ->
  bo_init_script ane1 = tl (bo_init_script ane) ->
  mmap_script ane1 = tl (mmap_script ane) ->
  grants ane1 p.
Proof.
  intros Hg Eb Em i Hi. rewrite Eb, Em, !nth_tl. apply Hg. lia.
Qed.

(** The first loop of [ane_chan_init] over channels whose attempts the
    device grants. *)
Lemma init_chans_prefix (a : anec_t) :
  forall l2a l1 ane,
    Forall unmapped l2a ->
    (forall j, (j < length l2a)%nat ->
       tile_of a (length l1 + j) <> 0 ->
       tile_shift (tile_of a (length l1 + j)) <> 0) ->
    grants ane (length (filter (fun j => negb (tile_of a j =? 0))
                               (seq (length l1) (length l2a)))) ->
    exists l2a' ane1,
      length l2a' = length l2a
      /\ (forall r l2b,
            init_chans (length l2a + r) (length l1) a ane (l1 ++ l2a ++ l2b)
            = init_chans r (length l1 + length l2a) a ane1
                         (l1 ++ l2a' ++ l2b))
      /\ trace ane1 = trace ane ++ flat_map acquire_events l2a'
      /\ (forall j, (j < length l2a)%nat ->
            chan_ok a (length l1 + j) (nth j l2a' zero_bo) (nth j l2a zero_bo))
      /\ bo_init_script ane1
         = skipn (length (filter (fun j => negb (tile_of a j =? 0))
                                 (seq (length l1) (length l2a))))
                 (bo_init_script ane)
      /\ mmap_script ane1
         = skipn (length (filter (fun j => negb (tile_of a j =? 0))
                                 (seq (length l1) (length l2a))))
                 (mmap_script ane).
Proof.
  induction l2a as [| x t IH]; intros l1 ane Hun Hsz Hg.
  - exists [], ane. cbn [length seq filter skipn app flat_map].
    rewrite Nat.add_0_r, app_nil_r.
    split; [reflexivity |]. split; [intros; reflexivity |].
    split; [reflexivity |]. split; [intros j Hj; lia |].
    split; reflexivity.
  - inversion Hun as [| ? ? Hx Ht]; subst.
    cbn [length seq filter] in Hg |- *. cbn [length] in Hsz.
    destruct (tile_of a (length l1) =? 0) eqn:Etile; cbn [negb] in Hg |- *.
    + (* absent channel *)
      destruct (IH (l1 ++ [x]) ane Ht) as
        (t' & ane1 & Hlen & Hrun & Htr & Hok & Hbs & Hms).
      { intros j Hj. rewrite length_snoc.
        replace (Datatypes.S (length l1) + j)%nat
          with (length l1 + Datatypes.S j)%nat by lia.
        apply Hsz. lia. }
      { rewrite length_snoc. exact Hg. }
      rewrite length_snoc in Hrun, Hok, Hbs, Hms.
      exists (x :: t'), ane1. cbn [length].
      split; [lia |]. split.
      { intros r l2b. cbn [Nat.add init_chans]. rewrite Etile.
        specialize (Hrun r l2b). rewrite <- !app_assoc in Hrun.
        cbn [app] in Hrun |- *. rewrite Hrun. f_equal. lia. }
      split.
      { cbn [flat_map]. unfold acquire_events at 1. rewrite Hx. exact Htr. }
      split; [| split; assumption].
      intros [| j] Hj; cbn [nth].
      { unfold chan_ok. rewrite Nat.add_0_r, Etile. reflexivity. }
      specialize (Hok j ltac:(lia)).
      replace (length l1 + Datatypes.S j)%nat
        with (Datatypes.S (length l1) + j)%nat by lia.
      exact Hok.
    + (* present channel, granted *)
      apply Z.eqb_neq in Etile. cbn [length] in Hg.
      assert (Hsz0 : tile_shift (tile_of a (length l1)) <> 0).
      { specialize (Hsz 0%nat ltac:(lia)). rewrite Nat.add_0_r in Hsz.
        apply Hsz. exact Etile. }
      destruct (Hg 0%nat ltac:(lia)) as (Hb0 & Hm0).
      destruct (ane_bo_init_granted ane
                  (set_size x (tile_shift (tile_of a (length l1))))
                  Hsz0 Hb0 Hm0) as (bo' & ane0 & Einit & Eb & Em).
      destruct (ane_bo_init_cases _ _ _ _ _ Einit) as
        [Hsize [(_ & Hmap & Htr0) | (He & _)]]; [| lia].
      cbn [size set_size] in Hsize.
      destruct (IH (l1 ++ [bo']) ane0 Ht) as
        (t' & ane1 & Hlen & Hrun & Htr & Hok & Hbs & Hms).
      { intros j Hj. rewrite length_snoc.
        replace (Datatypes.S (length l1) + j)%nat
          with (length l1 + Datatypes.S j)%nat by lia.
        apply Hsz. lia. }
      { rewrite length_snoc. eapply grants_tl; eassumption. }
      rewrite length_snoc in Hrun, Hok, Hbs, Hms.
      exists (bo' :: t'), ane1. cbn [length].
      split; [lia |]. split.
      { intros r l2b. cbn [Nat.add init_chans].
        replace (tile_of a (length l1) =? 0) with false
          by (symmetry; apply Z.eqb_neq; exact Etile).
        cbn [app]. rewrite nth_app_len, Einit. cbn [Z.ltb Z.compare].
        rewrite upd_app_len.
        specialize (Hrun r l2b). rewrite <- !app_assoc in Hrun.
        cbn [app] in Hrun. rewrite Hrun. f_equal. lia. }
      split.
      { cbn [flat_map]. rewrite Htr, Htr0, <- app_assoc. reflexivity. }
      split.
      { intros [| j] Hj; cbn [nth].
        - unfold chan_ok. rewrite Nat.add_0_r.
          replace (tile_of a (length l1) =? 0) with false
            by (symmetry; apply Z.eqb_neq; exact Etile).
          split; assumption.
        - specialize (Hok j ltac:(lia)).
          replace (length l1 + Datatypes.S j)%nat
            with (Datatypes.S (length l1) + j)%nat by lia.
          exact Hok. }
      rewrite Hbs, Hms, Eb, Em, !skipn_tl. split; reflexivity.
Qed.

End RollbackFacts.

(** *** Sizes *)

Section SizeFacts.

Lemma tile_shift_exact x :
  0 <= x < 2 ^ 50 -> tile_shift x = Z.shiftl x 14.
Proof.
  intros Hx. unfold tile_shift, TILE_SHIFT.
  rewrite (u64_small x) by lia.
  apply u64_small. rewrite Z.shiftl_mul_pow2 by lia. lia.
Qed.

Lemma high_bits_zero y n : 0 <= y < 2 ^ 64 -> 64 <= n -> Z.testbit y n = false.
Proof.
  intros Hy Hn. rewrite <- (Z.mod_small y (2 ^ 64)) by lia.
  apply Z.mod_pow2_bits_high. lia.
Qed.

(** [tile_align] rounds up to the next multiple of 16 KiB. *)
Lemma tile_align_round_up x :
  0 <= x < 2 ^ 64 - 2 ^ 14 ->
  tile_align x = 16384 * ((x + 16383) / 16384).
Proof.
  intros Hx. unfold tile_align, TILE_SIZE.
  rewrite (u64_small x) by lia.
  rewrite (u64_small (x + 16384)) by lia.
  rewrite (u64_small (x + 16384 - 1)) by lia.
  replace (x + 16384 - 1) with (x + 16383) by lia.
  set (y := x + 16383).
  assert (Hy : 0 <= y < 2 ^ 64) by (subst y; lia).
  change (u64 (- (16384))) with (Z.shiftl (Z.ones 50) 14).
  assert (E : Z.land y (Z.shiftl (Z.ones 50) 14)
              = Z.shiftl (Z.shiftr y 14) 14).
  { apply Z.bits_inj'. intros n Hn.
    rewrite Z.land_spec, !Z.shiftl_spec by lia.
    destruct (Z.lt_ge_cases n 14) as [Hlt | Hge].
    - rewrite (Z.testbit_neg_r _ (n - 14)) by lia.
      rewrite (Z.testbit_neg_r _ (n - 14)) by lia.
      apply andb_false_r.
    - rewrite Z.shiftr_spec by lia.
      replace (n - 14 + 14) with n by lia.
      rewrite Z.testbit_ones by lia.
      destruct (Z.lt_ge_cases n 64) as [Hlt | Hge64].
      + replace (0 <=? n - 14) with true by (symmetry; apply Z.leb_le; lia).
        replace (n - 14 <? 50) with true by (symmetry; apply Z.ltb_lt; lia).
        apply andb_true_r.
      + rewrite (high_bits_zero y n Hy Hge64). reflexivity. }
  rewrite E, Z.shiftl_mul_pow2, Z.shiftr_div_pow2 by lia.
  change (2 ^ 14) with 16384. ring.
Qed.

End SizeFacts.

(** *** The channel-set claims *)

Section ChanClaims.

(** C3.  Rollback on a failed attempt.  Take any descriptor and any position
    [k] at which [ane_chan_init], run on the cleared job instance that
    [__ane_init_from_model] hands it, attempts an allocation and a mapping:
    a present channel [k], or the bootstrap buffer when [k] is the channel
    count.  If the device grants the attempts of the present channels before
    [k] and the attempt at [k] fails (its size is zero, or the device
    refuses its allocation or its mapping), then [ane_chan_init] returns a
    negative error.  The buffer objects [live] of the channels before [k]
    were acquired, the attempt at [k] failed, and the rollback released
    exactly the objects of [live], each by an unmap followed by a free: the
    absent channels among them and every channel from [k] on see no
    request.  No channel of the set is left mapped, and the caller of
    [__ane_init_from_model] gets [NULL]. *)
Theorem chan_init_rollback (nid : Z) (ane : device) (m : ane_model) (k : nat) :
  (k <= ANE_TILE_COUNT)%nat ->
  ((k < ANE_TILE_COUNT)%nat -> tile_of (anec m) k <> 0) ->
  (forall j, (j < k)%nat -> tile_of (anec m) j <> 0 ->
     tile_shift (tile_of (anec m) j) <> 0) ->
  grants ane (present_before (anec m) k) ->
  attempt_size (anec m) k = 0 \/ refuses ane (present_before (anec m) k) ->
  exists (err : Z) (nn' : ane_nn) (ane' : device)
         (live : list ane_bo) (evs : list event),
    ane_chan_init nid ane (nn_zero m) = Some (err, nn', ane')
    /\ err < 0
    /\ ane_init_from_model nid ane m = Some (None, ane')
    /\ Forall unmapped (chans nn') /\ unmapped (btsp_chan nn')
    /\ length live = k
    /\ (forall j, (j < k)%nat ->
           chan_ok (anec m) j (nth j live zero_bo) zero_bo)
    /\ failed_attempt (attempt_size (anec m) k) evs
    /\ trace ane' = trace ane ++ flat_map acquire_events live ++ evs
                              ++ flat_map release_events live.
Proof.
  intros Hk Hpresent Hsizes Hgrants Hfails.
  unfold present_before in Hgrants, Hfails.
  destruct (init_chans_prefix (anec m) (repeat zero_bo k) [] ane
              (Forall_unmapped_repeat k)) as
    (live & ane1 & Hlen & Hrun & Htr & Hok & Hbs & Hms).
  { intros j Hj. rewrite repeat_length in Hj. cbn [length Nat.add].
    apply Hsizes. exact Hj. }
  { cbn [length]. rewrite repeat_length. exact Hgrants. }
  cbn [length app Nat.add] in Hrun, Hok, Hbs, Hms.
  rewrite repeat_length in Hlen, Hrun, Hok, Hbs, Hms.
  assert (Hok' : forall j, (j < k)%nat ->
                   chan_ok (anec m) j (nth j live zero_bo) zero_bo).
  { intros j Hj. specialize (Hok j Hj). rewrite nth_repeat in Hok. exact Hok. }
  assert (Hrefuses : attempt_size (anec m) k = 0 \/ refuses ane1 0).
  { destruct Hfails as [Hz | Hr]; [left; exact Hz | right].
    unfold refuses in *. rewrite Hbs, Hms, !nth_skipn, !Nat.add_0_r.
    exact Hr. }
  assert (Hfinish :
    forall e cs btsp ane2 evs,
      e < 0 -> length cs = ANE_TILE_COUNT -> unmapped btsp ->
      flat_map release_events cs = flat_map release_events live ->
      failed_attempt (attempt_size (anec m) k) evs ->
      trace ane2 = trace ane1 ++ evs ->
      ane_chan_init nid ane (nn_zero m)
      = (let '(nn, d) := ane_chan_free ane2 (mk_nn m cs btsp) in
         Some (e, nn, d)) ->
      exists (err : Z) (nn' : ane_nn) (ane' : device)
             (live : list ane_bo) (evs : list event),
        ane_chan_init nid ane (nn_zero m) = Some (err, nn', ane')
        /\ err < 0
        /\ ane_init_from_model nid ane m = Some (None, ane')
        /\ Forall unmapped (chans nn') /\ unmapped (btsp_chan nn')
        /\ length live = k
        /\ (forall j, (j < k)%nat ->
               chan_ok (anec m) j (nth j live zero_bo) zero_bo)
        /\ failed_attempt (attempt_size (anec m) k) evs
        /\ trace ane' = trace ane ++ flat_map acquire_events live ++ evs
                                  ++ flat_map release_events live).
  { intros e cs btsp ane2 evs He Hcs Hb Hrel Hf Htr2 Hinit.
    destruct (ane_chan_free_trace ane2 m cs btsp Hb Hcs)
      as (nn' & ane' & Hfree & Hun & _ & Hb' & Htr3).
    rewrite Hfree in Hinit.
    exists e, nn', ane', live, evs.
    split; [exact Hinit |]. split; [exact He |]. split.
    { unfold ane_init_from_model. rewrite Hinit.
      replace (e <? 0) with true by (symmetry; apply Z.ltb_lt; lia).
      reflexivity. }
    split; [exact Hun |]. split; [exact Hb' |]. split; [exact Hlen |].
    split; [exact Hok' |]. split; [exact Hf |].
    rewrite Htr3, Htr2, Htr, Hrel, <- !app_assoc. reflexivity. }
  destruct (Nat.eq_dec k ANE_TILE_COUNT) as [Hlast | Hchan].
  - (* the bootstrap buffer *)
    specialize (Hrun 0%nat []). rewrite Nat.add_0_r, !app_nil_r in Hrun.
    cbn [init_chans] in Hrun.
    assert (Hat : attempt_size (anec m) k = tile_align (td_size (anec m))).
    { unfold attempt_size. rewrite Hlast, Nat.ltb_irrefl. reflexivity. }
    destruct (ane_bo_init_refused ane1
                (set_size zero_bo (tile_align (td_size (anec m)))))
      as (e & bo' & ane2 & Einit & He).
    { cbn [size set_size]. rewrite <- Hat. exact Hrefuses. }
    destruct (ane_bo_init_cases _ _ _ _ _ Einit) as
      [_ [(He0 & _) | (_ & Hmap & _ & _ & evs & Hf & Htr2)]]; [lia |].
    cbn [size set_size map zero_bo] in Hmap, Hf.
    apply (Hfinish e live bo' ane2 evs He).
    + rewrite Hlen. exact Hlast.
    + unfold unmapped. destruct Hmap as [Hm | Hm]; exact Hm.
    + reflexivity.
    + rewrite Hat. exact Hf.
    + exact Htr2.
    + unfold ane_chan_init, nn_zero, to_anec.
      cbn [model chans btsp_chan anec].
      rewrite <- Hlast at 1 2. rewrite Hrun. cbn [Z.ltb Z.compare].
      rewrite Einit.
      replace (e <? 0) with true by (symmetry; apply Z.ltb_lt; lia).
      reflexivity.
  - (* channel [k] *)
    assert (Hk' : (k < ANE_TILE_COUNT)%nat) by lia.
    destruct (Nat.le_exists_sub (Datatypes.S k) ANE_TILE_COUNT Hk')
      as (r & Hr & _).
    replace (r + Datatypes.S k)%nat with (k + Datatypes.S r)%nat in Hr by lia.
    specialize (Hrun (Datatypes.S r) (repeat zero_bo (Datatypes.S r))).
    rewrite <- repeat_app, <- Hr in Hrun.
    assert (Hat : attempt_size (anec m) k = tile_shift (tile_of (anec m) k)).
    { unfold attempt_size.
      replace (k <? ANE_TILE_COUNT)%nat with true
        by (symmetry; apply Nat.ltb_lt; exact Hk').
      reflexivity. }
    destruct (ane_bo_init_refused ane1
                (set_size zero_bo (tile_shift (tile_of (anec m) k))))
      as (e & bo' & ane2 & Einit & He).
    { cbn [size set_size]. rewrite <- Hat. exact Hrefuses. }
    destruct (ane_bo_init_cases _ _ _ _ _ Einit) as
      [_ [(He0 & _) | (_ & Hmap & _ & _ & evs & Hf & Htr2)]]; [lia |].
    cbn [size set_size map zero_bo] in Hmap, Hf.
    assert (Hbo : unmapped bo')
      by (unfold unmapped; destruct Hmap as [Hm | Hm]; exact Hm).
    cbn [repeat init_chans] in Hrun.
    replace (tile_of (anec m) k =? 0) with false in Hrun
      by (symmetry; apply Z.eqb_neq; apply Hpresent; exact Hk').
    assert (Hnth : nth k (live ++ zero_bo :: repeat zero_bo r) zero_bo
                   = zero_bo)
      by (rewrite <- Hlen; apply nth_app_len).
    assert (Hupd : forall bo,
              upd k bo (live ++ zero_bo :: repeat zero_bo r)
              = live ++ bo :: repeat zero_bo r)
      by (intros bo; rewrite <- Hlen; apply upd_app_len).
    rewrite Hnth, Einit, Hupd in Hrun.
    replace (e <? 0) with true in Hrun by (symmetry; apply Z.ltb_lt; lia).
    apply (Hfinish e (live ++ bo' :: repeat zero_bo r) zero_bo ane2 evs He).
    + rewrite length_app. cbn [length]. rewrite repeat_length. lia.
    + reflexivity.
    + rewrite flat_map_app.
      rewrite (release_unmapped (bo' :: repeat zero_bo r)).
      * apply app_nil_r.
      * constructor; [exact Hbo | apply Forall_unmapped_repeat].
    + rewrite Hat. exact Hf.
    + exact Htr2.
    + unfold ane_chan_init, nn_zero, to_anec.
      cbn [model chans btsp_chan anec].
      rewrite Hrun.
      replace (e <? 0) with true by (symmetry; apply Z.ltb_lt; lia).
      reflexivity.
Qed.

(** C4.  After a successful [ane_chan_init] on a cleared job instance, the
    buffer object of every absolute channel index below [ANE_TILE_COUNT] is
    mapped if and only if the tile-size entry of the index is non-zero; a
    present channel has the size [tile_shift] gives, which is the entry
    shifted left by 14 bits, an absent one is still cleared.  The bootstrap
    buffer is mapped and has the size [tile_align] gives, the size of the
    task descriptor rounded up to a multiple of 16 KiB.  The requests made of
    the device are one allocation and one mapping per live buffer object. *)
Theorem chan_init_allocates_present (nid : Z) (ane : device) (m : ane_model)
  (nn' : ane_nn) (ane' : device) :
  ane_chan_init nid ane (nn_zero m) = Some (0, nn', ane') ->
  length (chans nn') = ANE_TILE_COUNT
  /\ (forall bdx, (bdx < ANE_TILE_COUNT)%nat ->
        (map (chan nn' bdx) <> NULL <-> tile_of (anec m) bdx <> 0)
        /\ (tile_of (anec m) bdx <> 0 ->
            size (chan nn' bdx) = tile_shift (tile_of (anec m) bdx)
            /\ (is_u32 (tile_of (anec m) bdx) ->
                size (chan nn' bdx) = Z.shiftl (tile_of (anec m) bdx) 14))
        /\ (tile_of (anec m) bdx = 0 -> chan nn' bdx = zero_bo))
  /\ map (btsp_chan nn') <> NULL
  /\ size (btsp_chan nn') = tile_align (td_size (anec m))
  /\ (is_u32 (td_size (anec m)) ->
      size (btsp_chan nn') = 16384 * ((td_size (anec m) + 16383) / 16384))
  /\ trace ane' = trace ane ++ flat_map acquire_events (chans nn')
                            ++ acquire_events (btsp_chan nn').
Proof.
  intros Hrun.
  destruct (ane_chan_init_cases nid ane m) as
    [(e & nn1 & ane1 & live & evs & Hinit & He & _)
    | (cs & btsp & ane1 & Hlen & Hok & Hmap & Hsz & Htr & Hinit)].
  { rewrite Hinit in Hrun. inversion Hrun; subst. lia. }
  rewrite Hinit in Hrun.
  destruct (set_btsp_and_command nid ane1 (mk_nn m cs btsp)) as [ane2 |] eqn:E;
    [| discriminate].
  inversion Hrun; subst. cbn [chans btsp_chan].
  split; [exact Hlen |]. split.
  - intros bdx Hb. specialize (Hok bdx Hb). unfold chan_ok in Hok.
    unfold chan. cbn [chans].
    destruct (tile_of (anec m) bdx =? 0) eqn:Et.
    + apply Z.eqb_eq in Et. rewrite Hok.
      split; [cbn; split; intros; [contradiction | lia] |].
      split; [intros; lia | reflexivity].
    + apply Z.eqb_neq in Et. destruct Hok as [Hm Hs].
      split; [split; auto |]. split.
      * intros _. split; [exact Hs |]. intros Hu. rewrite Hs.
        apply tile_shift_exact. unfold is_u32 in Hu. lia.
      * intros; contradiction.
  - split; [exact Hmap |]. split; [exact Hsz |]. split.
    + intros Hu. rewrite Hsz. apply tile_align_round_up.
      unfold is_u32 in Hu. lia.
    + rewrite (set_btsp_and_command_trace _ _ _ _ E). exact Htr.
Qed.

End ChanClaims.

(** ** The bootstrap stamp *)

Section NidFacts.

(** Bit by bit, what [set_nid] writes: the low byte of [nid] in bits 16-23,
    the old header in bits 0-15 and 24-27, and zero from bit 28 on. *)
Lemma nid_word_bits hdr0 nid i :
  0 <= i ->
  Z.testbit (nid_word hdr0 nid) i
  = if (16 <=? i) && (i <? 24) then Z.testbit nid (i - 16)
    else if (i <? 16) || ((24 <=? i) && (i <? 28)) then Z.testbit hdr0 i
    else false.
Proof.
  intros Hi. unfold nid_word.
  change 0xf00ffff with (Z.lor (Z.ones 16) (Z.shiftl (Z.ones 4) 24)).
  change 0xff with (Z.ones 8).
  rewrite Z.lor_spec, !Z.land_spec, Z.lor_spec, !Z.shiftl_spec by lia.
  rewrite !Z.land_spec.
  destruct (Z.lt_ge_cases i 16) as [H16 | H16].
  - rewrite (Z.testbit_neg_r _ (i - 16)) by lia.
    rewrite (Z.testbit_neg_r _ (i - 24)) by lia.
    rewrite Z.testbit_ones by lia.
    replace (16 <=? i) with false by (symmetry; apply Z.leb_gt; lia).
    replace (i <? 16) with true by (symmetry; apply Z.ltb_lt; lia).
    replace (0 <=? i) with true by (symmetry; apply Z.leb_le; lia).
    cbn. rewrite !andb_true_r, orb_false_r. reflexivity.
  - replace (16 <=? i) with true by (symmetry; apply Z.leb_le; lia).
    replace (i <? 16) with false by (symmetry; apply Z.ltb_ge; lia).
    rewrite (Z.testbit_ones 16), (Z.testbit_ones 8) by lia.
    replace (i <? 16) with false by (symmetry; apply Z.ltb_ge; lia).
    replace (0 <=? i - 16) with true by (symmetry; apply Z.leb_le; lia).
    destruct (Z.lt_ge_cases i 24) as [H24 | H24].
    + rewrite (Z.testbit_neg_r _ (i - 24)) by lia.
      replace (i <? 24) with true by (symmetry; apply Z.ltb_lt; lia).
      replace (i - 16 <? 8) with true by (symmetry; apply Z.ltb_lt; lia).
      cbn. rewrite !andb_false_r, andb_true_r. reflexivity.
    + rewrite (Z.testbit_ones 4) by lia.
      replace (i <? 24) with false by (symmetry; apply Z.ltb_ge; lia).
      replace (24 <=? i) with true by (symmetry; apply Z.leb_le; lia).
      replace (i - 16 <? 8) with false by (symmetry; apply Z.ltb_ge; lia).
      replace (0 <=? i - 24) with true by (symmetry; apply Z.leb_le; lia).
      replace (i - 24 <? 4) with (i <? 28).
      2:{ destruct (Z.ltb_spec i 28); symmetry;
          [apply Z.ltb_lt | apply Z.ltb_ge]; lia. }
      cbn. rewrite !andb_false_r, orb_false_r.
      destruct (i <? 28); cbn;
        [rewrite andb_true_r | rewrite andb_false_r]; reflexivity.
Qed.

End NidFacts.

Section StampFacts.

Lemma byte_val_of z : byte_val (byte_of z) = z mod 256.
Proof.
  unfold byte_val, byte_of.
  pose proof (Z.mod_pos_bound z 256 ltac:(lia)) as Hm.
  destruct (Byte.of_N (Z.to_N (z mod 256))) as [b |] eqn:E.
  - apply Byte.to_of_N in E. rewrite E. apply Z2N.id. lia.
  - apply Byte.of_N_None_iff in E. lia.
Qed.

Lemma word_of_bytes w :
  0 <= w < 2 ^ 32 ->
  word_of (byte_of w) (byte_of (Z.shiftr w 8)) (byte_of (Z.shiftr w 16))
          (byte_of (Z.shiftr w 24)) = w.
Proof.
  intros Hw. unfold word_of.
  rewrite !byte_val_of, !Z.shiftr_div_pow2, !Z.shiftl_mul_pow2 by lia.
  change (2 ^ 8) with 256. change (2 ^ 16) with 65536.
  change (2 ^ 24) with 16777216. change (2 ^ 32) with 4294967296 in Hw.
  Z.div_mod_to_equations. lia.
Qed.

Lemma nid_word_range hdr0 nid : 0 <= nid_word hdr0 nid < 2 ^ 32.
Proof.
  assert (Hnn : 0 <= nid_word hdr0 nid).
  { unfold nid_word. apply Z.lor_nonneg. split.
    - apply Z.land_nonneg. right. lia.
    - apply Z.shiftl_nonneg. apply Z.land_nonneg. right. lia. }
  assert (E : nid_word hdr0 nid = nid_word hdr0 nid mod 2 ^ 28).
  { apply Z.bits_inj'. intros i Hi.
    destruct (Z.lt_ge_cases i 28) as [Hlt | Hge].
    - rewrite Z.mod_pow2_bits_low by lia. reflexivity.
    - rewrite Z.mod_pow2_bits_high by lia.
      rewrite nid_word_bits by lia.
      replace (i <? 24) with false by (symmetry; apply Z.ltb_ge; lia).
      replace (i <? 16) with false by (symmetry; apply Z.ltb_ge; lia).
      replace (i <? 28) with false by (symmetry; apply Z.ltb_ge; lia).
      rewrite !andb_false_r. reflexivity. }
  pose proof (Z.mod_pos_bound (nid_word hdr0 nid) (2 ^ 28) ltac:(lia)).
  lia.
Qed.

Lemma set_nid_word td nid td' :
  set_nid td nid = Some td' ->
  load_u32 td'
  = Some (nid_word (word_of (m_byte td 0) (m_byte td 1) (m_byte td 2)
                            (m_byte td 3)) nid).
Proof.
  unfold set_nid, load_u32, store_u32.
  destruct (4 <=? m_len td) eqn:E4; [| discriminate].
  intros E; inversion E; subst; cbn. rewrite E4.
  rewrite word_of_bytes by apply nid_word_range. reflexivity.
Qed.

Lemma first_word_at (b : buffer) :
  4 <= len b ->
  first_word b
  = Some (word_of (byte_at b 0) (byte_at b 1) (byte_at b 2) (byte_at b 3)).
Proof.
  unfold len. destruct b as [| b0 [| b1 [| b2 [| b3 rest]]]]; cbn; try lia.
  intros _. reflexivity.
Qed.

(** What the code does write: after a successful [ane_chan_init] on a task
    descriptor of four bytes or more, the first word of the bootstrap
    mapping is [nid_word] of the first word of the task program. *)
Lemma bootstrap_first_word nid ane m nn' ane' :
  ane_chan_init nid ane (nn_zero m) = Some (0, nn', ane') ->
  4 <= td_size (anec m) ->
  exists td w0,
    mem ane' (map (btsp_chan nn')) = Some td
    /\ first_word (data m) = Some w0
    /\ load_u32 td = Some (nid_word w0 nid).
Proof.
  intros Hrun Htd.
  destruct (ane_chan_init_cases nid ane m) as
    [(e & nn1 & ane1 & live & evs & Hinit & He & _)
    | (cs & btsp & ane1 & _ & _ & _ & _ & _ & Hinit)].
  { rewrite Hinit in Hrun. inversion Hrun; subst. lia. }
  rewrite Hinit in Hrun.
  destruct (set_btsp_and_command nid ane1 (mk_nn m cs btsp)) as [ane2 |] eqn:E;
    [| discriminate].
  inversion Hrun; subst. cbn [btsp_chan].
  unfold set_btsp_and_command, to_anec in E. cbn [model btsp_chan chan] in E.
  destruct (copy_to_map ane1 _ (data m) (anec_size (anec m))) as [a1 |];
    [| discriminate].
  unfold copy_to_map at 1 in E.
  destruct (mem a1 (map btsp)) as [dst |]; [| discriminate].
  destruct (map_write dst (data m) (td_size (anec m))) as [dst' |] eqn:Ew;
    [| discriminate].
  cbn [mem mem_write] in E. unfold mem_set at 1 in E.
  rewrite Z.eqb_refl in E.
  destruct (set_nid dst' nid) as [td' |] eqn:Es; [| discriminate].
  inversion E; subst. cbn [mem mem_write]. unfold mem_set at 1.
  rewrite Z.eqb_refl.
  unfold map_write in Ew.
  destruct ((0 <=? td_size (anec m)) && (td_size (anec m) <=? len (data m))
            && (td_size (anec m) <=? m_len dst)) eqn:Ec; [| discriminate].
  apply andb_prop in Ec. destruct Ec as [Ec _].
  apply andb_prop in Ec. destruct Ec as [_ Ec]. apply Z.leb_le in Ec.
  inversion Ew; subst.
  exists td', (word_of (byte_at (data m) 0) (byte_at (data m) 1)
                       (byte_at (data m) 2) (byte_at (data m) 3)).
  split; [reflexivity |]. split; [apply first_word_at; lia |].
  rewrite (set_nid_word _ _ _ Es). cbn [m_byte].
  replace (3 <? td_size (anec m)) with true by (symmetry; apply Z.ltb_lt; lia).
  replace (2 <? td_size (anec m)) with true by (symmetry; apply Z.ltb_lt; lia).
  replace (1 <? td_size (anec m)) with true by (symmetry; apply Z.ltb_lt; lia).
  replace (0 <? td_size (anec m)) with true by (symmetry; apply Z.ltb_lt; lia).
  reflexivity.
Qed.

End StampFacts.

Section StampClaims.

(** C2, as the code has it.  After a successful [ane_chan_init] on a task
    descriptor of four bytes or more, the first 32-bit word of the bootstrap
    mapping has in bits 16-23 the low eight bits of the identifier (the
    identifier itself when it fits eight bits), and in bits 0-15 and 24-27
    the bits of the first 32-bit word of the task program. *)
Theorem bootstrap_stamp (nid : Z) (ane : device) (m : ane_model)
  (nn' : ane_nn) (ane' : device) :
  ane_chan_init nid ane (nn_zero m) = Some (0, nn', ane') ->
  4 <= td_size (anec m) ->
  exists td w0 w,
    mem ane' (map (btsp_chan nn')) = Some td
    /\ first_word (data m) = Some w0
    /\ load_u32 td = Some w
    /\ (forall i, 16 <= i < 24 -> Z.testbit w i = Z.testbit nid (i - 16))
    /\ (0 <= nid < 256 -> Z.land (Z.shiftr w 16) 0xff = nid)
    /\ (forall i, 0 <= i < 16 \/ 24 <= i < 28 ->
          Z.testbit w i = Z.testbit w0 i).
Proof.
  intros Hrun Htd.
  destruct (bootstrap_first_word nid ane m nn' ane' Hrun Htd)
    as (td & w0 & Hmem & Hw0 & Hld).
  exists td, w0, (nid_word w0 nid).
  split; [exact Hmem |]. split; [exact Hw0 |]. split; [exact Hld |].
  assert (Hfield : forall i, 16 <= i < 24 ->
            Z.testbit (nid_word w0 nid) i = Z.testbit nid (i - 16)).
  { intros i Hi. rewrite nid_word_bits by lia.
    replace (16 <=? i) with true by (symmetry; apply Z.leb_le; lia).
    replace (i <? 24) with true by (symmetry; apply Z.ltb_lt; lia).
    reflexivity. }
  split; [exact Hfield |]. split.
  - intros Hnid. apply Z.bits_inj'. intros j Hj.
    change 0xff with (Z.ones 8).
    rewrite Z.land_spec, Z.shiftr_spec, Z.testbit_ones by lia.
    replace (0 <=? j) with true by (symmetry; apply Z.leb_le; lia).
    destruct (Z.ltb_spec j 8) as [Hlt | Hge]; cbn [andb].
    + rewrite andb_true_r, Hfield by lia. f_equal. lia.
    + rewrite andb_false_r. symmetry.
      rewrite <- (Z.mod_small nid (2 ^ 8)) by lia.
      apply Z.mod_pow2_bits_high. lia.
  - intros i Hi. rewrite nid_word_bits by lia.
    destruct Hi as [Hi | Hi].
    + replace (16 <=? i) with false by (symmetry; apply Z.leb_gt; lia).
      replace (i <? 16) with true by (symmetry; apply Z.ltb_lt; lia).
      reflexivity.
    + replace (i <? 24) with false by (symmetry; apply Z.ltb_ge; lia).
      replace (24 <=? i) with true by (symmetry; apply Z.leb_le; lia).
      replace (i <? 28) with true by (symmetry; apply Z.ltb_lt; lia).
      rewrite andb_false_r, orb_true_r. reflexivity.
Qed.

End StampClaims.

(** ** Index arithmetic and raw transfers *)

Section IndexFacts.

Lemma u32_small z : 0 <= z < 2 ^ 32 -> u32 z = z.
Proof. intros. unfold u32. apply Z.mod_small. assumption. Qed.

Lemma src_bdx_exact nn j :
  0 <= j -> 0 <= dst_count (to_anec nn) ->
  4 + dst_count (to_anec nn) + j < 2 ^ 32 ->
  src_bdx nn j = 4 + dst_count (to_anec nn) + j.
Proof.
  intros Hj Hd Hb. unfold src_bdx.
  rewrite (u32_small (4 + _)), (u32_small j) by lia.
  apply u32_small. lia.
Qed.

Lemma tile_shift_nonneg x : 0 <= tile_shift x.
Proof.
  unfold tile_shift, u64. apply Z.mod_pos_bound. lia.
Qed.

(** C5.  In a channel set whose [d] destinations and [s] sources fit the
    channel array after the four reserved channels, destination index [i]
    addresses absolute channel [4 + i] and source index [j] absolute channel
    [4 + d + j]; both lie in the array and outside the reserved range 0..3,
    and no destination index meets a source index.  [__ane_send] to source
    index [j], with or without the index check, copies the tile size of that
    channel from the caller's buffer into the mapping of channel
    [4 + d + j] and leaves every other mapping and the requests of the device
    as they were. *)
Theorem channel_index_arithmetic (nn : ane_nn) (d s : Z) :
  dst_count (to_anec nn) = d -> src_count (to_anec nn) = s ->
  0 <= d -> 0 <= s -> 4 + d + s <= Z.of_nat ANE_TILE_COUNT ->
  (forall i, 0 <= i < d ->
     dst_bdx i = 4 + i /\ 4 <= dst_bdx i < Z.of_nat ANE_TILE_COUNT)
  /\ (forall j, 0 <= j < s ->
        src_bdx nn j = 4 + d + j
        /\ 4 <= src_bdx nn j < Z.of_nat ANE_TILE_COUNT)
  /\ (forall i j, 0 <= i < d -> 0 <= j < s -> dst_bdx i <> src_bdx nn j)
  /\ (forall check ane from j dst,
        0 <= j < s ->
        let bdx := Z.to_nat (4 + d + j) in
        let addr := map (chan nn bdx) in
        mem ane addr = Some dst ->
        tile_size nn bdx <= len from ->
        tile_size nn bdx <= m_len dst ->
        exists ane' dst',
          ane_send check ane nn from j = Some ane'
          /\ mem ane' addr = Some dst'
          /\ m_len dst' = m_len dst
          /\ (forall x, 0 <= x < tile_size nn bdx ->
                m_byte dst' x = byte_at from x)
          /\ (forall x, ~ 0 <= x < tile_size nn bdx ->
                m_byte dst' x = m_byte dst x)
          /\ (forall a, a <> addr -> mem ane' a = mem ane a)
          /\ trace ane' = trace ane).
Proof.
  intros Hd Hs Hd0 Hs0 Hfit.
  assert (H64 : Z.of_nat ANE_TILE_COUNT = 64) by reflexivity.
  assert (Hsrc : forall j, 0 <= j < s -> src_bdx nn j = 4 + d + j).
  { intros j Hj. rewrite <- Hd. apply src_bdx_exact; rewrite ?Hd; lia. }
  split; [| split; [| split]].
  - intros i Hi. unfold dst_bdx. lia.
  - intros j Hj. rewrite (Hsrc j Hj). lia.
  - intros i j Hi Hj. rewrite (Hsrc j Hj). unfold dst_bdx. lia.
  - intros check ane from j dst Hj bdx addr Hmem Hfrom Hdst.
    unfold ane_send. rewrite Hs, (u32_small j) by lia.
    replace (s <=? j) with false by (symmetry; apply Z.leb_gt; lia).
    rewrite andb_false_r, (Hsrc j Hj).
    replace (Z.of_nat ANE_TILE_COUNT <=? 4 + d + j) with false
      by (symmetry; apply Z.leb_gt; lia).
    fold bdx. fold addr. unfold copy_to_map. rewrite Hmem.
    pose proof (tile_shift_nonneg (tile_of (to_anec nn) bdx)) as Hnn.
    fold (tile_size nn bdx) in Hnn.
    unfold map_write.
    replace (0 <=? tile_size nn bdx) with true by (symmetry; apply Z.leb_le; lia).
    replace (tile_size nn bdx <=? len from) with true
      by (symmetry; apply Z.leb_le; lia).
    replace (tile_size nn bdx <=? m_len dst) with true
      by (symmetry; apply Z.leb_le; lia).
    cbn [andb].
    eexists; eexists. split; [reflexivity |].
    cbn [mem mem_write trace m_len m_byte]. unfold mem_set.
    rewrite Z.eqb_refl. split; [reflexivity |]. split; [reflexivity |].
    split.
    { intros x Hx. cbn [m_byte].
      replace (0 <=? x) with true by (symmetry; apply Z.leb_le; lia).
      replace (x <? tile_size nn bdx) with true
        by (symmetry; apply Z.ltb_lt; lia).
      reflexivity. }
    split.
    { intros x Hx. cbn [m_byte].
      destruct (0 <=? x) eqn:E0; [| reflexivity].
      destruct (x <? tile_size nn bdx) eqn:E1; [| reflexivity].
      apply Z.leb_le in E0. apply Z.ltb_lt in E1. lia. }
    split; [| reflexivity].
    intros a Ha. apply Z.eqb_neq in Ha. rewrite Ha. reflexivity.
Qed.

End IndexFacts.

(** ** The model loader *)

Section LoaderFacts.

Lemma byte_at_zeros n i : byte_at (repeat zero_byte n) i = zero_byte.
Proof. unfold byte_at. apply nth_repeat. Qed.

Lemma len_zeros sz : 0 <= sz -> len (repeat zero_byte (Z.to_nat sz)) = sz.
Proof. intros. unfold len. rewrite repeat_length. lia. Qed.

Lemma fread_count_bounds st sz :
  0 <= sz ->
  0 <= fread_count st sz <= sz
  /\ fread_count st sz <= Z.max 0 (len (contents (st_file st)) - st_pos st).
Proof.
  intros Hsz. unfold fread_count.
  destruct (io_limit (st_file st)); lia.
Qed.

(** [fread] writes the bytes it delivers at the start of the destination
    and nothing else. *)
Lemma fread_spec data sz st :
  0 <= sz <= len data -> 0 <= st_pos st ->
  exists data',
    fread data sz st = Some (fread_count st sz, data')
    /\ len data' = len data
    /\ (forall i, 0 <= i < fread_count st sz ->
          byte_at data' i = byte_at (contents (st_file st)) (st_pos st + i))
    /\ (forall i, fread_count st sz <= i -> byte_at data' i = byte_at data i).
Proof.
  intros Hsz Hpos. unfold fread.
  destruct (fread_count_bounds st sz ltac:(lia)) as (Hn & Hav).
  set (n := fread_count st sz) in *.
  set (chunk := firstn (Z.to_nat n)
                       (skipn (Z.to_nat (st_pos st)) (contents (st_file st)))).
  assert (Hlen : len chunk = n).
  { unfold chunk, len in *. rewrite length_firstn, length_skipn. lia. }
  destruct (memcpy_some data 0 chunk 0 n) as [data' Hd]; try lia.
  rewrite Hd. exists data'. split; [reflexivity |].
  split; [apply (memcpy_len _ _ _ _ _ _ Hd) |]. split.
  - intros i Hi.
    rewrite (memcpy_inside _ _ _ _ _ _ i Hd) by lia.
    unfold chunk, byte_at. rewrite nth_firstn.
    replace (Z.to_nat (0 + (i - 0)) <? Z.to_nat n)%nat with true
      by (symmetry; apply Nat.ltb_lt; lia).
    rewrite nth_skipn. f_equal. lia.
  - intros i Hi. apply (memcpy_outside _ _ _ _ _ _ i Hd); lia.
Qed.

Variable sizeof_anec : Z.
Variable read_size : buffer -> Z.
Hypothesis sizeof_anec_nonneg : 0 <= sizeof_anec.
Hypothesis read_size_nonneg : forall b, 0 <= read_size b.

(** The load of a file that opens and seeks, on a host that grants the two
    blocks. *)
Lemma ane_model_init_run h path f rest :
  files h path = Some f -> seekable f = true ->
  malloc_script h = true :: true :: rest ->
  exists m,
    ane_model_init sizeof_anec read_size h path
    = Some (Some m, mk_host (files h) rest)
    /\ len (anec_bytes m) = sizeof_anec
    /\ len (payload m) = read_size (anec_bytes m)
    /\ (forall i, 0 <= i < fread_count (mk_stream f 0) sizeof_anec ->
          byte_at (anec_bytes m) i = byte_at (contents f) i)
    /\ (forall i, fread_count (mk_stream f 0) sizeof_anec <= i ->
          byte_at (anec_bytes m) i = zero_byte)
    /\ (forall i,
          0 <= i < fread_count (mk_stream f ANEC_SIZE)
                               (read_size (anec_bytes m)) ->
          byte_at (payload m) i = byte_at (contents f) (ANEC_SIZE + i))
    /\ (forall i,
          fread_count (mk_stream f ANEC_SIZE) (read_size (anec_bytes m)) <= i ->
          byte_at (payload m) i = zero_byte).
Proof.
  intros Hf Hseek Hm.
  unfold ane_model_init, ane_zmemalign, ane_zmalloc. rewrite Hm.
  unfold ane_fread, fopen_rb. cbn [files malloc_script]. rewrite Hf.
  destruct (fread_spec (repeat zero_byte (Z.to_nat sizeof_anec)) sizeof_anec
              (mk_stream f 0)) as (hdr & Eh & Hl & Hin & Hout).
  { rewrite len_zeros; lia. }
  { cbn. lia. }
  rewrite Eh. cbn [Z.ltb Z.compare].
  unfold ane_pread, fopen_rb, fseek_set. cbn [files]. rewrite Hf.
  cbn [st_file]. rewrite Hseek.
  destruct (fread_spec (repeat zero_byte (Z.to_nat (read_size hdr)))
              (read_size hdr) (mk_stream f ANEC_SIZE))
    as (pay & Ep & Hpl & Hpin & Hpout).
  { rewrite len_zeros; [pose proof (read_size_nonneg hdr); lia |].
    apply read_size_nonneg. }
  { cbn. unfold ANEC_SIZE. lia. }
  rewrite Ep. cbn [Z.ltb Z.compare].
  exists (mk_raw hdr pay). cbn [anec_bytes payload].
  rewrite len_zeros in Hl, Hpl by (try apply read_size_nonneg; lia).
  cbn [st_file st_pos] in *.
  split; [reflexivity |]. split; [exact Hl |]. split; [exact Hpl |].
  split; [intros i Hi; rewrite (Hin i Hi); f_equal |].
  split; [intros i Hi; rewrite (Hout i Hi); apply byte_at_zeros |].
  split; [exact Hpin |].
  intros i Hi. rewrite (Hpout i Hi). apply byte_at_zeros.
Qed.

End LoaderFacts.

Section LoaderClaims.

(** C7.  For a model file that opens, and seeks for the payload, on a host
    that grants the two blocks, however many bytes the file holds and
    however few each [fread] delivers: [ane_fread] and [ane_pread] return 0
    and [ane_model_init] returns a model. *)
Theorem short_read_is_not_fatal (sizeof_anec : Z) (read_size : buffer -> Z)
  (h : host) (path : String.string) (f : file) (rest : list bool) :
  0 <= sizeof_anec -> (forall b, 0 <= read_size b) ->
  files h path = Some f -> seekable f = true ->
  malloc_script h = true :: true :: rest ->
  (forall data sz, 0 <= sz <= len data ->
     exists data', ane_fread h path data sz = Some (0, data'))
  /\ (forall data sz off, 0 <= sz <= len data -> 0 <= off ->
        exists data', ane_pread h path data sz off = Some (0, data'))
  /\ exists m,
       ane_model_init sizeof_anec read_size h path
       = Some (Some m, mk_host (files h) rest).
Proof.
  intros Hsz Hrs Hf Hseek Hm. split; [| split].
  - intros data sz Hd. unfold ane_fread, fopen_rb. rewrite Hf.
    destruct (fread_spec data sz (mk_stream f 0) Hd ltac:(cbn; lia))
      as (data' & E & _).
    rewrite E. eauto.
  - intros data sz off Hd Hoff. unfold ane_pread, fopen_rb, fseek_set.
    rewrite Hf. cbn [st_file]. rewrite Hseek.
    destruct (fread_spec data sz (mk_stream f off) Hd ltac:(cbn; lia))
      as (data' & E & _).
    rewrite E. eauto.
  - destruct (ane_model_init_run sizeof_anec read_size Hsz Hrs h path f rest
                Hf Hseek Hm) as (m & E & _).
    eauto.
Qed.

(** C10.  In a model that [ane_model_init] returns, the header block has the
    size of [struct anec] and the payload block the size the header gives;
    each starts with the bytes its [fread] delivered, and every byte after
    them is zero. *)
Theorem loaded_model_is_zero_padded (sizeof_anec : Z) (read_size : buffer -> Z)
  (h h' : host) (path : String.string) (m : raw_model) :
  0 <= sizeof_anec -> (forall b, 0 <= read_size b) ->
  ane_model_init sizeof_anec read_size h path = Some (Some m, h') ->
  exists f,
    files h path = Some f
    /\ len (anec_bytes m) = sizeof_anec
    /\ len (payload m) = read_size (anec_bytes m)
    /\ (forall i, 0 <= i < fread_count (mk_stream f 0) sizeof_anec ->
          byte_at (anec_bytes m) i = byte_at (contents f) i)
    /\ (forall i, fread_count (mk_stream f 0) sizeof_anec <= i ->
          byte_at (anec_bytes m) i = zero_byte)
    /\ (forall i,
          0 <= i < fread_count (mk_stream f ANEC_SIZE)
                               (read_size (anec_bytes m)) ->
          byte_at (payload m) i = byte_at (contents f) (ANEC_SIZE + i))
    /\ (forall i,
          fread_count (mk_stream f ANEC_SIZE) (read_size (anec_bytes m)) <= i ->
          byte_at (payload m) i = zero_byte).
Proof.
  intros Hsz Hrs Hrun.
  destruct (files h path) as [f |] eqn:Hf.
  2:{ exfalso. unfold ane_model_init, ane_zmalloc, ane_fread, fopen_rb in Hrun.
      destruct (malloc_script h) as [| [|] ?]; cbn [files] in Hrun;
        rewrite ?Hf in Hrun; cbn in Hrun; discriminate. }
  destruct (malloc_script h) as [| [|] [| [|] rest]] eqn:Hm.
  1, 2, 4, 5, 6, 7:
    exfalso;
    unfold ane_model_init, ane_zmemalign, ane_zmalloc in Hrun;
    rewrite Hm in Hrun; cbn [malloc_script tl] in Hrun; try discriminate;
    destruct (ane_fread _ _ _ _) as [[e a] |]; try discriminate;
    destruct (e <? 0); discriminate.
  destruct (seekable f) eqn:Hseek.
  2:{ exfalso.
      unfold ane_model_init, ane_zmemalign, ane_zmalloc in Hrun.
      rewrite Hm in Hrun. cbn [malloc_script] in Hrun.
      destruct (ane_fread _ _ _ _) as [[e a] |]; try discriminate.
      destruct (e <? 0); try discriminate.
      unfold ane_pread, fopen_rb, fseek_set in Hrun. cbn [files] in Hrun.
      rewrite Hf in Hrun. cbn [st_file] in Hrun. rewrite Hseek in Hrun.
      cbn in Hrun. discriminate. }
  destruct (ane_model_init_run sizeof_anec read_size Hsz Hrs h path f rest
              Hf Hseek Hm) as (m0 & E & Hfacts).
  rewrite E in Hrun. inversion Hrun; subst.
  exists f. split; [reflexivity | exact Hfacts].
Qed.

End LoaderClaims.

(** ** Runs on concrete inputs *)

Section Runs.

Import Demo.

Lemma tile_untile_roundtrip_witness :
  exists t,
    Tiling.ane_tile dense garbage_tile 1 2 2 2 24 8 = Some t
    /\ Tiling.ane_untile stale_out t 1 2 2 2 24 8 = Some dense.
Proof.
  apply (tile_untile_roundtrip 1 2 2 2 24 8 dense garbage_tile stale_out);
    try (unfold is_u64; lia); try (vm_compute; lia);
    try (vm_compute; reflexivity); try (vm_compute; discriminate).
  vm_compute. split; [discriminate | reflexivity].
Defined.

Lemma untile_no_padding_leak_witness :
  exists d,
    Tiling.ane_untile stale_out garbage_tile 1 2 2 2 24 8 = Some d
    /\ len d = len stale_out.
Proof.
  destruct (untile_no_padding_leak 1 2 2 2 24 8 garbage_tile stale_out)
    as (z & d & _ & _ & _ & Hd & Hl & _);
    try (unfold is_u64; lia); try (vm_compute; lia);
    try (vm_compute; discriminate).
  - vm_compute. split; [discriminate | reflexivity].
  - exists d. split; assumption.
Defined.

Lemma bo_init_map_failure_frees_witness :
  exists bo' ane',
    ane_bo_init device_one (set_size zero_bo 0x4000) = (- EINVAL, bo', ane')
    /\ handle bo' = 0 /\ offset bo' = 0 /\ map bo' = NULL
    /\ trace ane' = [BoInit 0x4000 (Some (7, 0)); Mmap 0x4000 0 None; BoFree 7].
Proof.
  destruct (proj1 (bo_init_map_failure_frees device_one (set_size zero_bo 0x4000))
              ltac:(vm_compute; discriminate)
              _ _ _ _ _ _ eq_refl ltac:(vm_compute; discriminate)
              eq_refl ltac:(vm_compute; reflexivity))
    as (bo' & ane' & E & Hh & Ho & Hm & Ht & _).
  exists bo', ane'. repeat split; assumption.
Defined.

Lemma bo_free_releases_mapped_only_witness :
  ane_bo_free (snd allocated_only) (fst allocated_only) = allocated_only.
Proof.
  rewrite (proj1 (proj2 (bo_free_releases_mapped_only
                           (snd allocated_only) (fst allocated_only)))
             eq_refl).
  reflexivity.
Defined.

(** C6 as first stated fails: the buffer object [allocated_only] holds the
    allocation of handle 7, which the device granted and nobody freed, and
    has no mapping; [ane_bo_free] makes no request of the device for it. *)
Lemma bo_free_skips_unmapped_allocation :
  let bo := fst allocated_only in
  let ane := snd allocated_only in
  handle bo = 7 /\ map bo = NULL
  /\ trace ane = [BoInit 0x4000 (Some (7, 0))]
  /\ ~ In (BoFree 7) (trace (snd (ane_bo_free ane bo)))
  /\ trace (snd (ane_bo_free ane bo)) = trace ane.
Proof.
  cbv zeta. split; [reflexivity |]. split; [reflexivity |].
  split; [reflexivity |]. split; [| reflexivity].
  cbn. intros [H | []]. discriminate H.
Qed.

(** A rollback: the mapping of channel 4 is refused once channel 0 is
    live; the allocation of channel 4 is freed, then channel 0 is unmapped
    and freed, and channel 5 sees no request. *)
Example rollback_run :
  failed_err = - EINVAL
  /\ trace failed_device
     = [BoInit 0x4000 (Some (1, 0)); Mmap 0x4000 0 (Some 4096);
        BoInit 0x4000 (Some (2, 0x4000)); Mmap 0x4000 0x4000 None; BoFree 2;
        Munmap 4096 0x4000; BoFree 1].
Proof. vm_compute. split; reflexivity. Qed.

Lemma chan_init_rollback_witness :
  exists err nn' ane',
    ane_chan_init FIFO_NID device_map_fails (nn_zero model_demo)
    = Some (err, nn', ane')
    /\ err < 0 /\ Forall unmapped (chans nn')
    /\ ane_init_from_model FIFO_NID device_map_fails model_demo
       = Some (None, ane').
Proof.
  destruct (chan_init_rollback FIFO_NID device_map_fails model_demo 4)
    as (err & nn' & ane' & live & evs & E & He & Hn & Hun & _).
  - unfold ANE_TILE_COUNT. lia.
  - intros _. vm_compute. discriminate.
  - intros j Hj Ht.
    destruct j as [| [| [| [| j]]]]; try lia;
      try (exfalso; apply Ht; reflexivity).
    vm_compute. discriminate.
  - intros i Hi. change (present_before (anec model_demo) 4) with 1%nat in Hi.
    assert (i = 0%nat) by lia. subst i. split; discriminate.
  - right. right. reflexivity.
  - exists err, nn', ane'. repeat split; assumption.
Defined.

Lemma chan_init_allocates_present_witness :
  length (chans ok_nn) = ANE_TILE_COUNT
  /\ map (btsp_chan ok_nn) <> NULL
  /\ size (btsp_chan ok_nn) = 0x4000.
Proof.
  destruct (chan_init_allocates_present FIFO_NID device_ok model_demo
              ok_nn ok_device ltac:(vm_compute; reflexivity))
    as (Hl & _ & Hm & Hs & _).
  split; [exact Hl |]. split; [exact Hm |]. rewrite Hs. reflexivity.
Defined.

(** C2 as first stated fails twice.  On a task program whose first word is
    [0xF0000000], a successful [ane_chan_init] with the identifier [0x40]
    leaves the bootstrap word [0x00400000]: bit 31, set in the task program,
    is clear in the bootstrap word, where the mask [0xf00ffff] of [set_nid]
    drops bits 28-31.  With a task descriptor of two bytes, the program
    [11 22 33 44 ...] leaves the bootstrap word [0x00402211]: bit 26, set in
    the first word [0x44332211] of the program, is clear, for the bytes
    after the task descriptor are never copied. *)
Lemma bootstrap_word_differs :
  (ok_run = Some (0, ok_nn, ok_device)
   /\ first_word (data model_demo) = Some 0xF0000000
   /\ bootstrap_word ok_run = Some 0x00400000
   /\ Z.testbit 0xF0000000 31 = true
   /\ Z.testbit 0x00400000 31 = false)
  /\ (fst (fst (match short_td_run with
                 | Some r => r
                 | None => (1, ok_nn, ok_device)
                 end)) = 0
      /\ first_word (data model_short_td) = Some 0x44332211
      /\ bootstrap_word short_td_run = Some 0x00402211
      /\ Z.testbit 0x44332211 26 = true
      /\ Z.testbit 0x00402211 26 = false).
Proof. vm_compute. repeat split; reflexivity. Qed.

Lemma bootstrap_stamp_witness :
  exists td w,
    mem ok_device (map (btsp_chan ok_nn)) = Some td
    /\ load_u32 td = Some w
    /\ Z.land (Z.shiftr w 16) 0xff = FIFO_NID.
Proof.
  destruct (bootstrap_stamp FIFO_NID device_ok model_demo ok_nn ok_device
              ltac:(vm_compute; reflexivity) ltac:(vm_compute; discriminate))
    as (td & w0 & w & Hmem & Hw0 & Hld & _ & Hnid & _).
  exists td, w. split; [exact Hmem |]. split; [exact Hld |].
  apply Hnid. unfold FIFO_NID. lia.
Defined.

Lemma channel_index_arithmetic_witness :
  dst_bdx 0 = 4 /\ src_bdx ok_nn 0 = 5 /\ dst_bdx 0 <> src_bdx ok_nn 0.
Proof.
  destruct (channel_index_arithmetic ok_nn 1 1)
    as (Hdst & Hsrc & Hne & _);
    try (vm_compute; reflexivity); try (vm_compute; discriminate).
  split; [apply (Hdst 0); lia |].
  split; [apply (Hsrc 0); lia |].
  apply (Hne 0 0); lia.
Defined.

Lemma le64_nonneg (b : buffer) : 0 <= le64 b.
Proof. unfold le64, byte_val. lia. Qed.

Lemma short_read_is_not_fatal_witness :
  exists m,
    ane_model_init 16 le64 host_demo model_path = Some (Some m, mk_host (files host_demo) []).
Proof.
  apply (short_read_is_not_fatal 16 le64 host_demo model_path short_file []);
    try reflexivity; [lia | exact le64_nonneg].
Defined.

Lemma loaded_model_is_zero_padded_witness :
  exists f,
    files host_demo model_path = Some f
    /\ len (anec_bytes loaded_demo) = 16
    /\ len (payload loaded_demo) = le64 (anec_bytes loaded_demo).
Proof.
  destruct (loaded_model_is_zero_padded 16 le64 host_demo
              (mk_host (files host_demo) []) model_path loaded_demo
              ltac:(lia) le64_nonneg ltac:(vm_compute; reflexivity))
    as (f & Hf & Hl & Hp & _).
  exists f. repeat split; assumption.
Defined.

End Runs.

(** * Further properties *)

(** ** The tiling transform as a whole *)

(** A copy of bytes that are already there changes nothing. *)
Lemma memcpy_same dst doff src soff n :
  0 <= doff -> 0 <= soff -> 0 <= n ->
  soff + n <= len src -> doff + n <= len dst ->
  (forall w, 0 <= w < n -> byte_at dst (doff + w) = byte_at src (soff + w)) ->
  memcpy dst doff src soff n = Some dst.
Proof.
  intros Hd Hs Hn Hsrc Hdst Heq.
  destruct (memcpy_some dst doff src soff n Hd Hs Hn Hsrc Hdst) as [d Hc].
  rewrite Hc. f_equal. apply buffer_ext.
  - apply (memcpy_len _ _ _ _ _ _ Hc).
  - intros i Hi. rewrite (memcpy_len _ _ _ _ _ _ Hc) in Hi.
    destruct (Z_lt_ge_dec i doff) as [Hlt | Hge].
    + apply (memcpy_outside _ _ _ _ _ _ i Hc); lia.
    + destruct (Z_lt_ge_dec i (doff + n)) as [Hin | Hout].
      * rewrite (memcpy_inside _ _ _ _ _ _ i Hc) by lia.
        rewrite <- Heq by lia. f_equal. lia.
      * apply (memcpy_outside _ _ _ _ _ _ i Hc); lia.
Qed.

Section TilingMore.

Import Tiling.

Variables N C H W P R : Z.
Hypothesis HN : is_u64 N.
Hypothesis HC : is_u64 C.
Hypothesis HH : is_u64 H.
Hypothesis HW : is_u64 W.
Hypothesis HP : is_u64 P.
Hypothesis HR : is_u64 R.
Hypothesis HR0 : R <> 0.
Hypothesis HHle : H <= P / R.
Hypothesis HWle : W <= R / 2.
Hypothesis Hfit : N * C * (P / R) * (R / 2) * 2 < 2 ^ 64.

Local Set Default Proof Using "HN HC HH HW HP HR HR0 HHle HWle Hfit".

Let tpos := tile_row_pos H (P / R) (R / 2).
Let rows := N * C * H.

(** The rule of the loop nest of [ane_tile]: an invariant of the row copies
    holds once every row is copied. *)
Lemma tile_loop_inv (X : buffer) (Q : Z -> buffer -> Prop) (t0 : buffer) :
  Q 0 t0 ->
  (forall k t, 0 <= k < rows -> Q k t ->
     exists t', memcpy t (tpos k) X (k * (W * 2)) (W * 2) = Some t'
                /\ Q (k + 1) t') ->
  exists t, ane_tile X t0 N C H W P R = Some t /\ Q rows t.
Proof.
  intros H0 Hstep. unfold ane_tile.
  destruct (R =? 0) eqn:ER; [apply Z.eqb_eq in ER; contradiction |].
  rewrite (stride_exact N C H W P R) by assumption.
  change (R / sizeof_u16) with (R / 2).
  destruct (for_u64_inv (fun n t => Q (n * C * H) t)) with
    (bound := N) (s := t0)
    (body := fun n tile =>
      for_u64 C (fun c tile =>
        for_u64 H (fun h tile =>
          memcpy tile (row_offset C (P / R) (R / 2) n c h)
                 X (row_offset C H W n c h) (W * 2)) tile) tile)
    as (t & Hrun & Hinv).
  - unfold is_u64 in *; lia.
  - exact H0.
  - intros n t Hn Hinv.
    destruct (for_u64_inv (fun c t => Q ((n * C + c) * H) t)) with
      (bound := C) (s := t)
      (body := fun c tile =>
        for_u64 H (fun h tile =>
          memcpy tile (row_offset C (P / R) (R / 2) n c h)
                 X (row_offset C H W n c h) (W * 2)) tile)
      as (t1 & Hrun1 & Hinv1).
    + unfold is_u64 in *; lia.
    + replace ((n * C + 0) * H) with (n * C * H) by ring. exact Hinv.
    + intros c t1 Hc Hinv1.
      destruct (for_u64_inv (fun h t => Q ((n * C + c) * H + h) t)) with
        (bound := H) (s := t1)
        (body := fun h tile =>
          memcpy tile (row_offset C (P / R) (R / 2) n c h)
                 X (row_offset C H W n c h) (W * 2))
        as (t2 & Hrun2 & Hinv2).
      * unfold is_u64 in *; lia.
      * rewrite Z.add_0_r. exact Hinv1.
      * intros h t2 Hh Hinv2.
        rewrite (tile_offset N C H W P R), (dense_offset N C H W P R)
          by assumption.
        destruct (row_join N C H W P R HN HC HH HW HP HR HR0 HHle HWle Hfit
                    n c h Hn Hc Hh) as (Hk & _ & _).
        destruct (Hstep _ t2 Hk Hinv2) as (t3 & E & I).
        exists t3. split; [exact E |].
        replace ((n * C + c) * H + (h + 1)) with ((n * C + c) * H + h + 1)
          by ring.
        exact I.
      * exists t2. split; [exact Hrun2 |].
        replace ((n * C + (c + 1)) * H) with ((n * C + c) * H + H) by ring.
        exact Hinv2.
    + exists t1. split; [exact Hrun1 |].
      replace ((n + 1) * C * H) with ((n * C + C) * H) by ring.
      exact Hinv1.
  - exists t. split; [exact Hrun | exact Hinv].
Qed.

(** A cell of the tile is a byte of a row, and conversely. *)
Lemma cell_of_row r w :
  0 <= r < rows -> 0 <= w < W * 2 ->
  tile_cell N C H W (P / R) (R / 2) (tpos r + w).
Proof.
  intros Hr Hw.
  destruct (row_split N C H W P R HN HC HH HW HP HR HR0 HHle HWle Hfit r Hr)
    as (HposH & Hq & Hm).
  assert (HposC : 0 < C) by (unfold is_u64 in *; nia).
  pose proof (Z.div_mod (r / H) C ltac:(lia)).
  pose proof (Z.mod_pos_bound (r / H) C HposC).
  exists (r / H / C), (r / H mod C), (r mod H), w.
  split.
  { split; [apply Z.div_pos; lia |].
    apply Z.div_lt_upper_bound; [assumption | lia]. }
  split; [assumption |]. split; [assumption |]. split; [assumption |].
  unfold tpos, tile_row_pos.
  replace (r / H / C * C + r / H mod C) with (r / H) by lia.
  reflexivity.
Qed.

Lemma row_of_cell i :
  tile_cell N C H W (P / R) (R / 2) i ->
  exists r w, 0 <= r < rows /\ 0 <= w < W * 2 /\ i = tpos r + w.
Proof.
  intros (n & c & h & w & Hn & Hc & Hh & Hw & ->).
  destruct (row_join N C H W P R HN HC HH HW HP HR HR0 HHle HWle Hfit
              n c h Hn Hc Hh) as (Hk & Hq & Hm).
  exists ((n * C + c) * H + h), w.
  split; [exact Hk |]. split; [exact Hw |].
  unfold tpos, tile_row_pos. rewrite Hq, Hm. reflexivity.
Qed.

(** [ane_tile] in full: the rows of the dense tensor land in their cells,
    and every other byte of the tile is left as it was. *)
Lemma tile_spec (X t0 : buffer) :
  rows * (W * 2) <= len X ->
  N * C * (P / R) * (R / 2) * 2 <= len t0 ->
  exists t,
    ane_tile X t0 N C H W P R = Some t
    /\ len t = len t0
    /\ (forall r w, 0 <= r < rows -> 0 <= w < W * 2 ->
          byte_at t (tpos r + w) = byte_at X (r * (W * 2) + w))
    /\ (forall i, 0 <= i ->
          (forall r w, 0 <= r < rows -> 0 <= w < W * 2 -> i <> tpos r + w) ->
          byte_at t i = byte_at t0 i).
Proof.
  intros HX Ht0.
  destruct (tile_loop_inv X
    (fun k t =>
       len t = len t0
       /\ (forall r w, 0 <= r < k -> 0 <= w < W * 2 ->
             byte_at t (tpos r + w) = byte_at X (r * (W * 2) + w))
       /\ (forall i, 0 <= i ->
             (forall r w, 0 <= r < k -> 0 <= w < W * 2 -> i <> tpos r + w) ->
             byte_at t i = byte_at t0 i)) t0)
    as (t & Hrun & Hlen & Hrows & Hframe).
  - split; [reflexivity |]. split; [intros; lia | intros; reflexivity].
  - intros k t Hk (Hlen & Hrows & Hframe).
    pose proof (tpos_nonneg N C H W P R HN HC HH HW HP HR HR0 HHle HWle Hfit
                  k Hk) as Hp0.
    pose proof (tpos_bound N C H W P R HN HC HH HW HP HR HR0 HHle HWle Hfit
                  k Hk) as Hpb.
    fold tpos in Hp0, Hpb.
    assert (HW0 : 0 <= W) by (unfold is_u64 in *; lia).
    assert (Hsrc : (k + 1) * (W * 2) <= rows * (W * 2))
      by (apply Z.mul_le_mono_nonneg_r; lia).
    assert (Hk0 : 0 <= k * (W * 2)) by (apply Z.mul_nonneg_nonneg; lia).
    assert (Hex : exists t', memcpy t (tpos k) X (k * (W * 2)) (W * 2) = Some t')
      by (apply memcpy_some; lia).
    destruct Hex as [t' Ht'].
    exists t'. split; [exact Ht' |]. split; [| split].
    + rewrite (memcpy_len _ _ _ _ _ _ Ht'). exact Hlen.
    + intros r w Hr Hw.
      destruct (Z.eq_dec r k) as [-> | Hne].
      * rewrite (memcpy_inside _ _ _ _ _ _ (tpos k + w) Ht') by lia.
        f_equal. lia.
      * pose proof (tpos_mono N C H W P R HN HC HH HW HP HR HR0 HHle HWle
                      Hfit r k ltac:(lia) ltac:(lia)) as Hmono.
        pose proof (tpos_nonneg N C H W P R HN HC HH HW HP HR HR0 HHle HWle
                      Hfit r ltac:(lia)) as Hr0.
        fold tpos in Hmono, Hr0.
        rewrite (memcpy_outside _ _ _ _ _ _ (tpos r + w) Ht') by lia.
        apply Hrows; lia.
    + intros i Hi Hout.
      rewrite (memcpy_outside _ _ _ _ _ _ i Ht').
      * apply Hframe; [exact Hi |]. intros r w Hr Hw. apply Hout; lia.
      * exact Hi.
      * destruct (Z_lt_ge_dec i (tpos k)) as [Hlt | Hge]; [left; exact Hlt |].
        destruct (Z_lt_ge_dec i (tpos k + W * 2)) as [Hin | Hge2];
          [| right; lia].
        exfalso. apply (Hout k (i - tpos k)); lia.
  - exists t. repeat split; assumption.
Qed.

(** A tile that already holds the rows of [X] is a fixed point of
    [ane_tile]. *)
Lemma tile_fixpoint (X t : buffer) :
  rows * (W * 2) <= len X ->
  N * C * (P / R) * (R / 2) * 2 <= len t ->
  (forall r w, 0 <= r < rows -> 0 <= w < W * 2 ->
     byte_at t (tpos r + w) = byte_at X (r * (W * 2) + w)) ->
  ane_tile X t N C H W P R = Some t.
Proof.
  intros HX Ht Hrows.
  destruct (tile_loop_inv X (fun _ t' => t' = t) t eq_refl)
    as (t' & Hrun & ->); [| exact Hrun].
  intros k t' Hk ->. exists t. split; [| reflexivity].
  pose proof (tpos_nonneg N C H W P R HN HC HH HW HP HR HR0 HHle HWle Hfit
                k Hk) as Hp0.
  pose proof (tpos_bound N C H W P R HN HC HH HW HP HR HR0 HHle HWle Hfit
                k Hk) as Hpb.
  fold tpos in Hp0, Hpb.
  assert (HW0 : 0 <= W) by (unfold is_u64 in *; lia).
  assert (Hsrc : (k + 1) * (W * 2) <= rows * (W * 2))
    by (apply Z.mul_le_mono_nonneg_r; lia).
  assert (Hk0 : 0 <= k * (W * 2)) by (apply Z.mul_nonneg_nonneg; lia).
  apply memcpy_same; try lia.
  intros w Hw. apply Hrows; assumption.
Qed.

End TilingMore.

Section TilingMoreClaims.

Import Tiling.

(** X1.  [ane_tile] writes the cells of the tile and nothing else: it
    returns, the tile keeps its length, byte [w] of row [(n, c, h)] of the
    dense tensor lands at its padded position, and every byte of the tile
    that is not a cell (the padding columns and rows, and whatever follows
    the padded tensor) is as it was before the call. *)
Theorem ane_tile_writes_cells_only (N C H W P R : Z) (X tile : buffer) :
  is_u64 N -> is_u64 C -> is_u64 H -> is_u64 W -> is_u64 P -> is_u64 R ->
  R <> 0 -> H <= P / R -> W <= R / 2 ->
  N * C * H * (W * 2) <= len X ->
  N * C * (P / R) * (R / 2) * 2 <= len tile < 2 ^ 64 ->
  exists t,
    ane_tile X tile N C H W P R = Some t
    /\ len t = len tile
    /\ (forall n c h w,
          0 <= n < N -> 0 <= c < C -> 0 <= h < H -> 0 <= w < W * 2 ->
          byte_at t (((n * C + c) * (P / R) + h) * (R / 2) * 2 + w)
          = byte_at X (((n * C + c) * H + h) * (W * 2) + w))
    /\ (forall i, 0 <= i -> ~ tile_cell N C H W (P / R) (R / 2) i ->
          byte_at t i = byte_at tile i).
Proof.
  intros HN HC HH HW HP HR HR0 HHle HWle HX [Htile Hfit].
  destruct (tile_spec N C H W P R HN HC HH HW HP HR HR0 HHle HWle
              ltac:(lia) X tile HX Htile)
    as (t & Hrun & Hlen & Hrows & Hframe).
  exists t. split; [exact Hrun |]. split; [exact Hlen |]. split.
  - intros n c h w Hn Hc Hh Hw.
    destruct (row_join N C H W P R HN HC HH HW HP HR HR0 HHle HWle
                ltac:(lia) n c h Hn Hc Hh) as (Hk & Hq & Hm).
    rewrite <- (Hrows _ w Hk Hw). unfold tile_row_pos. rewrite Hq, Hm.
    reflexivity.
  - intros i Hi Hcell. apply Hframe; [exact Hi |].
    intros r w Hr Hw ->. apply Hcell.
    apply (cell_of_row N C H W P R); assumption || lia.
Qed.

(** X2.  [ane_tile] is idempotent: tiling the same tensor again onto the
    tile it produced returns that tile unchanged. *)
Theorem ane_tile_idempotent (N C H W P R : Z) (X tile t : buffer) :
  is_u64 N -> is_u64 C -> is_u64 H -> is_u64 W -> is_u64 P -> is_u64 R ->
  R <> 0 -> H <= P / R -> W <= R / 2 ->
  N * C * H * (W * 2) <= len X ->
  N * C * (P / R) * (R / 2) * 2 <= len tile < 2 ^ 64 ->
  ane_tile X tile N C H W P R = Some t ->
  ane_tile X t N C H W P R = Some t.
Proof.
  intros HN HC HH HW HP HR HR0 HHle HWle HX [Htile Hfit] Hrun.
  destruct (tile_spec N C H W P R HN HC HH HW HP HR HR0 HHle HWle
              ltac:(lia) X tile HX Htile)
    as (t1 & Hrun1 & Hlen & Hrows & _).
  rewrite Hrun1 in Hrun. inversion Hrun; subst t1.
  apply (tile_fixpoint N C H W P R); try assumption; lia.
Qed.

(** X3.  The round trip in the other direction: when [ane_untile] of a tile
    [T] returns the dense tensor [d], [ane_tile] of [d] onto [T] returns [T]
    itself, padding included. *)
Theorem untile_then_tile (N C H W P R : Z) (T d0 d : buffer) :
  is_u64 N -> is_u64 C -> is_u64 H -> is_u64 W -> is_u64 P -> is_u64 R ->
  R <> 0 -> H <= P / R -> W <= R / 2 ->
  N * C * H * (W * 2) <= len d0 ->
  N * C * (P / R) * (R / 2) * 2 <= len T < 2 ^ 64 ->
  ane_untile d0 T N C H W P R = Some d ->
  ane_tile d T N C H W P R = Some T.
Proof.
  intros HN HC HH HW HP HR HR0 HHle HWle Hd0 [HT Hfit] Hrun.
  destruct (ane_untile_run N C H W P R HN HC HH HW HP HR HR0 HHle HWle
              ltac:(lia) T d0 HT Hd0)
    as (d1 & Hrun1 & Hlen & Hrows & _).
  rewrite Hrun1 in Hrun. inversion Hrun; subst d1.
  apply (tile_fixpoint N C H W P R); try assumption; try lia.
  intros r w Hr Hw. symmetry. apply Hrows; assumption.
Qed.

(** X4.  [ane_untile] reads the cells of the tile and nothing else, and
    nothing of what its destination held: two tiles that agree on every
    cell, untiled into two destinations of the size of the tensor, give the
    same dense tensor. *)
Theorem untile_reads_cells_only (N C H W P R : Z) (T T' d0 d0' : buffer) :
  is_u64 N -> is_u64 C -> is_u64 H -> is_u64 W -> is_u64 P -> is_u64 R ->
  R <> 0 -> H <= P / R -> W <= R / 2 ->
  len d0 = N * C * H * (W * 2) -> len d0' = N * C * H * (W * 2) ->
  N * C * (P / R) * (R / 2) * 2 <= len T < 2 ^ 64 ->
  N * C * (P / R) * (R / 2) * 2 <= len T' ->
  (forall i, tile_cell N C H W (P / R) (R / 2) i ->
     byte_at T i = byte_at T' i) ->
  exists d,
    ane_untile d0 T N C H W P R = Some d
    /\ ane_untile d0' T' N C H W P R = Some d.
Proof.
  intros HN HC HH HW HP HR HR0 HHle HWle Hd0 Hd0' [HT Hfit] HT' Hagree.
  destruct (ane_untile_run N C H W P R HN HC HH HW HP HR HR0 HHle HWle
              ltac:(lia) T d0 HT ltac:(lia))
    as (d & Hrun & Hlen & Hrows & _).
  destruct (ane_untile_run N C H W P R HN HC HH HW HP HR HR0 HHle HWle
              ltac:(lia) T' d0' HT' ltac:(lia))
    as (d' & Hrun' & Hlen' & Hrows' & _).
  exists d. split; [exact Hrun |]. rewrite Hrun'. f_equal.
  apply buffer_ext; [lia |].
  intros i Hi.
  destruct (dense_split N C H W P R HN HC HH HW HP HR HR0 HHle HWle
              ltac:(lia) i ltac:(lia))
    as (r & w & Hr & Hw & ->).
  rewrite Hrows, Hrows' by assumption. symmetry. apply Hagree.
  apply (cell_of_row N C H W P R); assumption || lia.
Qed.

End TilingMoreClaims.

(** ** Buffer objects and channel sets over their life *)

Section LifeFacts.

Lemma clear_unmapped l :
  Forall unmapped l -> List.map (fun bo => set_map bo NULL) l = l.
Proof.
  induction 1 as [| bo l Hbo _ IH]; cbn; [reflexivity |].
  rewrite IH. f_equal. unfold unmapped in Hbo. rewrite <- Hbo.
  apply set_map_same.
Qed.

(** [ane_chan_free] on any channel set with a full channel array. *)
Lemma ane_chan_free_run ane nn :
  length (chans nn) = ANE_TILE_COUNT ->
  exists ane',
    ane_chan_free ane nn
    = (mk_nn (model nn) (List.map (fun bo => set_map bo NULL) (chans nn))
             (set_map (btsp_chan nn) NULL), ane')
    /\ trace ane' = trace ane ++ release_events (btsp_chan nn)
                              ++ flat_map release_events (chans nn).
Proof.
  intros Hlen. unfold ane_chan_free.
  pose proof (ane_bo_free_trace ane (btsp_chan nn)) as Hb.
  destruct (ane_bo_free ane (btsp_chan nn)) as [btsp ane1] eqn:E.
  cbn [snd] in Hb.
  rewrite ane_bo_free_spec in E. inversion E as [[Hbtsp Hane]].
  rewrite <- Hlen.
  destruct (free_chans_app (chans nn) [] ane1) as (ane' & Hrun & Htr).
  cbn [length app] in Hrun. rewrite Hane, Hrun.
  exists ane'. split; [reflexivity |].
  rewrite Htr, Hb, <- app_assoc. reflexivity.
Qed.

Lemma free_chans_unmapped :
  forall l2 l1 ane,
    Forall unmapped l2 ->
    free_chans (length l2) (length l1) ane (l1 ++ l2) = (l1 ++ l2, ane).
Proof.
  induction l2 as [| x t IH]; intros l1 ane Hun; [reflexivity |].
  inversion Hun as [| ? ? Hx Ht]; subst.
  cbn [length free_chans]. rewrite nth_app_len, ane_bo_free_spec.
  unfold unmapped in Hx. rewrite Hx. change (NULL =? NULL) with true.
  cbv beta iota. rewrite <- Hx, set_map_same.
  rewrite upd_app_len, (app_cons_assoc l1 x t), <- (length_snoc l1 x).
  apply IH. exact Ht.
Qed.

(** On a channel set with nothing mapped, [ane_chan_free] is the identity
    and makes no request. *)
Lemma ane_chan_free_unmapped ane nn :
  length (chans nn) = ANE_TILE_COUNT ->
  Forall unmapped (chans nn) -> unmapped (btsp_chan nn) ->
  ane_chan_free ane nn = (nn, ane).
Proof.
  intros Hlen Hun Hb. unfold ane_chan_free.
  rewrite ane_bo_free_spec. unfold unmapped in Hb. rewrite Hb.
  change (NULL =? NULL) with true. cbv beta iota.
  rewrite <- Hlen.
  pose proof (free_chans_unmapped (chans nn) [] ane Hun) as Hrun.
  cbn [length app] in Hrun. rewrite Hrun.
  rewrite <- Hb, set_map_same. destruct nn; reflexivity.
Qed.

(** A channel set whose bootstrap buffer would have size zero is never
    initialised. *)
Lemma zero_btsp_fails nid ane m :
  tile_align (td_size (anec m)) = 0 ->
  exists err nn' ane',
    ane_chan_init nid ane (nn_zero m) = Some (err, nn', ane') /\ err < 0.
Proof.
  intros Hz. unfold ane_chan_init, nn_zero, to_anec.
  cbn [model chans btsp_chan anec].
  destruct (init_chans ANE_TILE_COUNT 0 (anec m) ane
                       (repeat zero_bo ANE_TILE_COUNT))
    as [[err cs] ane1].
  destruct (err <? 0) eqn:E.
  - apply Z.ltb_lt in E.
    destruct (ane_chan_free ane1 (mk_nn m cs zero_bo)) as [nn' ane'].
    exists err, nn', ane'. split; [reflexivity | exact E].
  - unfold ane_bo_init at 1. cbn [size set_size]. rewrite Hz.
    change (0 =? 0) with true. cbv beta iota.
    change (- EINVAL <? 0) with true. cbv beta iota.
    match goal with
    | |- context [ane_chan_free ?a ?n] =>
        destruct (ane_chan_free a n) as [nn' ane']
    end.
    exists (- EINVAL), nn', ane'. split; [reflexivity |].
    unfold EINVAL. lia.
Qed.

(** The copies of [set_btsp_and_command], spelled out. *)
Lemma set_btsp_and_command_inv nid ane nn ane' :
  set_btsp_and_command nid ane nn = Some ane' ->
  exists c0 c0' b b' td,
    mem ane (map (chan nn 0)) = Some c0
    /\ map_write c0 (data (model nn)) (anec_size (to_anec nn)) = Some c0'
    /\ mem (mem_write ane (map (chan nn 0)) c0') (map (btsp_chan nn)) = Some b
    /\ map_write b (data (model nn)) (td_size (to_anec nn)) = Some b'
    /\ set_nid b' nid = Some td
    /\ ane' = mem_write
                (mem_write (mem_write ane (map (chan nn 0)) c0')
                           (map (btsp_chan nn)) b')
                (map (btsp_chan nn)) td.
Proof.
  unfold set_btsp_and_command, copy_to_map.
  destruct (mem ane (map (chan nn 0))) as [c0 |] eqn:E1; [| discriminate].
  destruct (map_write c0 _ _) as [c0' |] eqn:E2; [| discriminate].
  destruct (mem (mem_write ane _ c0') (map (btsp_chan nn))) as [b |] eqn:E3;
    [| discriminate].
  destruct (map_write b _ _) as [b' |] eqn:E4; [| discriminate].
  cbn [mem mem_write]. unfold mem_set at 1. rewrite Z.eqb_refl.
  destruct (set_nid b' nid) as [td |] eqn:E5; [| discriminate].
  intros E; inversion E. exists c0, c0', b, b', td.
  repeat split; assumption.
Qed.

Lemma map_write_inv dst src n dst' :
  map_write dst src n = Some dst' ->
  0 <= n /\ n <= len src /\ n <= m_len dst
  /\ m_len dst' = m_len dst
  /\ (forall i, 0 <= i < n -> m_byte dst' i = byte_at src i)
  /\ (forall i, ~ 0 <= i < n -> m_byte dst' i = m_byte dst i).
Proof.
  unfold map_write.
  destruct ((0 <=? n) && (n <=? len src) && (n <=? m_len dst)) eqn:Ec;
    [| discriminate].
  apply andb_prop in Ec. destruct Ec as [Ec E3].
  apply andb_prop in Ec. destruct Ec as [E1 E2].
  apply Z.leb_le in E1, E2, E3.
  intros E; inversion E; subst; cbn.
  repeat split; try assumption.
  - intros i Hi.
    replace (0 <=? i) with true by (symmetry; apply Z.leb_le; lia).
    replace (i <? n) with true by (symmetry; apply Z.ltb_lt; lia).
    reflexivity.
  - intros i Hi.
    destruct (0 <=? i) eqn:E0; [| reflexivity].
    destruct (i <? n) eqn:E4; [| reflexivity].
    apply Z.leb_le in E0. apply Z.ltb_lt in E4. lia.
Qed.

Lemma set_nid_inv td nid td' :
  set_nid td nid = Some td' ->
  4 <= m_len td /\ m_len td' = m_len td
  /\ (forall i, ~ 0 <= i < 4 -> m_byte td' i = m_byte td i).
Proof.
  unfold set_nid, load_u32, store_u32.
  destruct (4 <=? m_len td) eqn:E4; [| discriminate].
  apply Z.leb_le in E4.
  intros E; inversion E; subst; cbn.
  split; [exact E4 |]. split; [reflexivity |].
  intros i Hi.
  destruct (i =? 0) eqn:E0; [apply Z.eqb_eq in E0; lia |].
  destruct (i =? 1) eqn:E1; [apply Z.eqb_eq in E1; lia |].
  destruct (i =? 2) eqn:E2; [apply Z.eqb_eq in E2; lia |].
  destruct (i =? 3) eqn:E3; [apply Z.eqb_eq in E3; lia |].
  reflexivity.
Qed.

(** A second stamp replaces the first. *)
Lemma nid_word_twice hdr0 nid1 nid2 :
  nid_word (nid_word hdr0 nid1) nid2 = nid_word hdr0 nid2.
Proof.
  apply Z.bits_inj'. intros i Hi.
  rewrite !nid_word_bits by lia.
  destruct ((16 <=? i) && (i <? 24)) eqn:E; [reflexivity |].
  destruct ((i <? 16) || (24 <=? i) && (i <? 28)); reflexivity.
Qed.

(** What a successful [ane_chan_init] returns, with the run of
    [set_btsp_and_command] it ends with. *)
Lemma ane_chan_init_ok nid ane m nn' ane' :
  ane_chan_init nid ane (nn_zero m) = Some (0, nn', ane') ->
  model nn' = m
  /\ length (chans nn') = ANE_TILE_COUNT
  /\ (forall j, (j < ANE_TILE_COUNT)%nat ->
         chan_ok (anec m) j (nth j (chans nn') zero_bo) zero_bo)
  /\ map (btsp_chan nn') <> NULL
  /\ trace ane' = trace ane ++ flat_map acquire_events (chans nn')
                            ++ acquire_events (btsp_chan nn')
  /\ exists ane1, set_btsp_and_command nid ane1 nn' = Some ane'.
Proof.
  intros Hrun.
  destruct (ane_chan_init_cases nid ane m) as
    [(e & nn1 & ane1 & live & evs & Hinit & He & _)
    | (cs & btsp & ane1 & Hlen & Hok & Hmap & Hsz & Htr & Hinit)].
  { rewrite Hinit in Hrun. inversion Hrun; subst. lia. }
  rewrite Hinit in Hrun.
  destruct (set_btsp_and_command nid ane1 (mk_nn m cs btsp)) as [ane2 |] eqn:E;
    [| discriminate].
  inversion Hrun; subst. cbn [model chans btsp_chan].
  split; [reflexivity |]. split; [exact Hlen |]. split; [exact Hok |].
  split; [exact Hmap |]. split.
  - rewrite (set_btsp_and_command_trace _ _ _ _ E). exact Htr.
  - exists ane1. exact E.
Qed.

Lemma flat_map_nth_seq {A B} (f : A -> list B) (d : A) :
  forall l l1,
    flat_map f l
    = flat_map (fun i => f (nth i (l1 ++ l) d)) (seq (length l1) (length l)).
Proof.
  induction l as [| x t IH]; intros l1; [reflexivity |].
  cbn [length seq flat_map]. rewrite nth_app_len. f_equal.
  rewrite (IH (l1 ++ [x])), length_snoc, <- app_assoc. reflexivity.
Qed.

Lemma flat_map_seq_ext {B} (f g : nat -> list B) :
  forall n s,
    (forall i, (s <= i < s + n)%nat -> f i = g i) ->
    flat_map f (seq s n) = flat_map g (seq s n).
Proof.
  induction n as [| n IH]; intros s Hfg; [reflexivity |].
  cbn [seq flat_map]. rewrite (Hfg s) by lia. f_equal.
  apply IH. intros i Hi. apply Hfg. lia.
Qed.

End LifeFacts.

Section LifeClaims.

(** X5.  A buffer object over its life: when [ane_bo_init] returns 0 the
    size was not zero, the object is mapped, a mapping of that size is live
    at its address, and the device saw one allocation and one mapping; an
    [ane_bo_free] that follows unmaps that address and frees that handle,
    in this order, and leaves the object unmapped. *)
Theorem bo_init_then_free (ane : device) (bo bo' : ane_bo) (ane' : device) :
  ane_bo_init ane bo = (0, bo', ane') ->
  size bo <> 0 /\ size bo' = size bo /\ map bo' <> NULL
  /\ (exists m, mem ane' (map bo') = Some m /\ m_len m = size bo)
  /\ trace ane'
     = trace ane ++ [BoInit (size bo) (Some (handle bo', offset bo'));
                     Mmap (size bo) (offset bo') (Some (map bo'))]
  /\ exists ane'',
       ane_bo_free ane' bo' = (set_map bo' NULL, ane'')
       /\ trace ane''
          = trace ane ++ [BoInit (size bo) (Some (handle bo', offset bo'));
                          Mmap (size bo) (offset bo') (Some (map bo'));
                          Munmap (map bo') (size bo); BoFree (handle bo')]
       /\ mem ane'' (map bo') = None.
Proof.
  unfold ane_bo_init. destruct (size bo =? 0) eqn:Esz.
  { intros E; inversion E. }
  apply Z.eqb_neq in Esz.
  unfold bo_init, ioctl_bo_init.
  destruct (bo_init_script ane) as [| [[h off] |] rest] eqn:Escript;
    cbn [fst snd tl]; cbn; try (intros E; inversion E; fail).
  unfold bo_mmap, sys_mmap; cbn.
  destruct (mmap_script ane) as [| [p |] mrest] eqn:Emap; cbn;
    try (intros E; inversion E; fail).
  intros E; inversion E; subst; cbn.
  split; [exact Esz |]. split; [reflexivity |]. split; [unfold NULL; lia |].
  split.
  { eexists. unfold mem_set. rewrite Z.eqb_refl. split; reflexivity. }
  split; [rewrite <- !app_assoc; reflexivity |].
  rewrite ane_bo_free_spec. cbn.
  eexists. split; [reflexivity |]. cbn. split.
  - unfold release_events. cbn. rewrite <- !app_assoc. reflexivity.
  - unfold mem_set. rewrite Z.eqb_refl. reflexivity.
Qed.

(** X6.  [ane_chan_free] releases every mapped buffer object of a channel
    set, the bootstrap buffer first and then the channels in order, each by
    an unmap followed by a free, and makes no request for an unmapped one.
    It leaves every buffer object unmapped, and a second [ane_chan_free]
    changes nothing and makes no request. *)
Theorem chan_free_releases_all (ane : device) (nn : ane_nn) :
  length (chans nn) = ANE_TILE_COUNT ->
  exists nn' ane',
    ane_chan_free ane nn = (nn', ane')
    /\ trace ane' = trace ane ++ release_events (btsp_chan nn)
                              ++ flat_map release_events (chans nn)
    /\ model nn' = model nn
    /\ length (chans nn') = ANE_TILE_COUNT
    /\ Forall unmapped (chans nn') /\ unmapped (btsp_chan nn')
    /\ ane_chan_free ane' nn' = (nn', ane').
Proof.
  intros Hlen.
  destruct (ane_chan_free_run ane nn Hlen) as (ane' & Hrun & Htr).
  eexists; exists ane'. split; [exact Hrun |]. split; [exact Htr |].
  cbn [model chans btsp_chan].
  split; [reflexivity |]. split; [rewrite length_map; exact Hlen |].
  split; [apply Forall_unmapped_map |]. split; [reflexivity |].
  apply ane_chan_free_unmapped; cbn [chans btsp_chan].
  - rewrite length_map. exact Hlen.
  - apply Forall_unmapped_map.
  - reflexivity.
Qed.

(** X7.  Initialisation and release balance: after a successful
    [ane_chan_init], [ane_chan_free] undoes every acquisition.  The requests
    the device has seen are one allocation and one mapping per live buffer
    object, then one unmap and one free for each of the same buffer
    objects, the bootstrap buffer first; no buffer object is left mapped. *)
Theorem init_then_free_balanced (nid : Z) (ane : device) (m : ane_model)
  (nn' : ane_nn) (ane' : device) :
  ane_chan_init nid ane (nn_zero m) = Some (0, nn', ane') ->
  exists nn'' ane'',
    ane_chan_free ane' nn' = (nn'', ane'')
    /\ trace ane''
       = trace ane ++ flat_map acquire_events (chans nn')
                   ++ acquire_events (btsp_chan nn')
                   ++ release_events (btsp_chan nn')
                   ++ flat_map release_events (chans nn')
    /\ Forall unmapped (chans nn'') /\ unmapped (btsp_chan nn'').
Proof.
  intros Hrun.
  destruct (ane_chan_init_ok nid ane m nn' ane' Hrun)
    as (_ & Hlen & _ & _ & Htr & _).
  destruct (ane_chan_free_run ane' nn' Hlen) as (ane'' & Hfree & Htr2).
  eexists; exists ane''. split; [exact Hfree |]. split.
  - rewrite Htr2, Htr, <- !app_assoc. reflexivity.
  - cbn [chans btsp_chan]. split; [apply Forall_unmapped_map | reflexivity].
Qed.

(** X8.  A model whose task descriptor has size zero is never instantiated:
    the bootstrap buffer would have size zero, so [ane_chan_init] returns a
    negative error, whatever the device grants, and leaves no buffer object
    mapped. *)
Theorem zero_td_size_never_inits (nid : Z) (ane : device) (m : ane_model) :
  td_size (anec m) = 0 ->
  exists err nn' ane',
    ane_chan_init nid ane (nn_zero m) = Some (err, nn', ane')
    /\ err < 0
    /\ Forall unmapped (chans nn') /\ unmapped (btsp_chan nn')
    /\ ane_init_from_model nid ane m = Some (None, ane').
Proof.
  intros Htd.
  destruct (zero_btsp_fails nid ane m) as (err & nn' & ane' & Hrun & Herr).
  { rewrite Htd. reflexivity. }
  exists err, nn', ane'. split; [exact Hrun |]. split; [exact Herr |].
  destruct (ane_chan_init_cases nid ane m) as
    [(e & nn1 & ane1 & live & evs & Hinit & He & Hun & _ & Hb & _)
    | (cs & btsp & ane1 & _ & _ & _ & _ & _ & Hinit)].
  - rewrite Hinit in Hrun. inversion Hrun; subst.
    split; [exact Hun |]. split; [exact Hb |].
    unfold ane_init_from_model. rewrite Hinit.
    replace (err <? 0) with true by (symmetry; apply Z.ltb_lt; lia).
    reflexivity.
  - rewrite Hinit in Hrun.
    destruct (set_btsp_and_command nid ane1 (mk_nn m cs btsp));
      [inversion Hrun; subst; lia | discriminate].
Qed.

(** X9.  After a successful [ane_chan_init] whose channel 0 and bootstrap
    buffer are mapped at different addresses, the mapping of channel 0
    starts with the whole task program ([anec->size] bytes of the payload),
    and the bootstrap mapping holds the first [td_size] bytes of the payload
    but for its first word; both lengths lie within the payload. *)
Theorem task_program_is_loaded (nid : Z) (ane : device) (m : ane_model)
  (nn' : ane_nn) (ane' : device) :
  ane_chan_init nid ane (nn_zero m) = Some (0, nn', ane') ->
  map (chan nn' 0) <> map (btsp_chan nn') ->
  anec_size (anec m) <= len (data m)
  /\ td_size (anec m) <= len (data m)
  /\ exists c0 td,
       mem ane' (map (chan nn' 0)) = Some c0
       /\ mem ane' (map (btsp_chan nn')) = Some td
       /\ (forall i, 0 <= i < anec_size (anec m) ->
             m_byte c0 i = byte_at (data m) i)
       /\ (forall i, 4 <= i < td_size (anec m) ->
             m_byte td i = byte_at (data m) i).
Proof.
  intros Hrun Hne.
  destruct (ane_chan_init_ok nid ane m nn' ane' Hrun)
    as (Hm & _ & _ & _ & _ & ane1 & Hset).
  destruct (set_btsp_and_command_inv _ _ _ _ Hset)
    as (c0 & c0' & b & b' & td & Hc0 & Hw0 & Hb & Hwb & Hnid & ->).
  unfold to_anec in *. rewrite Hm in *.
  destruct (map_write_inv _ _ _ _ Hw0) as (_ & Hl0 & _ & _ & Hin0 & _).
  destruct (map_write_inv _ _ _ _ Hwb) as (_ & Hlb & _ & _ & Hinb & _).
  destruct (set_nid_inv _ _ _ Hnid) as (_ & _ & Hkeep).
  split; [exact Hl0 |]. split; [exact Hlb |].
  exists c0', td. cbn [mem mem_write]. unfold mem_set.
  rewrite Z.eqb_refl.
  replace (map (chan nn' 0) =? map (btsp_chan nn')) with false
    by (symmetry; apply Z.eqb_neq; exact Hne).
  rewrite Z.eqb_refl.
  split; [reflexivity |]. split; [reflexivity |]. split; [exact Hin0 |].
  intros i Hi. rewrite Hkeep by lia. apply Hinb. lia.
Qed.

(** X10.  [set_nid] touches the first word of the task descriptor only: it
    needs four bytes, keeps the length and every byte from offset 4 on, and
    when it is applied again with another identifier, the word it leaves is
    the one a single stamp with that identifier gives. *)
Theorem set_nid_restamps (td td1 td2 : mapping) (nid1 nid2 : Z) :
  set_nid td nid1 = Some td1 ->
  set_nid td1 nid2 = Some td2 ->
  4 <= m_len td /\ m_len td2 = m_len td
  /\ (forall i, ~ 0 <= i < 4 -> m_byte td2 i = m_byte td i)
  /\ exists td', set_nid td nid2 = Some td' /\ load_u32 td2 = load_u32 td'.
Proof.
  intros H1 H2.
  destruct (set_nid_inv _ _ _ H1) as (Hlen & Hl1 & Hk1).
  destruct (set_nid_inv _ _ _ H2) as (_ & Hl2 & Hk2).
  split; [exact Hlen |]. split; [lia |]. split.
  { intros i Hi. rewrite Hk2, Hk1 by exact Hi. reflexivity. }
  assert (Hex : exists td', set_nid td nid2 = Some td').
  { unfold set_nid, load_u32, store_u32.
    replace (4 <=? m_len td) with true by (symmetry; apply Z.leb_le; lia).
    eauto. }
  destruct Hex as [td' H'].
  exists td'. split; [exact H' |].
  rewrite (set_nid_word _ _ _ H2), (set_nid_word _ _ _ H').
  pose proof (set_nid_word _ _ _ H1) as Hw1.
  unfold load_u32 in Hw1.
  replace (4 <=? m_len td1) with true in Hw1
    by (symmetry; apply Z.leb_le; lia).
  inversion Hw1 as [Hw]. rewrite Hw. rewrite nid_word_twice. reflexivity.
Qed.

(** X11.  After a successful [ane_chan_init], [ane_exec] submits one handle
    per absolute channel index: 0 for an absent channel, and for a present
    channel the handle the device answered to the allocation made for that
    very channel.  The requests the device has seen since the call are, in
    index order, one allocation of the tile size and one mapping per present
    channel and then those of the bootstrap buffer, and the handle each
    allocation was answered with is the one submitted at that index
    (the bootstrap handle for the last); the sizes are those of the
    descriptor. *)
Theorem exec_submits_granted_handles (nid : Z) (ane : device) (m : ane_model)
  (nn' : ane_nn) (ane' : device) :
  ane_chan_init nid ane (nn_zero m) = Some (0, nn', ane') ->
  let args := submit_args nn' in
  length (sub_handles args) = ANE_TILE_COUNT
  /\ sub_td_size args = td_size (anec m)
  /\ sub_td_count args = td_count (anec m)
  /\ sub_tsk_size args = tsk_size (anec m)
  /\ (forall bdx, (bdx < ANE_TILE_COUNT)%nat ->
        tile_of (anec m) bdx = 0 -> nth bdx (sub_handles args) 0 = 0)
  /\ trace ane'
     = trace ane
       ++ flat_map
            (fun bdx =>
               if tile_of (anec m) bdx =? 0 then []
               else [BoInit (tile_shift (tile_of (anec m) bdx))
                            (Some (nth bdx (sub_handles args) 0,
                                   offset (chan nn' bdx)));
                     Mmap (tile_shift (tile_of (anec m) bdx))
                          (offset (chan nn' bdx))
                          (Some (map (chan nn' bdx)))])
            (seq 0 ANE_TILE_COUNT)
       ++ [BoInit (tile_align (td_size (anec m)))
                  (Some (sub_btsp_handle args, offset (btsp_chan nn')));
           Mmap (tile_align (td_size (anec m))) (offset (btsp_chan nn'))
                (Some (map (btsp_chan nn')))].
Proof.
  intros Hrun args.
  destruct (ane_chan_init_ok nid ane m nn' ane' Hrun)
    as (Hm & Hlen & Hok & Hmap & Htr & _).
  assert (Hsz : size (btsp_chan nn') = tile_align (td_size (anec m))).
  { destruct (ane_chan_init_cases nid ane m) as
      [(e & nn1 & ane1 & live & evs & Hinit & He & _)
      | (cs & btsp & ane1 & _ & _ & _ & Hsz & _ & Hinit)].
    - rewrite Hinit in Hrun. inversion Hrun; subst. lia.
    - rewrite Hinit in Hrun.
      destruct (set_btsp_and_command nid ane1 (mk_nn m cs btsp));
        [| discriminate].
      inversion Hrun; subst. exact Hsz. }
  subst args. unfold submit_args, to_anec. rewrite Hm.
  cbn [sub_handles sub_td_size sub_td_count sub_tsk_size sub_btsp_handle].
  set (f := fun bdx0 : nat => if tile_of (anec m) bdx0 =? 0 then 0
                              else handle (chan nn' bdx0)).
  assert (Hnth : forall bdx, (bdx < ANE_TILE_COUNT)%nat ->
                   nth bdx (List.map f (seq 0 ANE_TILE_COUNT)) 0 = f bdx).
  { intros bdx Hb. rewrite (nth_indep _ 0 (f O))
      by (rewrite length_map, length_seq; exact Hb).
    rewrite (map_nth f), seq_nth by exact Hb. reflexivity. }
  split; [rewrite length_map, length_seq; reflexivity |].
  split; [reflexivity |]. split; [reflexivity |]. split; [reflexivity |].
  split.
  { intros bdx Hb Ht. rewrite (Hnth bdx Hb). unfold f. rewrite Ht.
    reflexivity. }
  rewrite Htr. f_equal. f_equal.
  - rewrite (flat_map_nth_seq acquire_events zero_bo (chans nn') []).
    cbn [length app]. rewrite Hlen.
    apply flat_map_seq_ext. intros i Hi.
    assert (Hi' : (i < ANE_TILE_COUNT)%nat) by lia.
    specialize (Hok i Hi'). unfold chan_ok in Hok.
    rewrite (Hnth i Hi'). unfold f, chan.
    destruct (tile_of (anec m) i =? 0).
    + rewrite Hok. reflexivity.
    + destruct Hok as (Hmp & Hs). unfold acquire_events.
      apply Z.eqb_neq in Hmp. rewrite Hmp, Hs. reflexivity.
  - unfold acquire_events. apply Z.eqb_neq in Hmap. rewrite Hmap, Hsz.
    reflexivity.
Qed.

End LifeClaims.

(** ** Channel accessors and tiled transfers *)

Section AccessFacts.

Lemma u32_negative z : - 2 ^ 32 <= z < 0 -> u32 z = z + 2 ^ 32.
Proof.
  intros Hz. unfold u32.
  rewrite <- (Z.mod_add z 1 (2 ^ 32)) by lia.
  rewrite Z.mul_1_l. apply Z.mod_small. lia.
Qed.

(** The index check compares the [int] index as an unsigned 32-bit
    number. *)
Lemma index_check_unsigned idx :
  - 2 ^ 31 <= idx < 2 ^ 31 ->
  u32 idx = if idx <? 0 then idx + 2 ^ 32 else idx.
Proof.
  intros Hi. destruct (idx <? 0) eqn:E.
  - apply Z.ltb_lt in E. apply u32_negative. lia.
  - apply Z.ltb_ge in E. apply u32_small. lia.
Qed.

Lemma map_read_inv src n bytes :
  map_read src n = Some bytes ->
  0 <= n <= m_len src /\ len bytes = n
  /\ (forall x, 0 <= x < n -> byte_at bytes x = m_byte src x).
Proof.
  unfold map_read.
  destruct ((0 <=? n) && (n <=? m_len src)) eqn:Ec; [| discriminate].
  apply andb_prop in Ec. destruct Ec as [E1 E2]. apply Z.leb_le in E1, E2.
  intros E; inversion E; subst. split; [lia |]. split.
  - unfold len. rewrite length_map, length_seq. lia.
  - intros x Hx. unfold byte_at.
    set (f := fun k : nat => m_byte src (Z.of_nat k)).
    rewrite (nth_indep _ zero_byte (f O))
      by (rewrite length_map, length_seq; lia).
    rewrite (map_nth f), seq_nth by lia. unfold f. f_equal. lia.
Qed.

Lemma map_read_some src n :
  0 <= n <= m_len src -> exists bytes, map_read src n = Some bytes.
Proof.
  intros Hn. unfold map_read.
  replace (0 <=? n) with true by (symmetry; apply Z.leb_le; lia).
  replace (n <=? m_len src) with true by (symmetry; apply Z.leb_le; lia).
  cbn. eauto.
Qed.

Lemma tile_size_range nn b : 0 <= tile_size nn b < 2 ^ 64.
Proof. unfold tile_size, tile_shift, u64. apply Z.mod_pos_bound. lia. Qed.

End AccessFacts.

Section AccessClaims.

(** X12.  The index check, when compiled in, compares the [int] index with
    the [uint32_t] count as unsigned numbers: the index is seen as itself
    when it is not negative and as [idx + 2^32] when it is.  An index seen
    as not below the count is turned away before any channel is touched:
    [__ane_send] leaves the device as it was, [__ane_read] leaves the
    caller's buffer as it was, the channel accessors return [NULL] and the
    size accessors 0.  An index seen as below the count passes, and each
    function then does what it does without the check; this is so for a
    negative index when the count exceeds [idx + 2^32]. *)
Theorem index_check_rejects (nn : ane_nn) (idx : Z) :
  - 2 ^ 31 <= idx < 2 ^ 31 ->
  let seen := if idx <? 0 then idx + 2 ^ 32 else idx in
  (src_count (to_anec nn) <= seen ->
   (forall ane from, ane_send true ane nn from idx = Some ane)
   /\ ane_src_chan true nn idx = Some NULL
   /\ ane_src_size true nn idx = Some 0)
  /\ (seen < src_count (to_anec nn) ->
      (forall ane from,
         ane_send true ane nn from idx = ane_send false ane nn from idx)
      /\ ane_src_chan true nn idx = ane_src_chan false nn idx
      /\ ane_src_size true nn idx = ane_src_size false nn idx)
  /\ (dst_count (to_anec nn) <= seen ->
      (forall ane to, ane_read true ane nn to idx = Some to)
      /\ ane_dst_chan true nn idx = Some NULL
      /\ ane_dst_size true nn idx = Some 0)
  /\ (seen < dst_count (to_anec nn) ->
      (forall ane to,
         ane_read true ane nn to idx = ane_read false ane nn to idx)
      /\ ane_dst_chan true nn idx = ane_dst_chan false nn idx
      /\ ane_dst_size true nn idx = ane_dst_size false nn idx).
Proof.
  intros Hi seen. subst seen.
  rewrite <- (index_check_unsigned idx Hi).
  unfold ane_send, ane_src_chan, ane_src_size,
         ane_read, ane_dst_chan, ane_dst_size.
  split; [| split; [| split]]; intros Hc.
  - replace (src_count (to_anec nn) <=? u32 idx) with true
      by (symmetry; apply Z.leb_le; exact Hc).
    cbn [andb]. repeat split; reflexivity.
  - replace (src_count (to_anec nn) <=? u32 idx) with false
      by (symmetry; apply Z.leb_gt; exact Hc).
    cbn [andb]. repeat split; reflexivity.
  - replace (dst_count (to_anec nn) <=? u32 idx) with true
      by (symmetry; apply Z.leb_le; exact Hc).
    cbn [andb]. repeat split; reflexivity.
  - replace (dst_count (to_anec nn) <=? u32 idx) with false
      by (symmetry; apply Z.leb_gt; exact Hc).
    cbn [andb]. repeat split; reflexivity.
Qed.

(** X13.  In a channel set whose [d] destinations and [s] sources fit the
    channel array, the accessors agree with the transfers, with or without
    the index check: for a destination index [i], [__ane_dst_chan] is the
    address of channel [4 + i] and [__ane_dst_size] the size of its tile,
    and [__ane_read] copies that many bytes from that mapping to the start
    of the caller's buffer and leaves the rest of it; for a source index
    [j], [__ane_src_chan] and [__ane_src_size] are the address and the tile
    size of channel [4 + d + j]. *)
Theorem accessors_agree (nn : ane_nn) (d s : Z) (check : bool) :
  dst_count (to_anec nn) = d -> src_count (to_anec nn) = s ->
  0 <= d -> 0 <= s -> 4 + d + s <= Z.of_nat ANE_TILE_COUNT ->
  (forall i, 0 <= i < d ->
     let bdx := Z.to_nat (4 + i) in
     ane_dst_chan check nn i = Some (map (chan nn bdx))
     /\ ane_dst_size check nn i = Some (tile_size nn bdx)
     /\ forall ane to src,
          mem ane (map (chan nn bdx)) = Some src ->
          tile_size nn bdx <= m_len src ->
          tile_size nn bdx <= len to ->
          exists to',
            ane_read check ane nn to i = Some to'
            /\ len to' = len to
            /\ (forall x, 0 <= x < tile_size nn bdx ->
                  byte_at to' x = m_byte src x)
            /\ (forall x, tile_size nn bdx <= x ->
                  byte_at to' x = byte_at to x))
  /\ (forall j, 0 <= j < s ->
        let bdx := Z.to_nat (4 + d + j) in
        ane_src_chan check nn j = Some (map (chan nn bdx))
        /\ ane_src_size check nn j = Some (tile_size nn bdx)).
Proof.
  intros Hd Hs Hd0 Hs0 Hfit.
  assert (H64 : Z.of_nat ANE_TILE_COUNT = 64) by reflexivity.
  split.
  - intros i Hi bdx.
    assert (Echeck : check && (d <=? u32 i) = false).
    { rewrite u32_small by lia.
      replace (d <=? i) with false by (symmetry; apply Z.leb_gt; lia).
      apply andb_false_r. }
    assert (Ebdx : (dst_bdx i <? 0) || (Z.of_nat ANE_TILE_COUNT <=? dst_bdx i)
                   = false).
    { unfold dst_bdx.
      replace (4 + i <? 0) with false by (symmetry; apply Z.ltb_ge; lia).
      replace (Z.of_nat ANE_TILE_COUNT <=? 4 + i) with false
        by (symmetry; apply Z.leb_gt; lia).
      reflexivity. }
    unfold ane_dst_chan, ane_dst_size, ane_read.
    rewrite Hd, Echeck, Ebdx. unfold dst_bdx. fold bdx.
    split; [reflexivity |]. split; [reflexivity |].
    intros ane to src Hmem Hsrc Hto. rewrite Hmem.
    pose proof (tile_size_range nn bdx) as Hr.
    destruct (map_read_some src (tile_size nn bdx) ltac:(lia)) as [bytes Hb].
    rewrite Hb.
    destruct (map_read_inv _ _ _ Hb) as (_ & Hlen & Hbytes).
    destruct (memcpy_some to 0 bytes 0 (tile_size nn bdx)) as [to' Hc];
      try lia.
    exists to'. split; [exact Hc |].
    split; [apply (memcpy_len _ _ _ _ _ _ Hc) |]. split.
    + intros x Hx. rewrite (memcpy_inside _ _ _ _ _ _ x Hc) by lia.
      rewrite <- Hbytes by lia. f_equal. lia.
    + intros x Hx. apply (memcpy_outside _ _ _ _ _ _ x Hc); lia.
  - intros j Hj bdx.
    unfold ane_src_chan, ane_src_size.
    rewrite Hs, (u32_small j) by lia.
    replace (s <=? j) with false by (symmetry; apply Z.leb_gt; lia).
    rewrite andb_false_r.
    assert (Hsrc : src_bdx nn j = 4 + d + j).
    { rewrite <- Hd. apply src_bdx_exact; rewrite ?Hd; lia. }
    rewrite Hsrc.
    replace (Z.of_nat ANE_TILE_COUNT <=? 4 + d + j) with false
      by (symmetry; apply Z.leb_gt; lia).
    fold bdx. split; reflexivity.
Qed.

End AccessClaims.

Section TiledTransferClaims.

Import Tiling.

(** X14.  [__ane_tile_send] for a source index that addresses the mapped
    channel [b], whose shape the descriptor gives and whose padded tensor
    fits the tile size: the mapping of the channel receives a clean tile.
    Its cells hold the rows of the caller's tensor, every other byte of
    the first [tile_size] bytes is zero, and the bytes after them, the
    other mappings and the requests of the device are as they were. *)
Theorem tile_send_fills_channel (ane : device) (nn : ane_nn) (from : buffer)
  (idx : Z) (b : nat) (dst : mapping) :
  let a := to_anec nn in
  let N := nchw_of a b 0 in let C := nchw_of a b 1 in
  let H := nchw_of a b 2 in let W := nchw_of a b 3 in
  let P := nchw_of a b 4 in let R := nchw_of a b 5 in
  src_bdx nn idx = Z.of_nat b -> (b < ANE_TILE_COUNT)%nat ->
  is_u64 N -> is_u64 C -> is_u64 H -> is_u64 W -> is_u64 P -> is_u64 R ->
  R <> 0 -> H <= P / R -> W <= R / 2 ->
  N * C * H * (W * 2) <= len from ->
  N * C * (P / R) * (R / 2) * 2 <= tile_size nn b ->
  mem ane (map (chan nn b)) = Some dst ->
  tile_size nn b <= m_len dst ->
  exists ane' dst',
    ane_tile_send ane nn from idx = Some ane'
    /\ mem ane' (map (chan nn b)) = Some dst'
    /\ m_len dst' = m_len dst
    /\ (forall n c h w,
          0 <= n < N -> 0 <= c < C -> 0 <= h < H -> 0 <= w < W * 2 ->
          m_byte dst' (((n * C + c) * (P / R) + h) * (R / 2) * 2 + w)
          = byte_at from (((n * C + c) * H + h) * (W * 2) + w))
    /\ (forall i, 0 <= i < tile_size nn b ->
          ~ tile_cell N C H W (P / R) (R / 2) i ->
          m_byte dst' i = zero_byte)
    /\ (forall i, ~ 0 <= i < tile_size nn b -> m_byte dst' i = m_byte dst i)
    /\ (forall x, x <> map (chan nn b) -> mem ane' x = mem ane x)
    /\ trace ane' = trace ane.
Proof.
  intros a N C H W P R Hbdx Hb HN HC HH HW HP HR HR0 HHle HWle Hfrom Hpad
         Hmem Hdst.
  pose proof (tile_size_range nn b) as Hts.
  set (ts := tile_size nn b) in *.
  assert (Hlen0 : len (repeat zero_byte (Z.to_nat ts)) = ts)
    by (apply len_zeros; lia).
  destruct (tile_spec N C H W P R HN HC HH HW HP HR HR0 HHle HWle
              ltac:(lia) from (repeat zero_byte (Z.to_nat ts)) Hfrom
              ltac:(lia))
    as (t & Hrun & Hlen & Hrows & Hframe).
  rewrite Hlen0 in Hlen.
  unfold ane_tile_send. rewrite Hbdx.
  replace (Z.of_nat ANE_TILE_COUNT <=? Z.of_nat b) with false
    by (symmetry; apply Z.leb_gt; lia).
  rewrite Nat2Z.id. fold a N C H W P R. fold ts. rewrite Hrun.
  unfold copy_to_map. rewrite Hmem.
  destruct (map_write dst t ts) as [dst' |] eqn:Ew.
  2:{ unfold map_write in Ew.
      replace (0 <=? ts) with true in Ew by (symmetry; apply Z.leb_le; lia).
      replace (ts <=? len t) with true in Ew
        by (symmetry; apply Z.leb_le; lia).
      replace (ts <=? m_len dst) with true in Ew
        by (symmetry; apply Z.leb_le; lia).
      discriminate. }
  destruct (map_write_inv _ _ _ _ Ew) as (_ & _ & _ & Hl & Hin & Hout).
  exists (mem_write ane (map (chan nn b)) dst'), dst'.
  split; [reflexivity |]. cbn [mem mem_write trace]. unfold mem_set.
  rewrite Z.eqb_refl. split; [reflexivity |]. split; [exact Hl |].
  split; [| split; [| split; [exact Hout | split; [| reflexivity]]]].
  - intros n c h w Hn Hc Hh Hw.
    destruct (row_join N C H W P R HN HC HH HW HP HR HR0 HHle HWle
                ltac:(lia) n c h Hn Hc Hh) as (Hk & Hq & Hm).
    pose proof (tpos_bound N C H W P R HN HC HH HW HP HR HR0 HHle HWle
                  ltac:(lia) _ Hk) as Hpb.
    pose proof (tpos_nonneg N C H W P R HN HC HH HW HP HR HR0 HHle HWle
                  ltac:(lia) _ Hk) as Hp0.
    unfold tile_row_pos in Hpb, Hp0. rewrite Hq, Hm in Hpb, Hp0.
    rewrite Hin by lia.
    rewrite <- (Hrows _ w Hk Hw). unfold tile_row_pos. rewrite Hq, Hm.
    reflexivity.
  - intros i Hi Hcell. rewrite Hin by exact Hi.
    rewrite Hframe.
    + apply byte_at_zeros.
    + lia.
    + intros r w Hr Hw ->. apply Hcell.
      apply (cell_of_row N C H W P R); assumption || lia.
  - intros x Hx. apply Z.eqb_neq in Hx. rewrite Hx. reflexivity.
Qed.

(** X15.  [__ane_tile_read] for a destination index that addresses the
    mapped channel [b], whose shape the descriptor gives and whose padded
    tensor fits the tile size: the caller's buffer receives the dense
    tensor, every byte of which is the cell of the mapping at the padded
    position; the buffer keeps its length and its bytes after the tensor. *)
Theorem tile_read_unpacks_channel (ane : device) (nn : ane_nn) (to : buffer)
  (idx : Z) (b : nat) (src : mapping) :
  let a := to_anec nn in
  let N := nchw_of a b 0 in let C := nchw_of a b 1 in
  let H := nchw_of a b 2 in let W := nchw_of a b 3 in
  let P := nchw_of a b 4 in let R := nchw_of a b 5 in
  dst_bdx idx = Z.of_nat b -> (b < ANE_TILE_COUNT)%nat ->
  is_u64 N -> is_u64 C -> is_u64 H -> is_u64 W -> is_u64 P -> is_u64 R ->
  R <> 0 -> H <= P / R -> W <= R / 2 ->
  N * C * H * (W * 2) <= len to ->
  N * C * (P / R) * (R / 2) * 2 <= tile_size nn b ->
  mem ane (map (chan nn b)) = Some src ->
  tile_size nn b <= m_len src ->
  exists d,
    ane_tile_read ane nn to idx = Some d
    /\ len d = len to
    /\ (forall n c h w,
          0 <= n < N -> 0 <= c < C -> 0 <= h < H -> 0 <= w < W * 2 ->
          byte_at d (((n * C + c) * H + h) * (W * 2) + w)
          = m_byte src (((n * C + c) * (P / R) + h) * (R / 2) * 2 + w))
    /\ (forall i, N * C * H * (W * 2) <= i -> byte_at d i = byte_at to i).
Proof.
  intros a N C H W P R Hbdx Hb HN HC HH HW HP HR HR0 HHle HWle Hto Hpad
         Hmem Hsrc.
  pose proof (tile_size_range nn b) as Hts.
  set (ts := tile_size nn b) in *.
  unfold ane_tile_read. rewrite Hbdx.
  replace (Z.of_nat b <? 0) with false by (symmetry; apply Z.ltb_ge; lia).
  replace (Z.of_nat ANE_TILE_COUNT <=? Z.of_nat b) with false
    by (symmetry; apply Z.leb_gt; lia).
  cbn [orb]. rewrite Nat2Z.id. fold a N C H W P R. fold ts. rewrite Hmem.
  destruct (map_read_some src ts ltac:(lia)) as [tile Htile].
  rewrite Htile.
  destruct (map_read_inv _ _ _ Htile) as (_ & Hlen & Hbytes).
  destruct (ane_untile_run N C H W P R HN HC HH HW HP HR HR0 HHle HWle
              ltac:(lia) tile to ltac:(lia) Hto)
    as (d & Hrun & Hdl & Hrows & _ & Hrest).
  exists d. split; [exact Hrun |]. split; [exact Hdl |].
  split; [| exact Hrest].
  intros n c h w Hn Hc Hh Hw.
  destruct (row_join N C H W P R HN HC HH HW HP HR HR0 HHle HWle
              ltac:(lia) n c h Hn Hc Hh) as (Hk & Hq & Hm).
  pose proof (tpos_bound N C H W P R HN HC HH HW HP HR HR0 HHle HWle
                ltac:(lia) _ Hk) as Hpb.
  pose proof (tpos_nonneg N C H W P R HN HC HH HW HP HR HR0 HHle HWle
                ltac:(lia) _ Hk) as Hp0.
  rewrite (Hrows _ w Hk Hw).
  unfold tile_row_pos in *. rewrite Hq, Hm in *.
  apply Hbytes. lia.
Qed.

End TiledTransferClaims.

(** ** The loader, failure by failure *)

Section LoaderMore.

Variable sizeof_anec : Z.
Variable read_size : buffer -> Z.
Hypothesis sizeof_anec_nonneg : 0 <= sizeof_anec.
Hypothesis read_size_nonneg : forall b, 0 <= read_size b.

(** Without a file that opens and seeks, or without the two blocks, the
    load returns [NULL]. *)
Lemma ane_model_init_refused h path :
  ~ (exists f rest,
       files h path = Some f /\ seekable f = true
       /\ malloc_script h = true :: true :: rest) ->
  exists h', ane_model_init sizeof_anec read_size h path = Some (None, h').
Proof using sizeof_anec_nonneg read_size_nonneg.
  intros Hno. unfold ane_model_init, ane_zmemalign, ane_zmalloc.
  destruct (malloc_script h) as [| [|] rest1] eqn:Hm; try (eexists; reflexivity).
  unfold ane_fread, fopen_rb. cbn [files malloc_script].
  destruct (files h path) as [f |] eqn:Hf; [| eexists; reflexivity].
  destruct (fread_spec (repeat zero_byte (Z.to_nat sizeof_anec)) sizeof_anec
              (mk_stream f 0)) as (hdr & Eh & _).
  { rewrite len_zeros; lia. }
  { cbn. lia. }
  rewrite Eh. cbn [Z.ltb Z.compare].
  destruct rest1 as [| [|] rest2]; try (eexists; reflexivity).
  unfold ane_pread, fopen_rb, fseek_set. cbn [files]. rewrite Hf.
  cbn [st_file].
  destruct (seekable f) eqn:Hseek; [| eexists; reflexivity].
  exfalso. apply Hno. exists f, rest2. repeat split; assumption.
Qed.

Lemma model_init_loadable h h' path m :
  ane_model_init sizeof_anec read_size h path = Some (Some m, h') ->
  exists f rest,
    files h path = Some f /\ seekable f = true
    /\ malloc_script h = true :: true :: rest.
Proof using sizeof_anec_nonneg read_size_nonneg.
  intros Hrun.
  destruct (files h path) as [f |] eqn:Hf.
  - destruct (seekable f) eqn:Hseek.
    + destruct (malloc_script h) as [| [|] [| [|] rest]] eqn:Hm.
      3:{ exists f, rest. repeat split; first [reflexivity | assumption]. }
      all: destruct (ane_model_init_refused h path) as (h2 & E);
           [ intros (f' & rest' & _ & _ & Hm'); congruence
           | rewrite E in Hrun; discriminate ].
    + destruct (ane_model_init_refused h path) as (h2 & E).
      { intros (f' & rest' & Hf' & Hs' & _).
        rewrite Hf in Hf'. inversion Hf'; subst. congruence. }
      rewrite E in Hrun. discriminate.
  - destruct (ane_model_init_refused h path) as (h2 & E).
    { intros (f' & rest' & Hf' & _). congruence. }
    rewrite E in Hrun. discriminate.
Qed.

End LoaderMore.

Section LoaderMoreClaims.

(** X16.  [ane_model_init] always returns, and it returns a model exactly
    when the host grants its two blocks and the file opens and seeks: in
    every other case the caller gets [NULL], and no length of the file makes
    the load fail. *)
Theorem model_init_fails_exactly (sizeof_anec : Z) (read_size : buffer -> Z)
  (h : host) (path : String.string) :
  0 <= sizeof_anec -> (forall b, 0 <= read_size b) ->
  exists r h',
    ane_model_init sizeof_anec read_size h path = Some (r, h')
    /\ ((exists m, r = Some m)
        <-> exists f rest,
              files h path = Some f /\ seekable f = true
              /\ malloc_script h = true :: true :: rest).
Proof.
  intros Hsz Hrs.
  destruct (malloc_script h) as [| [|] [| [|] rest]] eqn:Hm.
  3:{ destruct (files h path) as [f |] eqn:Hf.
      - destruct (seekable f) eqn:Hseek.
        + destruct (ane_model_init_run sizeof_anec read_size Hsz Hrs
                      h path f rest Hf Hseek Hm) as (m & E & _).
          exists (Some m), (mk_host (files h) rest).
          split; [exact E |]. split; [| eauto].
          intros _. exists f, rest. repeat split; assumption.
        + destruct (ane_model_init_refused sizeof_anec read_size Hsz Hrs
                      h path) as (h' & E).
          { intros (f' & rest' & Hf' & Hs' & _).
            rewrite Hf in Hf'. inversion Hf'; subst. congruence. }
          exists None, h'. split; [exact E |]. split.
          * intros (m & Hm'). discriminate.
          * intros (f' & rest' & Hf' & Hs' & _).
            inversion Hf'; subst. congruence.
      - destruct (ane_model_init_refused sizeof_anec read_size Hsz Hrs
                    h path) as (h' & E).
        { intros (f' & rest' & Hf' & _). congruence. }
        exists None, h'. split; [exact E |]. split.
        + intros (m & Hm'). discriminate.
        + intros (f' & rest' & Hf' & _). congruence. }
  all: destruct (ane_model_init_refused sizeof_anec read_size Hsz Hrs h path)
         as (h' & E);
       [ intros (f' & rest' & _ & _ & Hm'); congruence
       | exists None, h'; split; [exact E |]; split;
         [ intros (m & Hm'); discriminate
         | intros (f' & rest' & _ & _ & Hm'); congruence ] ].
Qed.

(** X17.  When the file is long enough and the medium does not fail, the
    loaded model is the file: the header block is the first
    [sizeof(struct anec)] bytes of the file, and the payload block is the
    [anec->size] bytes at offset [0x1000]. *)
Theorem full_read_loads_the_file (sizeof_anec : Z) (read_size : buffer -> Z)
  (h h' : host) (path : String.string) (m : raw_model) (f : file) :
  0 <= sizeof_anec -> (forall b, 0 <= read_size b) ->
  ane_model_init sizeof_anec read_size h path = Some (Some m, h') ->
  files h path = Some f -> io_limit f = None ->
  sizeof_anec <= len (contents f) ->
  anec_bytes m = firstn (Z.to_nat sizeof_anec) (contents f)
  /\ (ANEC_SIZE + read_size (anec_bytes m) <= len (contents f) ->
      payload m = firstn (Z.to_nat (read_size (anec_bytes m)))
                         (skipn (Z.to_nat ANEC_SIZE) (contents f))).
Proof.
  intros Hsz Hrs Hrun Hf Hlim Hlong.
  destruct (model_init_loadable sizeof_anec read_size Hsz Hrs h h' path m Hrun)
    as (f' & rest & Hf' & Hseek & Hm).
  rewrite Hf in Hf'. inversion Hf'; subst f'.
  destruct (ane_model_init_run sizeof_anec read_size Hsz Hrs h path f rest
              Hf Hseek Hm)
    as (m0 & E & Hl & Hpl & Hin & _ & Hpin & _).
  rewrite E in Hrun. inversion Hrun; subst m0.
  assert (Hn1 : fread_count (mk_stream f 0) sizeof_anec = sizeof_anec).
  { unfold fread_count. cbn [st_file st_pos]. rewrite Hlim. lia. }
  rewrite Hn1 in Hin.
  split.
  - apply buffer_ext.
    + unfold len in *. rewrite length_firstn. lia.
    + intros i Hi. rewrite Hin by lia. unfold byte_at.
      rewrite nth_firstn.
      replace (Z.to_nat i <? Z.to_nat sizeof_anec)%nat with true
        by (symmetry; apply Nat.ltb_lt; lia).
      reflexivity.
  - intros Hpay.
    pose proof (Hrs (anec_bytes m)) as Hs0.
    assert (Hn2 : fread_count (mk_stream f ANEC_SIZE) (read_size (anec_bytes m))
                  = read_size (anec_bytes m)).
    { unfold fread_count. cbn [st_file st_pos]. rewrite Hlim. lia. }
    rewrite Hn2 in Hpin.
    apply buffer_ext.
    + unfold len in *. rewrite length_firstn, length_skipn.
      unfold ANEC_SIZE in *. lia.
    + intros i Hi. rewrite Hpin by lia. unfold byte_at.
      rewrite nth_firstn.
      replace (Z.to_nat i <? Z.to_nat (read_size (anec_bytes m)))%nat
        with true by (symmetry; apply Nat.ltb_lt; lia).
      rewrite nth_skipn. f_equal. unfold ANEC_SIZE. lia.
Qed.

End LoaderMoreClaims.

(** ** Device discovery *)

Section DiscoveryFacts.

Lemma is_ane_node_ext s s' i :
  nodes s' = nodes s -> is_ane_node s' i = is_ane_node s i.
Proof. intros E. unfold is_ane_node. rewrite E. reflexivity. Qed.

Lemma filter_fresh (l : list (Z * nat)) fd bound :
  Forall (fun e => 0 <= fst e < bound) l -> bound <= fd ->
  filter (fun e => negb (fst e =? fd)) l = l.
Proof.
  intros Hall Hfd. induction Hall as [| e l He _ IH]; [reflexivity |].
  cbn [filter].
  replace (fst e =? fd) with false by (symmetry; apply Z.eqb_neq; lia).
  cbn [negb]. rewrite IH. reflexivity.
Qed.

Lemma fds_ok_step s l :
  fds_ok s -> l = opened s ->
  fds_ok (mk_sys (nodes s) l (next_fd s + 1)).
Proof.
  intros (Hn & Hall) ->. split; cbn [next_fd opened]; [lia |].
  eapply Forall_impl; [| exact Hall]. cbn. intros e He. lia.
Qed.

(** Closing the descriptor just opened leaves the earlier ones. *)
Lemma close_just_opened s i :
  fds_ok s ->
  sys_close (mk_sys (nodes s) ((next_fd s, i) :: opened s) (next_fd s + 1))
            (next_fd s)
  = mk_sys (nodes s) (opened s) (next_fd s + 1).
Proof.
  intros (Hn & Hall). unfold sys_close. cbn [nodes opened next_fd filter fst].
  rewrite Z.eqb_refl. cbn [negb].
  rewrite (filter_fresh _ _ _ Hall (Z.le_refl _)). reflexivity.
Qed.

Lemma is_ane_device_opened s i :
  (is_ane_device
     (mk_sys (nodes s) ((next_fd s, i) :: opened s) (next_fd s + 1))
     (next_fd s) <? 0)
  = negb (is_ane_node s i).
Proof.
  unfold is_ane_device, node_of_fd, is_ane_node.
  cbn [opened find fst nodes]. rewrite Z.eqb_refl.
  destruct (nodes s i) as [| | name]; try reflexivity.
  destruct (length name =? 0)%nat; [reflexivity |].
  destruct (bytes_eqb (cstr name) name_ane); reflexivity.
Qed.

Lemma open_fd_ane s i :
  fds_ok s -> is_ane_node s i = true ->
  open_fd s i
  = (next_fd s,
     mk_sys (nodes s) ((next_fd s, i) :: opened s) (next_fd s + 1)).
Proof.
  intros (Hn & Hall) Hane. unfold open_fd, sys_open.
  pose proof (is_ane_device_opened s i) as Hd. rewrite Hane in Hd.
  cbn [negb] in Hd.
  destruct (nodes s i) eqn:En.
  - unfold is_ane_node in Hane. rewrite En in Hane. discriminate.
  - replace (next_fd s <? 0) with false by (symmetry; apply Z.ltb_ge; lia).
    rewrite Hd. reflexivity.
  - replace (next_fd s <? 0) with false by (symmetry; apply Z.ltb_ge; lia).
    rewrite Hd. reflexivity.
Qed.

Lemma open_fd_other s i :
  fds_ok s -> is_ane_node s i = false ->
  exists r s',
    open_fd s i = (r, s') /\ r < 0 /\ nodes s' = nodes s
    /\ opened s' = opened s /\ next_fd s <= next_fd s' /\ fds_ok s'.
Proof.
  intros Hok Hane. unfold open_fd, sys_open.
  assert (Hmiss :
    exists r s',
      (let '(fd, s1) :=
         (next_fd s,
          mk_sys (nodes s) ((next_fd s, i) :: opened s) (next_fd s + 1)) in
       if fd <? 0 then (- ENODEV, s1)
       else if is_ane_device s1 fd <? 0 then (- EINVAL, sys_close s1 fd)
       else (fd, s1)) = (r, s')
      /\ r < 0 /\ nodes s' = nodes s
      /\ opened s' = opened s /\ next_fd s <= next_fd s' /\ fds_ok s').
  { pose proof Hok as (Hn & Hall).
    replace (next_fd s <? 0) with false by (symmetry; apply Z.ltb_ge; lia).
    rewrite is_ane_device_opened, Hane. cbn [negb].
    rewrite close_just_opened by assumption.
    eexists _, _. split; [reflexivity |]. cbn [nodes opened next_fd].
    split; [unfold EINVAL; lia |]. split; [reflexivity |].
    split; [reflexivity |]. split; [lia |].
    apply fds_ok_step; [assumption | reflexivity]. }
  destruct (nodes s i) eqn:En; [| exact Hmiss | exact Hmiss].
  exists (- ENODEV), s. split; [reflexivity |].
  split; [unfold ENODEV; lia |]. split; [reflexivity |].
  split; [reflexivity |]. split; [lia | assumption].
Qed.

(** The loop of [ane_open]: it stops at the accelerator that makes the count
    reach [dev_id], with only that descriptor left open, or runs out of
    nodes with nothing left open. *)
Lemma open_scan_spec s0 dev_id count :
  forall i found s,
    fds_ok s -> nodes s = nodes s0 -> found <= dev_id ->
    exists r s',
      open_scan count i found dev_id s = (r, s')
      /\ nodes s' = nodes s0 /\ fds_ok s'
      /\ ((exists j,
             (j < count)%nat /\ is_ane_node s0 (i + j) = true
             /\ found
                + Z.of_nat (length (filter (is_ane_node s0) (seq i j)))
                = dev_id
             /\ next_fd s <= r /\ opened s' = (r, (i + j)%nat) :: opened s)
          \/ (found
              + Z.of_nat (length (filter (is_ane_node s0) (seq i count)))
              <= dev_id
              /\ r = - ENODEV /\ opened s' = opened s)).
Proof.
  induction count as [| k IH]; intros i found s Hok Hnodes Hfound.
  - exists (- ENODEV), s. cbn [open_scan seq filter length].
    split; [reflexivity |]. split; [assumption |]. split; [assumption |].
    right. repeat split; lia.
  - cbn [open_scan].
    destruct (is_ane_node s0 i) eqn:Hane.
    + rewrite open_fd_ane
        by (try assumption; rewrite (is_ane_node_ext s0 s i Hnodes); exact Hane).
      pose proof Hok as (Hn & Hall).
      replace (next_fd s <? 0) with false by (symmetry; apply Z.ltb_ge; lia).
      destruct (dev_id =? found) eqn:Hd.
      * apply Z.eqb_eq in Hd. eexists _, _. split; [reflexivity |].
        cbn [nodes opened next_fd].
        split; [assumption |]. split.
        { split; cbn [next_fd opened]; [lia |].
          constructor; [cbn; lia |].
          eapply Forall_impl; [| exact Hall]. cbn. intros e He. lia. }
        left. exists 0%nat. rewrite Nat.add_0_r.
        cbn [seq filter length]. repeat split; try assumption; lia.
      * apply Z.eqb_neq in Hd.
        rewrite close_just_opened by assumption.
        destruct (IH (Datatypes.S i) (found + 1)
                     (mk_sys (nodes s) (opened s) (next_fd s + 1)))
          as (r & s' & E & Hn' & Hok' & Hcase).
        { apply fds_ok_step; [assumption | reflexivity]. }
        { exact Hnodes. }
        { lia. }
        exists r, s'. split; [exact E |]. split; [assumption |].
        split; [assumption |].
        cbn [next_fd opened] in Hcase.
        destruct Hcase as [(j & Hj & Hjane & Hcnt & Hr & Hop) | (Hcnt & Hr & Hop)].
        -- left. exists (Datatypes.S j).
           replace (i + Datatypes.S j)%nat with (Datatypes.S i + j)%nat by lia.
           cbn [seq filter]. rewrite Hane. cbn [length].
           repeat split; try assumption; lia.
        -- right. cbn [seq filter]. rewrite Hane. cbn [length].
           repeat split; try assumption; lia.
    + destruct (open_fd_other s i Hok) as (r1 & s1 & E1 & Hr1 & Hn1 & Hop1
                                           & Hnf1 & Hok1).
      { rewrite (is_ane_node_ext s0 s i Hnodes). exact Hane. }
      rewrite E1.
      replace (r1 <? 0) with true by (symmetry; apply Z.ltb_lt; lia).
      destruct (IH (Datatypes.S i) found s1) as (r & s' & E & Hn' & Hok' & Hcase);
        [assumption | congruence | assumption |].
      exists r, s'. split; [exact E |]. split; [assumption |].
      split; [assumption |].
      rewrite Hop1 in Hcase.
      destruct Hcase as [(j & Hj & Hjane & Hcnt & Hr & Hop) | (Hcnt & Hr & Hop)].
      * left. exists (Datatypes.S j).
        replace (i + Datatypes.S j)%nat with (Datatypes.S i + j)%nat by lia.
        cbn [seq filter]. rewrite Hane.
        repeat split; try assumption; lia.
      * right. cbn [seq filter]. rewrite Hane.
        repeat split; try assumption; lia.
Qed.

End DiscoveryFacts.

Section DiscoveryClaims.

(** X18.  For a device number in range, [ane_open] walks the 64 accel nodes
    in order and returns a descriptor of the [dev_id]-th one whose driver is
    named ["ane"], leaving that descriptor as the only new one open; when
    there are not that many it returns [-ENODEV] with every descriptor it
    opened closed again. *)
Theorem ane_open_selects_nth_device (s : sys) (dev_id : Z) :
  fds_ok s -> 0 <= dev_id < MAX_ANE_DEVICES ->
  let r := fst (ane_open s dev_id) in
  let s' := snd (ane_open s dev_id) in
  let ane_before j :=
    Z.of_nat (length (filter (is_ane_node s) (seq 0 j))) in
  (exists j,
     (j < MAX_NODE_COUNT)%nat /\ is_ane_node s j = true
     /\ ane_before j = dev_id
     /\ 0 <= r /\ opened s' = (r, j) :: opened s)
  \/ (ane_before MAX_NODE_COUNT <= dev_id
      /\ r = - ENODEV /\ opened s' = opened s).
Proof.
  intros Hok Hid r s' ane_before. subst r s' ane_before.
  unfold ane_open.
  replace ((dev_id <? 0) || (MAX_ANE_DEVICES <=? dev_id)) with false
    by (symmetry; apply orb_false_iff; split;
        [apply Z.ltb_ge | apply Z.leb_gt]; lia).
  destruct (open_scan_spec s dev_id MAX_NODE_COUNT 0%nat 0 s Hok eq_refl
              (proj1 Hid)) as (r & s' & E & _ & _ & Hcase).
  rewrite E. cbn [fst snd].
  destruct Hcase as [(j & Hj & Hjane & Hcnt & Hr & Hop) | (Hcnt & Hr & Hop)].
  - left. exists j. change (0 + j)%nat with j in *.
    destruct Hok as (Hn & _).
    split; [exact Hj |]. split; [exact Hjane |].
    split; [rewrite <- Hcnt; apply eq_sym, Z.add_0_l |].
    split; [lia | exact Hop].
  - right. split; [rewrite Z.add_0_l in Hcnt; exact Hcnt |].
    split; assumption.
Qed.

(** X19.  [ane_open] followed by [ane_close] on what it returned leaves the
    open descriptors as they were, whatever the device number and whether or
    not a device was found; and a failed [ane_open] alone already leaves
    them so, its result being [-EINVAL] exactly for a device number out of
    range and [-ENODEV] otherwise. *)
Theorem ane_open_close_balanced (s : sys) (dev_id : Z) :
  fds_ok s ->
  let r := fst (ane_open s dev_id) in
  let s' := snd (ane_open s dev_id) in
  opened (ane_close s' r) = opened s
  /\ (r < 0 ->
      opened s' = opened s
      /\ r = (if (dev_id <? 0) || (MAX_ANE_DEVICES <=? dev_id)
              then - EINVAL else - ENODEV)).
Proof.
  intros Hok r s'. subst r s'. unfold ane_open.
  destruct ((dev_id <? 0) || (MAX_ANE_DEVICES <=? dev_id)) eqn:Hrange.
  - cbn [fst snd]. unfold ane_close.
    replace (- EINVAL <? 0) with true by reflexivity.
    split; [reflexivity |]. intros _. split; reflexivity.
  - apply orb_false_iff in Hrange. destruct Hrange as (H0 & H1).
    apply Z.ltb_ge in H0.
    destruct (open_scan_spec s dev_id MAX_NODE_COUNT 0%nat 0 s Hok eq_refl H0)
      as (r & s' & E & _ & _ & Hcase).
    rewrite E. cbn [fst snd].
    pose proof Hok as (Hn & Hall).
    destruct Hcase as [(j & _ & _ & _ & Hr & Hop) | (_ & Hr & Hop)].
    + split; [| intros; lia].
      unfold ane_close.
      replace (r <? 0) with false by (symmetry; apply Z.ltb_ge; lia).
      unfold sys_close. cbn [opened]. rewrite Hop.
      cbn [filter fst]. rewrite Z.eqb_refl. cbn [negb].
      apply (filter_fresh _ _ _ Hall Hr).
    + subst r. split.
      * unfold ane_close.
        replace (- ENODEV <? 0) with true by reflexivity. exact Hop.
      * intros _. split; [exact Hop | reflexivity].
Qed.

End DiscoveryClaims.

(** ** More runs on concrete inputs *)

Section MoreRuns.

Import Demo.
Import Samples.

(** C5 as first stated fails for a channel set whose counts do not fit the
    channel array.  With [dst_count = 2^32 - 1] and [src_count = 2], the sum
    [4 + dst_count + idx] wraps around in 32 bits: source index 0 addresses
    the reserved channel 3, and source index 1 addresses channel 4, the
    channel of destination index 0.  With the index check compiled in, the
    two accessors return the same mapping, and [__ane_send] to source index
    1 writes the caller's bytes into the mapping of destination index 0. *)
Lemma index_arithmetic_wraps :
  dst_count (to_anec wrap_nn) = 2 ^ 32 - 1
  /\ src_count (to_anec wrap_nn) = 2
  /\ src_bdx wrap_nn 0 = 3
  /\ src_bdx wrap_nn 1 = 4 /\ dst_bdx 0 = 4
  /\ ane_src_chan true wrap_nn 1 = ane_dst_chan true wrap_nn 0
  /\ exists ane' c,
       ane_send true wrap_device wrap_nn tile_5a 1 = Some ane'
       /\ mem ane' (map (chan wrap_nn (Z.to_nat (dst_bdx 0)))) = Some c
       /\ m_byte c 0 = x5a%byte.
Proof.
  split; [reflexivity |]. split; [reflexivity |].
  split; [reflexivity |]. split; [reflexivity |]. split; [reflexivity |].
  split; [reflexivity |].
  unfold ane_send.
  change (src_bdx wrap_nn 1) with 4.
  replace (true && (src_count (to_anec wrap_nn) <=? u32 1)) with false
    by reflexivity.
  replace (Z.of_nat ANE_TILE_COUNT <=? 4) with false by reflexivity.
  change (tile_size wrap_nn (Z.to_nat 4)) with 16384.
  unfold copy_to_map.
  change (mem wrap_device (map (chan wrap_nn (Z.to_nat 4))))
    with (Some (mk_mapping 16384 (fun _ : Z => zero_byte))).
  unfold map_write.
  replace (len tile_5a) with 16384
    by (unfold len, tile_5a; rewrite repeat_length; reflexivity).
  cbn [m_len].
  change ((0 <=? 16384) && (16384 <=? 16384) && (16384 <=? 16384)) with true.
  cbv iota. eexists _, _. split; [reflexivity |]. split.
  - unfold mem_write, mem_set. cbn [mem].
    change (dst_bdx 0) with 4. rewrite Z.eqb_refl. reflexivity.
  - cbn [m_byte]. reflexivity.
Qed.

Lemma ane_tile_writes_cells_only_witness :
  exists t,
    Tiling.ane_tile dense garbage_tile 1 2 2 2 24 8 = Some t
    /\ len t = len garbage_tile
    /\ byte_at t 32 = byte_at dense 12
    /\ byte_at t 47 = byte_at garbage_tile 47.
Proof.
  destruct (ane_tile_writes_cells_only 1 2 2 2 24 8 dense garbage_tile)
    as (t & Ht & Hl & Hcell & Hpad);
    try (unfold is_u64; lia); try (vm_compute; lia);
    try (vm_compute; discriminate).
  - vm_compute. split; [discriminate | reflexivity].
  - exists t. split; [exact Ht |]. split; [exact Hl |]. split.
    + apply (Hcell 0 1 1 0); lia.
    + apply Hpad; [lia |].
      intros (n & c & h & w & Hn & Hc & Hh & Hw & E).
      change (24 / 8) with 3 in E. change (8 / 2) with 4 in E. lia.
Defined.

Lemma ane_tile_idempotent_witness :
  Tiling.ane_tile dense tiled_demo 1 2 2 2 24 8 = Some tiled_demo.
Proof.
  apply (ane_tile_idempotent 1 2 2 2 24 8 dense garbage_tile tiled_demo);
    try (unfold is_u64; lia); try (vm_compute; lia);
    try (vm_compute; reflexivity); try (vm_compute; discriminate).
  vm_compute. split; [discriminate | reflexivity].
Defined.

Lemma untile_then_tile_witness :
  Tiling.ane_tile untiled_demo garbage_tile 1 2 2 2 24 8 = Some garbage_tile.
Proof.
  apply (untile_then_tile 1 2 2 2 24 8 garbage_tile stale_out untiled_demo);
    try (unfold is_u64; lia); try (vm_compute; lia);
    try (vm_compute; reflexivity); try (vm_compute; discriminate).
  vm_compute. split; [discriminate | reflexivity].
Defined.

Lemma untile_reads_cells_only_witness :
  exists d,
    Tiling.ane_untile stale_out garbage_tile 1 2 2 2 24 8 = Some d
    /\ Tiling.ane_untile dense clean_tile 1 2 2 2 24 8 = Some d.
Proof.
  apply (untile_reads_cells_only 1 2 2 2 24 8 garbage_tile clean_tile
           stale_out dense);
    try (unfold is_u64; lia); try (vm_compute; lia);
    try (vm_compute; reflexivity); try (vm_compute; discriminate).
  - vm_compute. split; [discriminate | reflexivity].
  - intros i (n & c & h & w & Hn & Hc & Hh & Hw & E).
    change (24 / 8) with 3 in E. change (8 / 2) with 4 in E.
    assert (n = 0) by lia.
    assert (Hc' : c = 0 \/ c = 1) by lia.
    assert (Hh' : h = 0 \/ h = 1) by lia.
    assert (Hw' : w = 0 \/ w = 1 \/ w = 2 \/ w = 3) by lia.
    destruct Hc' as [-> | ->]; destruct Hh' as [-> | ->];
      destruct Hw' as [-> | [-> | [-> | ->]]]; subst; reflexivity.
Defined.

Lemma bo_init_then_free_witness :
  exists ane'',
    ane_bo_free (snd bo_run) (snd (fst bo_run))
    = (set_map (snd (fst bo_run)) NULL, ane'')
    /\ mem ane'' (map (snd (fst bo_run))) = None.
Proof.
  destruct (bo_init_then_free device_ok (set_size zero_bo 0x4000)
              (snd (fst bo_run)) (snd bo_run) ltac:(vm_compute; reflexivity))
    as (_ & _ & _ & _ & _ & ane'' & Hfree & _ & Hmem).
  exists ane''. split; assumption.
Defined.

Lemma chan_free_releases_all_witness :
  exists nn' ane',
    ane_chan_free ok_device ok_nn = (nn', ane')
    /\ Forall unmapped (chans nn') /\ unmapped (btsp_chan nn')
    /\ ane_chan_free ane' nn' = (nn', ane').
Proof.
  destruct (chan_free_releases_all ok_device ok_nn
              ltac:(vm_compute; reflexivity))
    as (nn' & ane' & E & _ & _ & _ & Hall & Hb & Hagain).
  exists nn', ane'. repeat split; assumption.
Defined.

Lemma init_then_free_balanced_witness :
  exists nn'' ane'',
    ane_chan_free ok_device ok_nn = (nn'', ane'')
    /\ Forall unmapped (chans nn'') /\ unmapped (btsp_chan nn'').
Proof.
  destruct (init_then_free_balanced FIFO_NID device_ok model_demo
              ok_nn ok_device ltac:(vm_compute; reflexivity))
    as (nn'' & ane'' & E & _ & Hall & Hb).
  exists nn'', ane''. repeat split; assumption.
Defined.

Lemma zero_td_size_never_inits_witness :
  exists ane',
    ane_init_from_model FIFO_NID device_ok model_zero_td = Some (None, ane').
Proof.
  destruct (zero_td_size_never_inits FIFO_NID device_ok model_zero_td eq_refl)
    as (err & nn' & ane' & _ & _ & _ & _ & E).
  exists ane'. exact E.
Defined.

Lemma task_program_is_loaded_witness :
  exists c0,
    mem ok_device (map (chan ok_nn 0)) = Some c0
    /\ (forall i, 0 <= i < 8 -> m_byte c0 i = byte_at program i).
Proof.
  destruct (task_program_is_loaded FIFO_NID device_ok model_demo
              ok_nn ok_device ltac:(vm_compute; reflexivity)
              ltac:(vm_compute; discriminate))
    as (_ & _ & c0 & td & Hc0 & _ & Hprog & _).
  exists c0. split; [exact Hc0 | exact Hprog].
Defined.

Lemma set_nid_restamps_witness :
  m_len (td_stamped (td_stamped td_demo 0x40) 0x41) = m_len td_demo
  /\ load_u32 (td_stamped (td_stamped td_demo 0x40) 0x41)
     = load_u32 (td_stamped td_demo 0x41).
Proof.
  destruct (set_nid_restamps td_demo (td_stamped td_demo 0x40)
              (td_stamped (td_stamped td_demo 0x40) 0x41) 0x40 0x41
              ltac:(vm_compute; reflexivity) ltac:(vm_compute; reflexivity))
    as (_ & Hl & _ & td' & E & Hw).
  split; [exact Hl |]. rewrite Hw. unfold td_stamped at 1. rewrite E.
  reflexivity.
Defined.

Lemma exec_submits_granted_handles_witness :
  length (sub_handles (submit_args ok_nn)) = ANE_TILE_COUNT
  /\ nth 1 (sub_handles (submit_args ok_nn)) 0 = 0.
Proof.
  destruct (exec_submits_granted_handles FIFO_NID device_ok model_demo
              ok_nn ok_device ltac:(vm_compute; reflexivity))
    as (Hl & _ & _ & _ & Hh & _).
  split; [exact Hl |].
  apply (Hh 1%nat ltac:(vm_compute; lia)). reflexivity.
Defined.

Lemma index_check_rejects_witness :
  ane_src_chan true ok_nn (-1) = Some NULL
  /\ ane_dst_size true ok_nn 1 = Some 0.
Proof.
  split.
  - destruct (index_check_rejects ok_nn (-1) ltac:(lia)) as (Hs & _).
    apply Hs. vm_compute. discriminate.
  - destruct (index_check_rejects ok_nn 1 ltac:(lia)) as (_ & _ & Hd & _).
    apply Hd. vm_compute. discriminate.
Defined.

Lemma accessors_agree_witness :
  ane_dst_chan true ok_nn 0 = Some (map (chan ok_nn 4))
  /\ ane_src_size false ok_nn 0 = Some (tile_size ok_nn 5).
Proof.
  split.
  - destruct (accessors_agree ok_nn 1 1 true eq_refl eq_refl
                ltac:(lia) ltac:(lia) ltac:(vm_compute; discriminate))
      as (Hd & _).
    apply (Hd 0). lia.
  - destruct (accessors_agree ok_nn 1 1 false eq_refl eq_refl
                ltac:(lia) ltac:(lia) ltac:(vm_compute; discriminate))
      as (_ & Hs).
    apply (Hs 0). lia.
Defined.

Lemma tile_send_fills_channel_witness :
  exists ane',
    ane_tile_send shaped_device shaped_nn dense 0 = Some ane'
    /\ trace ane' = trace shaped_device.
Proof.
  destruct (tile_send_fills_channel shaped_device shaped_nn dense 0 5
              (mapping_at shaped_device (map (chan shaped_nn 5)))
              ltac:(vm_compute; reflexivity) ltac:(vm_compute; lia)
              ltac:(vm_compute; split; [discriminate | reflexivity])
              ltac:(vm_compute; split; [discriminate | reflexivity])
              ltac:(vm_compute; split; [discriminate | reflexivity])
              ltac:(vm_compute; split; [discriminate | reflexivity])
              ltac:(vm_compute; split; [discriminate | reflexivity])
              ltac:(vm_compute; split; [discriminate | reflexivity])
              ltac:(vm_compute; discriminate)
              ltac:(vm_compute; discriminate)
              ltac:(vm_compute; discriminate)
              ltac:(vm_compute; discriminate)
              ltac:(vm_compute; discriminate)
              ltac:(vm_compute; reflexivity)
              ltac:(vm_compute; discriminate))
    as (ane' & dst' & E & _ & _ & _ & _ & _ & _ & Ht).
  exists ane'. split; assumption.
Defined.

Lemma tile_read_unpacks_channel_witness :
  exists d,
    ane_tile_read shaped_device shaped_nn stale_out 0 = Some d
    /\ len d = len stale_out.
Proof.
  destruct (tile_read_unpacks_channel shaped_device shaped_nn stale_out 0 4
              (mapping_at shaped_device (map (chan shaped_nn 4)))
              ltac:(vm_compute; reflexivity) ltac:(vm_compute; lia)
              ltac:(vm_compute; split; [discriminate | reflexivity])
              ltac:(vm_compute; split; [discriminate | reflexivity])
              ltac:(vm_compute; split; [discriminate | reflexivity])
              ltac:(vm_compute; split; [discriminate | reflexivity])
              ltac:(vm_compute; split; [discriminate | reflexivity])
              ltac:(vm_compute; split; [discriminate | reflexivity])
              ltac:(vm_compute; discriminate)
              ltac:(vm_compute; discriminate)
              ltac:(vm_compute; discriminate)
              ltac:(vm_compute; discriminate)
              ltac:(vm_compute; discriminate)
              ltac:(vm_compute; reflexivity)
              ltac:(vm_compute; discriminate))
    as (d & E & Hl & _).
  exists d. split; assumption.
Defined.

Lemma model_init_fails_exactly_witness :
  exists r h',
    ane_model_init 16 le64 host_demo model_path = Some (r, h')
    /\ exists m, r = Some m.
Proof.
  destruct (model_init_fails_exactly 16 le64 host_demo model_path
              ltac:(lia) le64_nonneg) as (r & h' & E & Hiff).
  exists r, h'. split; [exact E |]. apply Hiff.
  exists short_file, []. repeat split; reflexivity.
Defined.

Lemma full_read_loads_the_file_witness :
  anec_bytes loaded_whole = firstn 16 (contents whole_file).
Proof.
  apply (proj1 (full_read_loads_the_file 16 le64 host_whole
                  (mk_host (files host_whole) []) model_path loaded_whole
                  whole_file ltac:(lia) le64_nonneg
                  ltac:(vm_compute; reflexivity) eq_refl eq_refl
                  ltac:(vm_compute; discriminate))).
Defined.

Lemma fds_ok_sys_demo : fds_ok sys_demo.
Proof.
  split; [cbn; lia |]. repeat constructor; cbn; lia.
Qed.

Lemma ane_open_selects_nth_device_witness :
  (exists j,
     (j < MAX_NODE_COUNT)%nat /\ is_ane_node sys_demo j = true
     /\ Z.of_nat (length (filter (is_ane_node sys_demo) (seq 0 j))) = 1
     /\ 0 <= fst (ane_open sys_demo 1)
     /\ opened (snd (ane_open sys_demo 1))
        = (fst (ane_open sys_demo 1), j) :: opened sys_demo)
  \/ (Z.of_nat (length (filter (is_ane_node sys_demo) (seq 0 MAX_NODE_COUNT)))
      <= 1
      /\ fst (ane_open sys_demo 1) = - ENODEV
      /\ opened (snd (ane_open sys_demo 1)) = opened sys_demo).
Proof.
  apply (ane_open_selects_nth_device sys_demo 1 fds_ok_sys_demo).
  unfold MAX_ANE_DEVICES. lia.
Defined.

Lemma ane_open_close_balanced_witness :
  opened (ane_close (snd (ane_open sys_demo 1)) (fst (ane_open sys_demo 1)))
  = opened sys_demo.
Proof.
  apply (proj1 (ane_open_close_balanced sys_demo 1 fds_ok_sys_demo)).
Defined.

End MoreRuns.
